(** * Nexus scheduling fabric: DRR route table, dispatcher and global scheduler

    A shallow embedding of the routing and capacity-planning core of Nexus
    ([src/nexus/dispatcher/dispatcher.cpp] and the scheduler translation unit)
    together with the properties its specification states about it.

    Conventions of the embedding.
    - [double] quantities (rates, throughputs, quanta, occupancies) are exact
      rationals [Q]: comparisons and the branch structure of the code are
      kept, rounding, NaN and infinities are outside the model. The one
      exception is the finish time of a batch plan, where a [double] is
      added to an [int64_t] time stamp of about 1.7e18 ns: there the
      conversions and the sum are rounded to binary64 ([round_binary64]).
      [int64_t] time stamps are integers with the wrap-around written out.
    - [std::unordered_map] is stdpp's [gmap]; a [std::vector] is a [list]
      indexed with [!!]; a map whose iteration order can be observed
      ([backends_], [session_table_], [backend_weights] of the scheduler) is
      an association list in that order.
    - Objects held through [shared_ptr] and mutated in place live in a
      store: delegates under their node id, session infos in a heap
      addressed by the pointers of [session_table_].
    - An operation that can leave the normal control flow (an out-of-range
      [operator[]], a throwing [at], a failed glog [CHECK], a null
      dereference) returns a [Fault] in the [outcome] monad.
    - Classes whose code is not part of the sources (the model database,
      the scheduler's backend delegate, [std::sort]) are interfaces:
      type classes whose operations the functions below take as
      parameters. *)

From Stdlib Require Import ZArith QArith Qround Qabs Qpower Lia Lqa.
From stdpp Require Import base option list gmap strings fin_maps sorting.

(* ===================================================================== *)
(** ** Faults and the outcome monad *)
(* ===================================================================== *)

Inductive fault : Set :=
| VectorOutOfRange  (* operator[] past the end of a std::vector *)
| MapKeyMissing     (* unordered_map::at on an absent key throws *)
| CheckFailed       (* a glog CHECK fails: the process aborts *)
| NullDeref         (* dereference of an empty shared_ptr *)
| LoopFuel.         (* not an outcome of the program: the fuel that bounds a
                       loop of the model ran out *)

Inductive outcome (A : Type) : Type :=
| Ok (a : A)
| Fault (f : fault).
Arguments Ok {A} a.
Arguments Fault {A} f.

#[global] Instance outcome_ret : MRet outcome := fun A a => Ok a.
#[global] Instance outcome_bind : MBind outcome := fun A B k m =>
  match m with
  | Ok a => k a
  | Fault f => Fault f
  end.

#[global] Instance outcome_fmap : FMap outcome := fun A B f m =>
  match m with
  | Ok a => Ok (f a)
  | Fault e => Fault e
  end.

(* ===================================================================== *)
(** ** Numbers *)
(* ===================================================================== *)

Definition Qlt_bool (a b : Q) : bool := negb (Qle_bool b a).

(** [std::min(a, b)] is [(b < a) ? b : a]; [std::max(a, b)] is
    [(a < b) ? b : a]. *)
Definition std_min (a b : Q) : Q := if Qlt_bool b a then b else a.
Definition std_max (a b : Q) : Q := if Qlt_bool a b then b else a.

(** [std::numeric_limits<double>::max()], the largest finite binary64. *)
Definition DBL_MAX : Q := inject_Z (2 ^ 1024 - 2 ^ 971).

(** [std::fabs]. *)
Definition fabs (a : Q) : Q := if Qlt_bool a 0 then Qopp a else a.

(** Rounding to binary64: the nearest value with a 53-bit significand, ties
    to the even significand, with gradual underflow; overflow to infinity
    is outside the model. *)

(** The nearest integer, ties to the even one. *)
Definition round_half_even (q : Q) : Z :=
  let f := Qfloor q in
  match Qcompare (q - inject_Z f) (1 # 2) with
  | Lt => f
  | Gt => (f + 1)%Z
  | Eq => if Z.even f then f else (f + 1)%Z
  end.

(** [floor (log2 q)] for a positive [q]. *)
Definition Qlog2 (q : Q) : Z :=
  let k := (Z.log2 (Qnum q) - Z.log2 (Z.pos (Qden q)))%Z in
  if Qle_bool (Qpower 2 k) q then k else (k - 1)%Z.

(** The exponent of the unit in the last place of the binary64 values next
    to [q]: 52 below the binary exponent of [q], and -1074 for the
    subnormal numbers. *)
Definition ulp_exponent (q : Q) : Z :=
  Z.max (-1074) (Qlog2 (Qabs q) - 52).

Definition round_binary64 (q : Q) : Q :=
  if Qeq_bool q 0 then 0%Q
  else
    let e := ulp_exponent q in
    (inject_Z (round_half_even (q / Qpower 2 e)) * Qpower 2 e)%Q.

(* ===================================================================== *)
(** ** Wire messages shared by the dispatcher and the scheduler *)
(* ===================================================================== *)

Record BackendInfo := mkBackendInfo {
  node_id : N;
  ip : string;
  server_port : string;
  rpc_port : string;
  gpu_device_name : string;
  gpu_uuid : string;
  gpu_available_memory : N;
}.

Record BackendRateProto := mkBackendRate {
  info : BackendInfo;
  throughput : Q;
}.

Record ModelRouteProto := mkModelRouteProto {
  model_session_id : string;
  backend_rate : list BackendRateProto;
}.

Inductive CtrlStatus : Set :=
| CTRL_OK
| MODEL_NOT_FOUND
| NOT_ENOUGH_BACKENDS
| CTRL_SERVER_NOT_REGISTERED
| CTRL_FRONTEND_NODE_ID_CONFLICT
| CTRL_BACKEND_NODE_ID_CONFLICT
| CTRL_INVALID_LOAD_MODEL_REQUEST.

(** [unordered_map::emplace]: inserts only when the key is absent. *)
Definition emplace `{Countable K} {V : Type} (k : K) (v : V)
    (m : gmap K V) : gmap K V :=
  match m !! k with
  | Some _ => m
  | None => <[k := v]> m
  end.

(* ===================================================================== *)
(** ** The DRR route table ([ModelRoute]) *)
(* ===================================================================== *)

Module ModelRoute.

Record t := mk {
  model_session_id_ : string;
  backends_ : list BackendRateProto;
  total_throughput_ : Q;
  min_rate_ : Q;
  backend_quanta_ : gmap N Q;
  current_drr_index_ : nat;
}.

(** A default-constructed route. The class declaration is not part of the
    sources; [Update] overwrites every field but [backend_quanta_] and
    [current_drr_index_] before anything reads them, and those two start
    empty and at zero. *)
Definition init : t :=
  mk "" [] 0 0 ∅ 0.

Definition backend_id (b : BackendRateProto) : N := node_id (info b).

(** "Calculate quantum:rate ratio": the running [std::min] over the new
    list, started at [DBL_MAX]. *)
Definition min_throughput (bs : list BackendRateProto) : Q :=
  fold_left (fun m b => std_min m (throughput b)) bs DBL_MAX.

(** "Give quantum to new backends": one pass over the new list that sums
    the rates, emplaces a quantum and remembers the index of each id. *)
Record pass := mkPass {
  p_total : Q;
  p_quanta : gmap N Q;
  p_idx : gmap N nat;
}.

Fixpoint give_quantum (i : nat) (bs : list BackendRateProto) (p : pass) : pass :=
  match bs with
  | [] => p
  | b :: bs' =>
      give_quantum (S i) bs'
        (mkPass (p_total p + throughput b)%Q
                (emplace (backend_id b) (throughput b) (p_quanta p))
                (emplace (backend_id b) i (p_idx p)))
  end.

(** "Remove quantum of old backends": erase every entry whose key is not
    an id of the new list. *)
Definition drop_old (idx : gmap N nat) (quanta : gmap N Q) : gmap N Q :=
  filter (fun kv => is_Some (idx !! kv.1)) quanta.

Definition Update (route : ModelRouteProto) (r : t) : outcome t :=
  (* Save the current DRR backend *)
  current_drr_backend_id ←
    match backends_ r with
    | [] => Ok 0%N
    | _ :: _ =>
        match backends_ r !! current_drr_index_ r with
        | Some b => Ok (backend_id b)
        | None => Fault VectorOutOfRange
        end
    end;
  (* Update from the proto *)
  let backends := backend_rate route in
  let min_rate := min_throughput backends in
  let p := give_quantum 0 backends (mkPass 0 (backend_quanta_ r) ∅) in
  let quanta := drop_old (p_idx p) (p_quanta p) in
  (* Recover the current DRR backend *)
  let index :=
    match p_idx p !! current_drr_backend_id with
    | Some i => i
    | None =>
        match backends with
        | [] => O
        | _ :: _ => current_drr_index_ r mod length backends
        end
    end in
  Ok (mk (model_session_id route) backends (p_total p) min_rate quanta index).

Definition set_quantum (id : N) (q : Q) (r : t) : t :=
  mk (model_session_id_ r) (backends_ r) (total_throughput_ r) (min_rate_ r)
     (<[id := q]> (backend_quanta_ r)) (current_drr_index_ r).

Definition advance (r : t) : t :=
  mk (model_session_id_ r) (backends_ r) (total_throughput_ r) (min_rate_ r)
     (backend_quanta_ r) (S (current_drr_index_ r) mod length (backends_ r)).

(** The loop of [GetBackend], one unfolding per iteration. [i] is the loop
    counter of the source; the third component of the result is the number
    of iterations that ran. The source bounds the loop itself with
    [CHECK_LE(i, backends_.size())], so [length backends_ + 2] units of fuel
    are never used up ([GetBackend_loop_fuel] and [GetBackend_fuel] below). *)
Fixpoint GetBackend_loop (fuel i : nat) (r : t) : outcome (BackendInfo * t * nat) :=
  match fuel with
  | O => Fault LoopFuel
  | S fuel' =>
      match backends_ r !! current_drr_index_ r with
      | None => Fault VectorOutOfRange
      | Some backend =>
          match backend_quanta_ r !! backend_id backend with
          | None => Fault MapKeyMissing
          | Some q =>
              if Qle_bool (min_rate_ r) q then
                Ok (info backend,
                    set_quantum (backend_id backend) (q - min_rate_ r)%Q r,
                    S i)
              else
                let r' :=
                  advance (set_quantum (backend_id backend)
                                       (q + throughput backend)%Q r) in
                if (i <=? length (backends_ r))%nat
                then GetBackend_loop fuel' (S i) r'
                else Fault CheckFailed
          end
      end
  end.

Definition GetBackend (r : t) : outcome (BackendInfo * t * nat) :=
  GetBackend_loop (length (backends_ r) + 2) 0 r.

(** [n] calls in a row; the backends returned, in order. *)
Fixpoint GetBackend_n (n : nat) (r : t) : outcome (list BackendInfo * t) :=
  match n with
  | O => Ok ([], r)
  | S n' =>
      res ← GetBackend r;
      rest ← GetBackend_n n' res.1.2;
      Ok (res.1.1 :: rest.1, rest.2)
  end.

(** *** Vocabulary of the statements *)

(** Position and rate of the first entry of a list that carries [id]. *)
Fixpoint first_index (id : N) (bs : list BackendRateProto) : option nat :=
  match bs with
  | [] => None
  | b :: bs' =>
      if decide (backend_id b = id) then Some O else S <$> first_index id bs'
  end.

Fixpoint first_rate (id : N) (bs : list BackendRateProto) : option Q :=
  match bs with
  | [] => None
  | b :: bs' =>
      if decide (backend_id b = id) then Some (throughput b)
      else first_rate id bs'
  end.

(** Left-to-right sum of the rates, as the loop accumulates it. *)
Definition sum_throughput (bs : list BackendRateProto) : Q :=
  fold_left (fun s b => (s + throughput b)%Q) bs 0%Q.

(** The representation invariant of a route table: the index addresses an
    entry, every listed backend owns a quantum, and [min_rate_] is below
    every listed rate. *)
Record route_ok (r : t) : Prop := mkRouteOk {
  ok_index : backends_ r ≠ [] -> current_drr_index_ r < length (backends_ r);
  ok_quanta : forall b, b ∈ backends_ r ->
    is_Some (backend_quanta_ r !! backend_id b);
  ok_min_rate : forall b, b ∈ backends_ r -> (min_rate_ r <= throughput b)%Q;
}.

Definition quanta_nonneg (r : t) : Prop :=
  forall id q, backend_quanta_ r !! id = Some q -> (0 <= q)%Q.

Definition rates_positive (bs : list BackendRateProto) : Prop :=
  forall b, b ∈ bs -> (0 < throughput b)%Q.

Local Open Scope Q_scope.

(** The id saved by "Save the current DRR backend". *)
Definition saved_id (r : t) : N :=
  match backends_ r !! current_drr_index_ r with
  | Some b => backend_id b
  | None => 0%N
  end.

Definition index_valid (r : t) : Prop :=
  backends_ r ≠ [] -> (current_drr_index_ r < length (backends_ r))%nat.

(** Position [pos] holds a backend whose quantum covers [min_rate_]. *)
Definition ready (r : t) (pos : nat) : Prop :=
  exists b q, backends_ r !! pos = Some b /\
    backend_quanta_ r !! backend_id b = Some q /\ min_rate_ r <= q.

(** What a call leaves untouched. *)
Definition same_table (r r' : t) : Prop :=
  model_session_id_ r' = model_session_id_ r /\
  backends_ r' = backends_ r /\
  total_throughput_ r' = total_throughput_ r /\
  min_rate_ r' = min_rate_ r.

End ModelRoute.


(* ===================================================================== *)
(** ** The per-query dispatcher *)
(* ===================================================================== *)

(** [int64_t] arithmetic, with the two's-complement wrap-around written
    out, and the conversion of a [double] to [int64_t] (truncation towards
    zero). *)
Definition wrap64 (z : Z) : Z := ((z + 2 ^ 63) mod 2 ^ 64 - 2 ^ 63)%Z.
Definition in_int64 (z : Z) : Prop := (- 2 ^ 63 <= z < 2 ^ 63)%Z.
Definition Qtruncate (q : Q) : Z := Z.quot (Qnum q) (Z.pos (Qden q)).

Record ModelSession := mkModelSession {
  framework : string;
  model_name : string;
  version : N;
  latency_sla : N;
  image_height : N;
  image_width : N;
}.

(** The read-only model profile; the class is not part of the sources.
    [GetForwardLatency] is in microseconds and returns a [double]. *)
Record ModelProfile := mkModelProfile {
  GetForwardLatency : N -> Q;
  GetMaxBatchWithFullBudget : N -> N;
}.

(** What the model database knows about a model: the [resizable] flag, when
    present, and the default image size. *)
Record ModelInfo := mkModelInfo {
  resizable : option bool;
  info_image_height : N;
  info_image_width : N;
}.

(** External collaborators whose code is not part of the sources: the
    session-id parser and printers, the model database and the beacon
    constant. *)
Class Externals := mkExternals {
  ParseModelSession : string -> ModelSession;
  ModelSessionToString : ModelSession -> string;
  ModelSessionToProfileID : ModelSession -> string;
  ModelSessionToModelID : ModelSession -> string;
  GetModelProfile : string -> string -> string -> option ModelProfile;
  GetModelInfo : string -> option ModelInfo;
  BEACON_INTERVAL_SEC : N;
}.

Module Dispatcher.

Record ClockProto := mkClock {
  frontend_recv_ns : Z;
  dispatcher_recv_ns : Z;
  dispatcher_sched_ns : Z;
  dispatcher_dispatch_ns : Z;
}.

Record QueryProto := mkQuery {
  query_id : N;
  query_model_session_id : string;
  global_id : N;
  clock : ClockProto;
}.

Record BatchPlanProto := mkBatchPlan {
  plan_id : N;
  plan_model_session_id : string;
  queries_without_input : list QueryProto;
  exec_time_ns : Z;
  deadline_ns : Z;
  expected_finish_time_ns : Z;
}.

Record DispatchReply := mkDispatchReply {
  reply_model_session : string;
  reply_query_id : N;
  reply_status : CtrlStatus;
}.

(** The instance of a session on a backend, built as the sources build
    their [InstanceContext]: the batch limit comes from the profile and the
    session's latency budget. *)
Record InstanceInfo := mkInstanceInfo {
  inst_model_session : ModelSession;
  inst_backend_id : N;
  profile : ModelProfile;
  max_batch : N;
}.

Definition new_InstanceInfo (ms : ModelSession) (backend_id : N)
    (p : ModelProfile) : InstanceInfo :=
  mkInstanceInfo ms backend_id p (GetMaxBatchWithFullBudget p (latency_sla ms)).

(** A backend delegate: its identity, its instances by session id, and the
    RPCs it has issued to its backend, oldest first. *)
Inductive BackendRpc :=
| EnqueueBatchPlanRpc (plan : BatchPlanProto)
| LoadModelCommandRpc (ms : ModelSession) (max_batch : N).

Record BackendDelegate := mkBackendDelegate {
  backend_info : BackendInfo;
  instances : gmap string InstanceInfo;
  backend_sent : list BackendRpc;
}.

Definition GetInstanceInfo (id : string) (b : BackendDelegate) : option InstanceInfo :=
  instances b !! id.

Definition AddInstanceInfo (id : string) (inst : InstanceInfo)
    (b : BackendDelegate) : BackendDelegate :=
  mkBackendDelegate (backend_info b) (<[id := inst]> (instances b)) (backend_sent b).

Definition EnqueueBatchPlan (plan : BatchPlanProto) (b : BackendDelegate) : BackendDelegate :=
  mkBackendDelegate (backend_info b) (instances b)
    (backend_sent b ++ [EnqueueBatchPlanRpc plan]).

Definition SendLoadModelCommand (ms : ModelSession) (mb : N)
    (b : BackendDelegate) : BackendDelegate :=
  mkBackendDelegate (backend_info b) (instances b)
    (backend_sent b ++ [LoadModelCommandRpc ms mb]).

(** A frontend delegate and the backend-list updates pushed to it. *)
Record FrontendDelegate := mkFrontendDelegate {
  frontend_node_id : N;
  frontend_ip : string;
  frontend_server_port : string;
  frontend_rpc_port : string;
  frontend_beacon_sec : N;
  backend_list_updates : list (list BackendInfo);
}.

Definition UpdateBackendList (update : list BackendInfo)
    (f : FrontendDelegate) : FrontendDelegate :=
  mkFrontendDelegate (frontend_node_id f) (frontend_ip f)
    (frontend_server_port f) (frontend_rpc_port f) (frontend_beacon_sec f)
    (backend_list_updates f ++ [update]).

Record ModelSessionContext := mkSessionContext {
  ctx_model_session : ModelSession;
  ctx_instances : gmap N InstanceInfo;
}.

Record t := mk {
  frontends_ : gmap N FrontendDelegate;
  backends_ : gmap N BackendDelegate;
  sessions_ : gmap string ModelSessionContext;
  models_ : gmap string ModelRoute.t;
  next_global_id_ : N;
  next_plan_id_ : N;
  beacon_interval_sec_ : N;
}.

Definition init (beacon : N) : t := mk ∅ ∅ ∅ ∅ 0 0 beacon.

Definition set_models (m : gmap string ModelRoute.t) (d : t) : t :=
  mk (frontends_ d) (backends_ d) (sessions_ d) m
     (next_global_id_ d) (next_plan_id_ d) (beacon_interval_sec_ d).

Definition set_backends (b : gmap N BackendDelegate) (d : t) : t :=
  mk (frontends_ d) b (sessions_ d) (models_ d)
     (next_global_id_ d) (next_plan_id_ d) (beacon_interval_sec_ d).

Definition set_frontends (f : gmap N FrontendDelegate) (d : t) : t :=
  mk f (backends_ d) (sessions_ d) (models_ d)
     (next_global_id_ d) (next_plan_id_ d) (beacon_interval_sec_ d).

Definition set_sessions (s : gmap string ModelSessionContext) (d : t) : t :=
  mk (frontends_ d) (backends_ d) s (models_ d)
     (next_global_id_ d) (next_plan_id_ d) (beacon_interval_sec_ d).

Definition take_global_id (d : t) : N * t :=
  (next_global_id_ d,
   mk (frontends_ d) (backends_ d) (sessions_ d) (models_ d)
      ((next_global_id_ d + 1) mod 2 ^ 64)%N (next_plan_id_ d)
      (beacon_interval_sec_ d)).

Definition take_plan_id (d : t) : N * t :=
  (next_plan_id_ d,
   mk (frontends_ d) (backends_ d) (sessions_ d) (models_ d)
      (next_global_id_ d) ((next_plan_id_ d + 1) mod 2 ^ 64)%N
      (beacon_interval_sec_ d)).

Definition set_sched_ns (ns : Z) (q : QueryProto) : QueryProto :=
  mkQuery (query_id q) (query_model_session_id q) (global_id q)
    (mkClock (frontend_recv_ns (clock q)) (dispatcher_recv_ns (clock q))
             ns (dispatcher_dispatch_ns (clock q))).

Definition set_dispatch_ns (ns : Z) (q : QueryProto) : QueryProto :=
  mkQuery (query_id q) (query_model_session_id q) (global_id q)
    (mkClock (frontend_recv_ns (clock q)) (dispatcher_recv_ns (clock q))
             (dispatcher_sched_ns (clock q)) ns).

Definition set_global_id (g : N) (q : QueryProto) : QueryProto :=
  mkQuery (query_id q) (query_model_session_id q) g (clock q).

Definition set_status (st : CtrlStatus) (r : DispatchReply) : DispatchReply :=
  mkDispatchReply (reply_model_session r) (reply_query_id r) st.

(** [kNetworkLatency = microseconds(5000)], in nanoseconds. *)
Definition kNetworkLatency_ns : Z := 5000 * 1000.

Section with_env.
Context `{!Externals}.

(** The [BatchPlanProto] that [DispatchRequest] builds once a backend has
    been chosen. [now] and [dispatch_now] are the two later readings of the
    clock. *)
Definition build_plan (plan_id : N) (now dispatch_now : Z)
    (inst_info : InstanceInfo) (query : QueryProto) : BatchPlanProto :=
  let model_session := ParseModelSession (query_model_session_id query) in
  (* Define deadline *)
  let deadline_ns :=
    wrap64 (frontend_recv_ns (clock query)
            + Z.of_N (latency_sla model_session) * 1000) in
  (* Build a simple BatchPlan *)
  let exec_time_ns := wrap64 (now + kNetworkLatency_ns) in
  (* [auto exec_elapse_ns] is a double product and [auto finish_time_ns]
     the sum of an int64 and a double, which is a double: [exec_time_ns] is
     converted and the sum rounded. Storing it in the plan converts it back
     to int64 by truncation. *)
  let exec_elapse_ns :=
    round_binary64 (GetForwardLatency (profile inst_info) 1 * 1000) in
  let finish_time_ns :=
    round_binary64 (round_binary64 (inject_Z exec_time_ns) + exec_elapse_ns) in
  mkBatchPlan plan_id (query_model_session_id query)
    [set_dispatch_ns dispatch_now query]
    exec_time_ns deadline_ns (wrap64 (Qtruncate finish_time_ns)).

(** [Dispatcher::DispatchRequest]. [sched_now], [now] and [dispatch_now]
    are the three readings of the clock, in nanoseconds since the epoch. *)
Definition DispatchRequest (sched_now now dispatch_now : Z)
    (query_without_input : QueryProto) (reply : DispatchReply) (d : t)
    : outcome (DispatchReply * t) :=
  (* Update punch clock *)
  let query := set_sched_ns sched_now query_without_input in
  (* Assign GlobalId *)
  let '(global_id, d) := take_global_id d in
  let query := set_global_id global_id query in
  (* Run round-robin *)
  match models_ d !! query_model_session_id query with
  | None => Ok (set_status MODEL_NOT_FOUND reply, d)
  | Some route =>
      res ← ModelRoute.GetBackend route;
      let backend_info := res.1.1 in
      let d := set_models (<[query_model_session_id query := res.1.2]> (models_ d)) d in
      let reply := set_status CTRL_OK reply in
      match backends_ d !! node_id backend_info with
      | None => Ok (reply, d)
      | Some backend =>
          (* Send the query to the backend. *)
          match GetInstanceInfo (query_model_session_id query) backend with
          | None => Fault NullDeref
          | Some inst_info =>
              let '(plan_id, d) := take_plan_id d in
              let request := build_plan plan_id now dispatch_now inst_info query in
              Ok (reply,
                  set_backends (<[node_id backend_info :=
                                    EnqueueBatchPlan request backend]> (backends_ d)) d)
          end
      end
  end.

(** [Dispatcher::UpdateModelRoutes]. *)
Fixpoint update_routes (routes : list ModelRouteProto)
    (models : gmap string ModelRoute.t) : outcome (gmap string ModelRoute.t) :=
  match routes with
  | [] => Ok models
  | model_route :: rest =>
      let old := default ModelRoute.init (models !! model_session_id model_route) in
      r ← ModelRoute.Update model_route old;
      update_routes rest (<[model_session_id model_route := r]> models)
  end.

Definition UpdateModelRoutes (request : list ModelRouteProto) (d : t)
    : outcome (CtrlStatus * t) :=
  m ← update_routes request (models_ d);
  Ok (CTRL_OK, set_models m d).

(** [Dispatcher::HandleRegister]. [peer] is [ctx.peer()] split at colons;
    the ip is its second token. *)
Inductive NodeType : Set := FRONTEND_NODE | BACKEND_NODE | OTHER_NODE.

Record RegisterRequest := mkRegisterRequest {
  req_node_type : NodeType;
  req_node_id : N;
  req_server_port : string;
  req_rpc_port : string;
  req_gpu_device_name : string;
  req_gpu_uuid : string;
  req_gpu_available_memory : N;
}.

Record RegisterReply := mkRegisterReply {
  reg_status : CtrlStatus;
  reg_beacon_interval_sec : N;
}.

Definition reg_set_status (st : CtrlStatus) (r : RegisterReply) : RegisterReply :=
  mkRegisterReply st (reg_beacon_interval_sec r).

Definition ctx_AddInstanceInfo (backend_id : N) (inst : InstanceInfo)
    (c : ModelSessionContext) : ModelSessionContext :=
  mkSessionContext (ctx_model_session c) (<[backend_id := inst]> (ctx_instances c)).

(** "Load Models": one round of the loop over the registered sessions. The
    session contexts are shared with [sessions_], so the instance added to a
    context is written back under its key. *)
Definition load_session (acc : RegisterReply * BackendDelegate *
                               gmap string ModelSessionContext)
    (entry : string * ModelSessionContext)
    : RegisterReply * BackendDelegate * gmap string ModelSessionContext :=
  let '(reply, backend, sessions) := acc in
  let model_session := ctx_model_session entry.2 in
  let profile_id := ModelSessionToProfileID model_session in
  match GetModelProfile (gpu_device_name (backend_info backend))
                        (gpu_uuid (backend_info backend)) profile_id with
  | None => (reg_set_status CTRL_INVALID_LOAD_MODEL_REQUEST reply, backend, sessions)
  | Some profile =>
      let inst := new_InstanceInfo model_session
                    (node_id (backend_info backend)) profile in
      let model_sess_id := ModelSessionToString model_session in
      let backend := AddInstanceInfo model_sess_id inst backend in
      let sessions :=
        <[entry.1 := ctx_AddInstanceInfo (node_id (backend_info backend))
                       inst entry.2]> sessions in
      (reply, SendLoadModelCommand model_session (max_batch inst) backend, sessions)
  end.

Definition HandleRegister (peer : list string) (request : RegisterRequest)
    (reply : RegisterReply) (d : t) : outcome (RegisterReply * t) :=
  match peer !! 1%nat with
  | None => Fault VectorOutOfRange
  | Some ip =>
      match req_node_type request with
      | FRONTEND_NODE =>
          let frontend :=
            mkFrontendDelegate (req_node_id request) ip
              (req_server_port request) (req_rpc_port request)
              (beacon_interval_sec_ d) [] in
          let frontend_id := frontend_node_id frontend in
          match frontends_ d !! frontend_id with
          | Some _ =>
              Ok (reg_set_status CTRL_FRONTEND_NODE_ID_CONFLICT reply, d)
          | None =>
              (* UpdateBackendList *)
              let update := (fun kv => backend_info kv.2) <$> map_to_list (backends_ d) in
              let frontend := UpdateBackendList update frontend in
              Ok (mkRegisterReply CTRL_OK BEACON_INTERVAL_SEC,
                  set_frontends (<[frontend_id := frontend]> (frontends_ d)) d)
          end
      | BACKEND_NODE =>
          let backend :=
            mkBackendDelegate
              (mkBackendInfo (req_node_id request) ip (req_server_port request)
                 (req_rpc_port request) (req_gpu_device_name request)
                 (req_gpu_uuid request) (req_gpu_available_memory request))
              ∅ [] in
          let backend_id := node_id (backend_info backend) in
          match backends_ d !! backend_id with
          | Some _ =>
              Ok (reg_set_status CTRL_BACKEND_NODE_ID_CONFLICT reply, d)
          | None =>
              (* Load Models *)
              let '(reply, backend, sessions) :=
                fold_left load_session (map_to_list (sessions_ d))
                          (reply, backend, sessions_ d) in
              (* UpdateBackendList *)
              let frontends :=
                UpdateBackendList [backend_info backend] <$> frontends_ d in
              Ok (mkRegisterReply CTRL_OK BEACON_INTERVAL_SEC,
                  set_frontends frontends
                    (set_sessions sessions
                       (set_backends (<[backend_id := backend]> (backends_ d)) d)))
          end
      | OTHER_NODE =>
          Ok (reg_set_status CTRL_SERVER_NOT_REGISTERED reply, d)
      end
  end.

(** The three ways [DispatchRequest] can return. *)
Inductive dispatched (sched_now now dispatch_now : Z) (q : QueryProto)
    (reply : DispatchReply) (d : t) : DispatchReply * t -> Prop :=
| no_route :
    models_ d !! query_model_session_id q = None ->
    dispatched sched_now now dispatch_now q reply d
      (set_status MODEL_NOT_FOUND reply, (take_global_id d).2)
| no_delegate route b route' n :
    models_ d !! query_model_session_id q = Some route ->
    ModelRoute.GetBackend route = Ok (b, route', n) ->
    backends_ d !! node_id b = None ->
    dispatched sched_now now dispatch_now q reply d
      (set_status CTRL_OK reply,
       set_models (<[query_model_session_id q := route']> (models_ d))
                  (take_global_id d).2)
| enqueued route b route' n backend inst_info :
    models_ d !! query_model_session_id q = Some route ->
    ModelRoute.GetBackend route = Ok (b, route', n) ->
    backends_ d !! node_id b = Some backend ->
    GetInstanceInfo (query_model_session_id q) backend = Some inst_info ->
    let query :=
      set_global_id (next_global_id_ d) (set_sched_ns sched_now q) in
    let plan := build_plan (next_plan_id_ d) now dispatch_now inst_info query in
    dispatched sched_now now dispatch_now q reply d
      (set_status CTRL_OK reply,
       set_backends
         (<[node_id b := EnqueueBatchPlan plan backend]> (backends_ d))
         (take_plan_id
            (set_models (<[query_model_session_id q := route']> (models_ d))
                        (take_global_id d).2)).2).

End with_env.

End Dispatcher.

(* ===================================================================== *)
(** ** The global scheduler *)
(* ===================================================================== *)

(** Maps the scheduler iterates over ([backends_], [session_table_],
    [backend_weights]) are association lists in their iteration order; keys
    are unique. *)
Section assoc.
Context {K V : Type} `{EqDecision K}.

Fixpoint assoc_find (k : K) (l : list (K * V)) : option V :=
  match l with
  | [] => None
  | (k', v) :: l' => if decide (k' = k) then Some v else assoc_find k l'
  end.

(** [m[k] = v]: overwrite in place, or insert. *)
Fixpoint assoc_set (k : K) (v : V) (l : list (K * V)) : list (K * V) :=
  match l with
  | [] => [(k, v)]
  | (k', v') :: l' =>
      if decide (k' = k) then (k, v) :: l' else (k', v') :: assoc_set k v l'
  end.

Definition assoc_emplace (k : K) (v : V) (l : list (K * V)) : list (K * V) :=
  match assoc_find k l with
  | Some _ => l
  | None => l ++ [(k, v)]
  end.

Definition assoc_erase (k : K) (l : list (K * V)) : list (K * V) :=
  filter (fun kv => kv.1 ≠ k) l.

End assoc.

(** Modelled from the spec: the scheduler's [BackendDelegate] and
    [InstanceInfo] classes are not part of the sources. A backend is a value
    of a type [B], an instance description a value of [I], and the
    operations of section 3 of the specification are functions on them. An
    operation that mutates the delegate returns the new delegate;
    [PrepareLoadModel], the "hypothetical placement without committing",
    returns none. *)
Module BackendDelegate.
Class ops (B I : Type) := mkOps {
  node_id : B -> N;
  workload_id : B -> Z;
  IsIdle : B -> bool;
  overload : B -> bool;
  Occupancy : B -> Q;
  GetInfo : B -> BackendInfo;
  GetModelWeight : string -> B -> Q;
  PrepareLoadModel : ModelSession -> Q -> B -> option (I * Q);
  LoadModel : I -> B -> B;
  UnloadModel : string -> B -> B;
  UpdateModelThroughput : string -> Q -> B -> B * Q;
  UpdateModelTableRpc : B -> B;
  (* InstanceInfo *)
  throughput : I -> Q;
  GetWeight : I -> Q;
  default_InstanceInfo : I;
}.
End BackendDelegate.

(** [std::sort] with the comparator [a.second > b.second]: some rearrangement
    of its input in which no element is followed by one of larger weight. *)
Definition by_weight_desc (a b : N * Q) : Prop := (b.2 <= a.2)%Q.

Class StdSort := mkStdSort {
  std_sort : list (N * Q) -> list (N * Q);
}.

Definition sorts_by_weight (sort : list (N * Q) -> list (N * Q)) : Prop :=
  forall l, Permutation (sort l) l /\ Sorted by_weight_desc (sort l).

Module Scheduler.

Record FrontendDelegate := mkFrontend {
  frontend_node_id : N;
  subscribe_models : gset string;
}.

(** Modelled from the spec: [FrontendDelegate::SubscribeModel] adds the
    session to the frontend's subscriptions. *)
Definition SubscribeModel (id : string) (f : FrontendDelegate) : FrontendDelegate :=
  mkFrontend (frontend_node_id f) ({[id]} ∪ subscribe_models f).

Record SessionInfo := mkSessionInfo {
  model_sessions : list ModelSession;
  backend_weights : list (N * Q);
  workloads : list (N * Q);         (* frontend id, current rate() of its counter *)
  rps_history : list Q;
  unassigned_workload : Q;
  session_subscribers : gmap string (gset N);
  backup_backends : gset N;
  has_static_workload : bool;
}.

Definition new_SessionInfo : SessionInfo :=
  mkSessionInfo [] [] [] [] 0 ∅ ∅ false.

Definition set_backend_weights (w : list (N * Q)) (si : SessionInfo) : SessionInfo :=
  mkSessionInfo (model_sessions si) w (workloads si) (rps_history si)
    (unassigned_workload si) (session_subscribers si) (backup_backends si)
    (has_static_workload si).

Definition set_rps_history (h : list Q) (si : SessionInfo) : SessionInfo :=
  mkSessionInfo (model_sessions si) (backend_weights si) (workloads si) h
    (unassigned_workload si) (session_subscribers si) (backup_backends si)
    (has_static_workload si).

Definition set_unassigned_workload (u : Q) (si : SessionInfo) : SessionInfo :=
  mkSessionInfo (model_sessions si) (backend_weights si) (workloads si)
    (rps_history si) u (session_subscribers si) (backup_backends si)
    (has_static_workload si).

Definition push_model_session (ms : ModelSession) (si : SessionInfo) : SessionInfo :=
  mkSessionInfo (model_sessions si ++ [ms]) (backend_weights si) (workloads si)
    (rps_history si) (unassigned_workload si) (session_subscribers si)
    (backup_backends si) (has_static_workload si).

(** Modelled from the spec: [SessionInfo::SubscribeModelSession] records the
    frontend in [session_subscribers] under the session id. *)
Definition SubscribeModelSession (frontend_id : N) (id : string)
    (si : SessionInfo) : SessionInfo :=
  mkSessionInfo (model_sessions si) (backend_weights si) (workloads si)
    (rps_history si) (unassigned_workload si)
    (<[id := {[frontend_id]} ∪ default ∅ (session_subscribers si !! id)]>
       (session_subscribers si))
    (backup_backends si) (has_static_workload si).

Record LoadModelRequest := mkLoadModelRequest {
  lm_node_id : N;
  lm_model_session : ModelSession;
  estimate_workload : Q;
}.

Record LoadModelReply := mkLoadModelReply {
  lm_status : CtrlStatus;
  lm_model_route : option ModelRouteProto;
}.

Definition blank_reply : LoadModelReply := mkLoadModelReply CTRL_OK None.

(** [reply->mutable_model_route()]: the route message of the reply, created
    empty when the reply carries none. *)
Definition mutable_model_route (reply : LoadModelReply) : ModelRouteProto :=
  default (mkModelRouteProto "" []) (lm_model_route reply).

(** [SessionInfo::TotalThroughput] is not part of the sources either; it is
    a parameter. *)
Class SessionOps := mkSessionOps {
  TotalThroughput : SessionInfo -> Q;
}.

Section scheduler.
Context {B I : Type} `{!BackendDelegate.ops B I} `{!Externals}
        `{!SessionOps} `{!StdSort}.

(** The scheduler state. Session infos are shared objects: [session_table_]
    maps a session id to a pointer, [session_heap] the pointer to the
    object. *)
Record t := mk {
  frontends_ : gmap N FrontendDelegate;
  backends_ : list (N * B);
  session_table_ : list (string * nat);
  session_heap : gmap nat SessionInfo;
  history_len_ : nat;
}.

Definition set_backends (b : list (N * B)) (s : t) : t :=
  mk (frontends_ s) b (session_table_ s) (session_heap s) (history_len_ s).

Definition set_frontends (f : gmap N FrontendDelegate) (s : t) : t :=
  mk f (backends_ s) (session_table_ s) (session_heap s) (history_len_ s).

Definition set_heap (h : gmap nat SessionInfo) (s : t) : t :=
  mk (frontends_ s) (backends_ s) (session_table_ s) h (history_len_ s).

Definition set_session_table (tb : list (string * nat)) (s : t) : t :=
  mk (frontends_ s) (backends_ s) tb (session_heap s) (history_len_ s).

Definition GetFrontend (node_id : N) (s : t) : option FrontendDelegate :=
  frontends_ s !! node_id.

Definition GetBackend (node_id : N) (s : t) : option B :=
  assoc_find node_id (backends_ s).

(** *** Registration *)

Definition RegisterFrontend (frontend : FrontendDelegate) (s : t) : outcome t :=
  match frontends_ s !! frontend_node_id frontend with
  | Some _ => Fault CheckFailed
  | None => Ok (set_frontends (<[frontend_node_id frontend := frontend]> (frontends_ s)) s)
  end.

(** [AddBackend], which runs after a successful registration, is a
    parameter here: what happens on a duplicate id is decided before it. *)
Definition RegisterBackend (AddBackend : B -> t -> outcome t)
    (backend : B) (s : t) : outcome t :=
  match assoc_find (BackendDelegate.node_id backend) (backends_ s) with
  | Some _ => Fault CheckFailed
  | None =>
      AddBackend backend
        (set_backends (assoc_set (BackendDelegate.node_id backend) backend
                                 (backends_ s)) s)
  end.

(** *** FindBestBackend *)

(** [std::tuple<BackendDelegatePtr, InstanceInfo, double>]; the pointer is
    the key of the backend in [backends_], or null. *)
Definition ModelLoad : Type := option (N * B) * I * Q.

Definition null_load : ModelLoad := (None, BackendDelegate.default_InstanceInfo, 0%Q).

Definition near_zero (rate : Q) : bool := Qlt_bool (fabs rate) (1 # 1000).

Definition consider (model_sess : ModelSession) (request_rate : Q)
    (skips : gset N) (acc : ModelLoad * ModelLoad) (entry : N * B)
    : ModelLoad * ModelLoad :=
  let '(max_tp_load, max_occ_load) := acc in
  let backend := entry.2 in
  if decide (BackendDelegate.node_id backend ∈ skips) then acc
  else if (0 <=? BackendDelegate.workload_id backend)%Z then acc
  else if near_zero request_rate && negb (BackendDelegate.IsIdle backend) then acc
  else
    match BackendDelegate.PrepareLoadModel model_sess request_rate backend with
    | None => acc
    | Some (tmp_info, occupancy) =>
        let max_tp_load :=
          if bool_decide (max_tp_load.1.1 = None)
             || Qlt_bool (BackendDelegate.throughput max_tp_load.1.2)
                         (BackendDelegate.throughput tmp_info)
          then (Some entry, tmp_info, occupancy) else max_tp_load in
        let max_occ_load :=
          if bool_decide (max_occ_load.1.1 = None)
             || Qlt_bool max_occ_load.2 occupancy
          then (Some entry, tmp_info, occupancy) else max_occ_load in
        (max_tp_load, max_occ_load)
    end.

Definition FindBestBackend (model_sess : ModelSession) (request_rate : Q)
    (skips : gset N) (s : t) : option (N * B) * I :=
  let '(max_tp_load, max_occ_load) :=
    fold_left (consider model_sess request_rate skips) (backends_ s)
              (null_load, null_load) in
  if near_zero request_rate then
    (* for request rate = 0, return backend that provides highest throughput *)
    max_tp_load.1
  else if Qlt_bool (BackendDelegate.throughput max_tp_load.1.2) request_rate then
    (* If no backend can achieve request rate, return backend that provides
       highest throughput *)
    max_tp_load.1
  else
    (* Otherwise, return backend that has highest occupancy *)
    max_occ_load.1.

(** *** LoadModel *)

Fixpoint route_entries (weights : list (N * Q)) (backends : list (N * B))
    : outcome (list BackendRateProto) :=
  match weights with
  | [] => Ok []
  | (id, weight) :: rest =>
      match assoc_find id backends with
      | None => Fault MapKeyMissing
      | Some backend =>
          rates ← route_entries rest backends;
          Ok (mkBackendRate (BackendDelegate.GetInfo backend) weight :: rates)
      end
  end.

(** [GetModelRoute] fills the message [route] it is handed: it sets the
    session id and appends one entry for each backend weight
    ([add_backend_rate]) behind the entries the message already has. *)
Definition GetModelRoute (model_sess_id : string) (route : ModelRouteProto)
    (s : t) : outcome ModelRouteProto :=
  match assoc_find model_sess_id (session_table_ s) with
  | None => Fault MapKeyMissing
  | Some ptr =>
      match session_heap s !! ptr with
      | None => Fault NullDeref
      | Some session_info =>
          rates ← route_entries (backend_weights session_info) (backends_ s);
          Ok (mkModelRouteProto model_sess_id (backend_rate route ++ rates))
      end
  end.

(** "Find best-fit backends to serve the workload", the [while] loop. Every
    round adds the id of the chosen backend to [used], so the loop ends
    after at most one round per backend; [LoopFuel] is never returned from
    [length backends_ + 1] units of fuel ([place_terminates] below). *)
Fixpoint place (fuel : nat) (model_sess : ModelSession) (workload : Q)
    (used : gset N) (s : t) (assign_backends : list (N * I))
    : outcome (option (list (N * I))) :=
  if Qlt_bool (1 # 1000) workload then
    match fuel with
    | O => Fault LoopFuel
    | S fuel' =>
        match FindBestBackend model_sess workload used s with
        | (None, _) => Ok None
        | (Some (key, backend), inst_info) =>
            place fuel' model_sess
              (workload - BackendDelegate.throughput inst_info)%Q
              ({[BackendDelegate.node_id backend]} ∪ used) s
              (assign_backends ++ [(key, inst_info)])
        end
    end
  else Ok (Some assign_backends).

Definition find_backends (model_sess : ModelSession) (workload : Q) (s : t)
    : outcome (option (list (N * I))) :=
  if Qeq_bool workload 0 then
    match FindBestBackend model_sess workload ∅ s with
    | (None, _) => Ok None
    | (Some (key, backend), inst_info) => Ok (Some [(key, inst_info)])
    end
  else place (length (backends_ s) + 1) model_sess workload ∅ s [].

(** "Load models": commit the placement to the chosen backends and record
    their weights in the new session. *)
Fixpoint commit (assign_backends : list (N * I)) (backends : list (N * B))
    (session_info : SessionInfo) : outcome (list (N * B) * SessionInfo) :=
  match assign_backends with
  | [] => Ok (backends, session_info)
  | (key, inst_info) :: rest =>
      match assoc_find key backends with
      | None => Fault NullDeref
      | Some backend =>
          let backend :=
            BackendDelegate.UpdateModelTableRpc
              (BackendDelegate.LoadModel inst_info backend) in
          commit rest (assoc_set key backend backends)
            (set_backend_weights
               (assoc_emplace (BackendDelegate.node_id backend)
                  (BackendDelegate.GetWeight inst_info)
                  (backend_weights session_info))
               session_info)
      end
  end.

Definition lm_set_status (st : CtrlStatus) (r : LoadModelReply) : LoadModelReply :=
  mkLoadModelReply st (lm_model_route r).

Definition default_image_size (info : ModelInfo) (model_sess : ModelSession)
    : ModelSession :=
  match resizable info with
  | Some true =>
      if (image_height model_sess =? 0)%N then
        mkModelSession (framework model_sess) (model_name model_sess)
          (version model_sess) (latency_sla model_sess)
          (info_image_height info) (info_image_width info)
      else model_sess
  | _ => model_sess
  end.

Definition LoadModel (request : LoadModelRequest) (reply : LoadModelReply)
    (s : t) : outcome (LoadModelReply * t) :=
  match GetModelInfo (ModelSessionToModelID (lm_model_session request)) with
  | None => Ok (lm_set_status MODEL_NOT_FOUND reply, s)
  | Some info =>
      let model_sess := default_image_size info (lm_model_session request) in
      let model_sess_id := ModelSessionToString model_sess in
      let workload := estimate_workload request in
      match GetFrontend (lm_node_id request) s with
      | None => Ok (lm_set_status CTRL_SERVER_NOT_REGISTERED reply, s)
      | Some frontend =>
          match assoc_find model_sess_id (session_table_ s) with
          | Some ptr =>
              (* model session already loaded: rely on epoch scheduling *)
              route ← GetModelRoute model_sess_id (mutable_model_route reply) s;
              match session_heap s !! ptr with
              | None => Fault NullDeref
              | Some session_info =>
                  Ok (mkLoadModelReply CTRL_OK (Some route),
                      set_heap
                        (<[ptr := SubscribeModelSession
                                    (frontend_node_id frontend) model_sess_id
                                    session_info]> (session_heap s))
                        (set_frontends
                           (<[lm_node_id request :=
                                SubscribeModel model_sess_id frontend]>
                              (frontends_ s)) s))
              end
          | None =>
              (* Find best-fit backends to serve the workload *)
              found ← find_backends model_sess workload s;
              match found with
              | None => Ok (lm_set_status NOT_ENOUGH_BACKENDS reply, s)
              | Some assign_backends =>
                  (* Load models *)
                  res ← commit assign_backends (backends_ s) new_SessionInfo;
                  let session_info := push_model_session model_sess res.2 in
                  let ptr := fresh (dom (session_heap s)) in
                  let session_info :=
                    SubscribeModelSession (frontend_node_id frontend)
                      model_sess_id session_info in
                  let s :=
                    mk (<[lm_node_id request :=
                            SubscribeModel model_sess_id frontend]> (frontends_ s))
                       res.1
                       (assoc_emplace model_sess_id ptr (session_table_ s))
                       (<[ptr := session_info]> (session_heap s))
                       (history_len_ s) in
                  (* Fill route table in the reply *)
                  route ← GetModelRoute model_sess_id (mutable_model_route reply) s;
                  Ok (mkLoadModelReply CTRL_OK (Some route), s)
              end
          end
      end
  end.

(** *** BeaconCheck *)

(** "Aggregate model session rps". *)
Definition aggregate_rps (session_info : SessionInfo) : Q :=
  fold_left (fun rps wk => (rps + std_max 0 wk.2)%Q) (workloads session_info) 0%Q.

Definition push_rps (history_len : nat) (rps : Q) (history : list Q) : list Q :=
  let history :=
    if (0 <? length history)%nat || Qlt_bool 0 rps
    then history ++ [rps]          (* Don't push 0 in the begining *)
    else history in
  if (history_len <? length history)%nat then tail history else history.

Fixpoint beacon_aggregate (history_len : nat) (table : list (string * nat))
    (heap : gmap nat SessionInfo) : outcome (gmap nat SessionInfo) :=
  match table with
  | [] => Ok heap
  | (model_sess_id, ptr) :: rest =>
      match heap !! ptr with
      | None => Fault NullDeref
      | Some session_info =>
          let rps := aggregate_rps session_info in
          beacon_aggregate history_len rest
            (<[ptr := set_rps_history
                        (push_rps history_len rps (rps_history session_info))
                        session_info]> heap)
      end
  end.

(** The test of step 4 on one session with a full history;
    [rps_history[history_len_ - 1]] is out of range when [history_len_] is
    zero. *)
Definition out_of_band (history_len : nat) (session_info : SessionInfo)
    : outcome bool :=
  match history_len with
  | O => Fault VectorOutOfRange
  | S k =>
      match rps_history session_info !! k with
      | None => Fault VectorOutOfRange
      | Some last =>
          let estimate_rps := std_max last (1 # 10) in
          let throughput := TotalThroughput session_info in
          Ok (Qlt_bool estimate_rps (throughput * (8 # 10))
              || Qlt_bool (throughput * (11 # 10)) estimate_rps)
      end
  end.

(** "Check if need to trigger epoch schedule". *)
Fixpoint beacon_trigger (history_len : nat) (table : list (string * nat))
    (heap : gmap nat SessionInfo) : outcome bool :=
  match table with
  | [] => Ok false
  | (model_sess_id, ptr) :: rest =>
      match heap !! ptr with
      | None => Fault NullDeref
      | Some session_info =>
          if (length (rps_history session_info) <? history_len)%nat
          then beacon_trigger history_len rest heap
          else
            match out_of_band history_len session_info with
            | Fault f => Fault f
            | Ok true => Ok true      (* break *)
            | Ok false => beacon_trigger history_len rest heap
            end
      end
  end.

Definition BeaconCheck (s : t) : outcome (bool * t) :=
  heap ← beacon_aggregate (history_len_ s) (session_table_ s) (session_heap s);
  trigger ← beacon_trigger (history_len_ s) (session_table_ s) heap;
  Ok (trigger, set_heap heap s).

(** *** EpochSchedule, step 1: adjust the GPU allocation *)

(** The first loop over [backend_weights]: the weight of a backend with a
    static workload is taken off [estimate_rps], the others are collected
    for adjustment. *)
Fixpoint split_static (weights : list (N * Q)) (backends : list (N * B))
    (estimate_rps : Q) (adjust_backends : list (N * Q))
    : outcome (Q * list (N * Q)) :=
  match weights with
  | [] => Ok (estimate_rps, adjust_backends)
  | (id, weight) :: rest =>
      match assoc_find id backends with
      | None => Fault MapKeyMissing
      | Some backend =>
          if (0 <=? BackendDelegate.workload_id backend)%Z
          then split_static rest backends (estimate_rps - weight)%Q adjust_backends
          else split_static rest backends estimate_rps
                 (adjust_backends ++ [(id, weight)])
      end
  end.

(** What the loops over [adjust_backends] read and write. *)
Record walk := mkWalk {
  w_estimate_rps : Q;
  w_backends : list (N * B);
  w_weights : list (N * Q);
  w_overload : list N;
}.

(** "Workload is smaller than throughput, can release some GPUs". *)
Fixpoint release (model_sess_id : string) (adjust_backends : list (N * Q))
    (w : walk) : outcome walk :=
  match adjust_backends with
  | [] => Ok w
  | (id, weight) :: rest =>
      if Qlt_bool (w_estimate_rps w) (1 # 1000) then
        match assoc_find id (w_backends w) with
        | None => Fault MapKeyMissing
        | Some backend =>
            release model_sess_id rest
              (mkWalk (w_estimate_rps w)
                 (assoc_set id (BackendDelegate.UnloadModel model_sess_id backend)
                            (w_backends w))
                 (assoc_erase id (w_weights w))
                 (w_overload w))
        end
      else if Qlt_bool (w_estimate_rps w) weight then
        match assoc_find id (w_backends w) with
        | None => Fault MapKeyMissing
        | Some backend =>
            let res :=
              BackendDelegate.UpdateModelThroughput model_sess_id
                (w_estimate_rps w) backend in
            release model_sess_id rest
              (mkWalk (w_estimate_rps w - res.2)%Q
                 (assoc_set id res.1 (w_backends w))
                 (assoc_set id
                    (BackendDelegate.GetModelWeight model_sess_id res.1)
                    (w_weights w))
                 (w_overload w))
        end
      else
        release model_sess_id rest
          (mkWalk (w_estimate_rps w - weight)%Q (w_backends w) (w_weights w)
                  (w_overload w))
  end.

(** "Workload is larger than throughput, need to allocate more gpus". *)
Fixpoint grow (model_sess_id : string) (adjust_backends : list (N * Q))
    (w : walk) : outcome walk :=
  match adjust_backends with
  | [] => Ok w
  | (id, weight) :: rest =>
      match assoc_find id (w_backends w) with
      | None => Fault MapKeyMissing
      | Some backend =>
          if Qlt_bool (w_estimate_rps w) (1 # 1000) then
            grow model_sess_id rest
              (mkWalk (w_estimate_rps w)
                 (assoc_set id (BackendDelegate.UnloadModel model_sess_id backend)
                            (w_backends w))
                 (assoc_erase id (w_weights w))
                 (w_overload w))
          else
            let res :=
              BackendDelegate.UpdateModelThroughput model_sess_id
                (w_estimate_rps w) backend in
            grow model_sess_id rest
              (mkWalk (w_estimate_rps w - res.2)%Q
                 (assoc_set id res.1 (w_backends w))
                 (assoc_set id
                    (BackendDelegate.GetModelWeight model_sess_id res.1)
                    (w_weights w))
                 (if BackendDelegate.overload res.1
                     && Qlt_bool (105 # 100) (BackendDelegate.Occupancy res.1)
                  then w_overload w ++ [id] else w_overload w))
      end
  end.

(** The state of the first loop of [EpochSchedule]. *)
Record epoch := mkEpoch {
  ep_backends : list (N * B);
  ep_heap : gmap nat SessionInfo;
  ep_visited : gset nat;
  ep_changed : gset nat;
  ep_overload : list N;
}.

(** One round of that loop, for the entry [(model_sess_id, ptr)] of
    [session_table_]. The mean and the deviation of the history only feed
    the log and are left out. *)
Definition adjust_session (history_len : nat) (model_sess_id : string)
    (ptr : nat) (e : epoch) : outcome epoch :=
  if decide (ptr ∈ ep_visited e) then Ok e
  else
    let visited := {[ptr]} ∪ ep_visited e in
    match ep_heap e !! ptr with
    | None => Fault NullDeref
    | Some session_info =>
        let throughput := TotalThroughput session_info in
        if (length (rps_history session_info) <? history_len)%nat then
          Ok (mkEpoch (ep_backends e) (ep_heap e) visited (ep_changed e)
                      (ep_overload e))
        else
          match last (rps_history session_info) with
          | None => Fault VectorOutOfRange
          | Some last_rps =>
              let estimate_rps := std_max last_rps (1 # 10) in
              let session_info :=
                set_unassigned_workload
                  (std_max 0 (estimate_rps - throughput)) session_info in
              if Qlt_bool estimate_rps (throughput * (97 # 100)) then
                sp ← split_static (backend_weights session_info)
                       (ep_backends e) estimate_rps [];
                w ← release model_sess_id (std_sort sp.2)
                      (mkWalk sp.1 (ep_backends e)
                              (backend_weights session_info) (ep_overload e));
                Ok (mkEpoch (w_backends w)
                      (<[ptr := set_backend_weights (w_weights w) session_info]>
                         (ep_heap e))
                      visited ({[ptr]} ∪ ep_changed e) (w_overload w))
              else if Qlt_bool throughput estimate_rps then
                sp ← split_static (backend_weights session_info)
                       (ep_backends e) estimate_rps [];
                w ← grow model_sess_id (std_sort sp.2)
                      (mkWalk sp.1 (ep_backends e)
                              (backend_weights session_info) (ep_overload e));
                let unassigned :=
                  if Qlt_bool (1 # 1000) (w_estimate_rps w)
                  then w_estimate_rps w else 0%Q in
                Ok (mkEpoch (w_backends w)
                      (<[ptr := set_unassigned_workload unassigned
                                  (set_backend_weights (w_weights w) session_info)]>
                         (ep_heap e))
                      visited ({[ptr]} ∪ ep_changed e) (w_overload w))
              else
                Ok (mkEpoch (ep_backends e)
                      (<[ptr := session_info]> (ep_heap e))
                      visited (ep_changed e) (ep_overload e))
          end
    end.

Fixpoint adjust_sessions (history_len : nat) (table : list (string * nat))
    (e : epoch) : outcome epoch :=
  match table with
  | [] => Ok e
  | (model_sess_id, ptr) :: rest =>
      e' ← adjust_session history_len model_sess_id ptr e;
      adjust_sessions history_len rest e'
  end.

(** Step 1 of [EpochSchedule]. Steps 2 to 5 (spilling overloaded backends,
    [AllocateUnassignedWorkloads], the table and route updates) run on the
    state this returns. *)
Definition EpochSchedule_adjust (s : t) : outcome epoch :=
  adjust_sessions (history_len_ s) (session_table_ s)
    (mkEpoch (backends_ s) (session_heap s) ∅ ∅ []).

(** *** Vocabulary of the statements *)

Local Open Scope Q_scope.

(** What the specification calls a candidate: a registered backend that is
    not pinned to a static workload, is not skipped, is idle when the
    requested rate is (nearly) zero, and on which [PrepareLoadModel]
    succeeds with instance [inst] and occupancy [occ]. *)
Definition candidate (s : t) (model_sess : ModelSession) (request_rate : Q)
    (skips : gset N) (entry : N * B) (inst : I) (occ : Q) : Prop :=
  entry ∈ backends_ s /\
  (BackendDelegate.node_id (entry.2) ∉ skips) /\
  (BackendDelegate.workload_id (entry.2) < 0)%Z /\
  (near_zero request_rate = true -> BackendDelegate.IsIdle (entry.2) = true) /\
  BackendDelegate.PrepareLoadModel model_sess request_rate (entry.2) = Some (inst, occ).

(** The requested rate is about zero: within [1e-3] of it. *)
Definition about_zero (request_rate : Q) : Prop :=
  - (1 # 1000) < request_rate /\ request_rate < 1 # 1000.

(** The backends [FindBestBackend] chooses among, in the words of the
    specification: a registered backend with [workload_id < 0] that is not
    in the skip set and, when the requested rate is about zero, is idle, on
    which [PrepareLoadModel] succeeds with instance [inst] and occupancy
    [occ]. *)
Definition eligible (s : t) (model_sess : ModelSession) (request_rate : Q)
    (skips : gset N) (entry : N * B) (inst : I) (occ : Q) : Prop :=
  entry ∈ backends_ s /\
  (BackendDelegate.workload_id (entry.2) < 0)%Z /\
  (BackendDelegate.node_id (entry.2) ∉ skips) /\
  (about_zero request_rate -> BackendDelegate.IsIdle (entry.2) = true) /\
  BackendDelegate.PrepareLoadModel model_sess request_rate (entry.2) = Some (inst, occ).

(** The filters of the loop body and [PrepareLoadModel], on one entry. *)
Definition prepared (model_sess : ModelSession) (rate : Q) (skips : gset N)
    (entry : N * B) : option (I * Q) :=
  if decide (BackendDelegate.node_id (entry.2) ∈ skips) then None
  else if (0 <=? BackendDelegate.workload_id (entry.2))%Z then None
  else if near_zero rate && negb (BackendDelegate.IsIdle (entry.2)) then None
  else BackendDelegate.PrepareLoadModel model_sess rate (entry.2).

(** [ml] is a best load among the entries [seen], for the score [score]. *)
Definition best_by (score : I -> Q -> Q) (model_sess : ModelSession) (rate : Q)
    (skips : gset N) (seen : list (N * B)) (ml : ModelLoad) : Prop :=
  match ml.1.1 with
  | None =>
      forall e, e ∈ seen -> prepared model_sess rate skips e = None
  | Some e =>
      e ∈ seen /\ prepared model_sess rate skips e = Some (ml.1.2, ml.2) /\
      forall e' i o, e' ∈ seen ->
        prepared model_sess rate skips e' = Some (i, o) ->
        score i o <= score ml.1.2 ml.2
  end.

Definition by_throughput (i : I) (o : Q) : Q := BackendDelegate.throughput i.
Definition by_occupancy (i : I) (o : Q) : Q := o.

(** The backends [FindBestBackend] may still choose. *)
Definition unused (used : gset N) (s : t) : nat :=
  length (filter (fun e : N * B => BackendDelegate.node_id (e.2) ∉ used)
                 (backends_ s)).



(** One beacon tick on one session info: the aggregated rate is pushed on
    its history. *)
Definition tick (history_len : nat) (si : SessionInfo) : SessionInfo :=
  set_rps_history (push_rps history_len (aggregate_rps si) (rps_history si)) si.

(** How often the session table refers to the session info at [ptr]. *)
Definition references (ptr : nat) (table : list (string * nat)) : nat :=
  length (filter (fun e : string * nat => e.2 = ptr) table).





(** A backend weight entry is adjustable when its backend carries no static
    workload ([workload_id < 0]). *)
Definition adjustable (backends : list (N * B)) (entry : N * Q) : bool :=
  match assoc_find entry.1 backends with
  | Some backend => (BackendDelegate.workload_id backend <? 0)%Z
  | None => false
  end.

(** What is left of the estimate once the weights of the statically loaded
    backends are taken off. *)
Definition without_static (backends : list (N * B)) (weights : list (N * Q))
    (estimate_rps : Q) : Q :=
  fold_left (fun est (entry : N * Q) =>
               if adjustable backends entry then est else est - entry.2)
            weights estimate_rps.

Definition all_registered (backends : list (N * B)) (weights : list (N * Q)) : Prop :=
  forall entry, entry ∈ weights -> is_Some (assoc_find entry.1 backends).


End scheduler.
End Scheduler.

(* ===================================================================== *)
(** ** The dispatcher, continued: loading a model *)
(* ===================================================================== *)

Module DispatcherExt.
Import Dispatcher.

Section with_env.
Context `{!Externals}.

(** The adaptor of [HandleLoadModel] "to the old API": a route that lists
    every registered backend at throughput 1. *)
Definition uniform_route (model_sess_id : string)
    (backends : gmap N BackendDelegate) : ModelRouteProto :=
  mkModelRouteProto model_sess_id
    ((fun kv => mkBackendRate (backend_info kv.2) 1) <$> map_to_list backends).

(** "Ask backends to load the model": one round of the loop over
    [backends_]. The delegates are shared with [backends_], the new session
    context with [sessions_]. *)
Definition load_on_backend (model_session : ModelSession) (model_sess_id : string)
    (acc : CtrlStatus * gmap N BackendDelegate * ModelSessionContext)
    (entry : N * BackendDelegate)
    : CtrlStatus * gmap N BackendDelegate * ModelSessionContext :=
  let '(status, backends, sctx) := acc in
  let backend := entry.2 in
  match GetModelProfile (gpu_device_name (backend_info backend))
                        (gpu_uuid (backend_info backend))
                        (ModelSessionToProfileID model_session) with
  | None => (CTRL_INVALID_LOAD_MODEL_REQUEST, backends, sctx)
  | Some profile =>
      let inst := new_InstanceInfo model_session
                    (node_id (backend_info backend)) profile in
      let backend :=
        SendLoadModelCommand model_session (max_batch inst)
          (AddInstanceInfo model_sess_id inst backend) in
      (status, <[entry.1 := backend]> backends,
       ctx_AddInstanceInfo (node_id (backend_info backend)) inst sctx)
  end.

(** [Dispatcher::HandleLoadModel]; every path sets the status of the reply. *)
Definition HandleLoadModel (model_session : ModelSession) (d : t)
    : outcome (CtrlStatus * t) :=
  match GetModelInfo (ModelSessionToModelID model_session) with
  | None => Ok (MODEL_NOT_FOUND, d)
  | Some _ =>
      let model_sess_id := ModelSessionToString model_session in
      match sessions_ d !! model_sess_id with
      | Some _ =>
          (* Model already loaded. Just skip. *)
          Ok (CTRL_OK, d)
      | None =>
          (* Update DRR *)
          match models_ d !! model_sess_id with
          | Some _ => Fault CheckFailed
          | None =>
              route ← ModelRoute.Update (uniform_route model_sess_id (backends_ d))
                                        ModelRoute.init;
              (* Add the model session; ask backends to load the model *)
              let '(status, backends, sctx) :=
                fold_left (load_on_backend model_session model_sess_id)
                          (map_to_list (backends_ d))
                          (CTRL_OK, backends_ d,
                           mkSessionContext model_session ∅) in
              Ok (status,
                  mk (frontends_ d) backends
                     (<[model_sess_id := sctx]> (sessions_ d))
                     (<[model_sess_id := route]> (models_ d))
                     (next_global_id_ d) (next_plan_id_ d)
                     (beacon_interval_sec_ d))
          end
      end
  end.

(** [Dispatcher::HandleUnregister]: not implemented, answers [CTRL_OK]. *)
Definition HandleUnregister (d : t) : CtrlStatus * t := (CTRL_OK, d).

(** *** Vocabulary of the statements *)

(** Every delegate is stored under the node id of its own info, as
    [HandleRegister] stores it. *)
Definition keyed_by_id (d : t) : Prop :=
  forall id backend, backends_ d !! id = Some backend ->
    node_id (backend_info backend) = id.

(** Every route table of the dispatcher satisfies the representation
    invariant of [ModelRoute]. *)
Definition routes_valid (d : t) : Prop :=
  forall id route, models_ d !! id = Some route -> ModelRoute.route_ok route.

(** Every loaded session has a route table. *)
Definition sessions_routed (d : t) : Prop :=
  forall id, is_Some (sessions_ d !! id) -> is_Some (models_ d !! id).

(** The dispatcher can serve the session: its route is well formed and
    lists at least one backend, all at positive rates, and every listed
    backend has a delegate that holds an instance of the session. *)
Definition serves (d : t) (model_sess_id : string) : Prop :=
  exists route,
    models_ d !! model_sess_id = Some route /\
    ModelRoute.route_ok route /\ ModelRoute.quanta_nonneg route /\
    ModelRoute.backends_ route ≠ [] /\
    ModelRoute.rates_positive (ModelRoute.backends_ route) /\
    forall b, b ∈ ModelRoute.backends_ route ->
      exists backend inst,
        backends_ d !! ModelRoute.backend_id b = Some backend /\
        GetInstanceInfo model_sess_id backend = Some inst.

(** The last route a request carries for a session id. *)
Fixpoint last_route (id : string) (routes : list ModelRouteProto)
    : option ModelRouteProto :=
  match routes with
  | [] => None
  | route :: rest =>
      match last_route id rest with
      | Some r => Some r
      | None => if decide (model_session_id route = id) then Some route else None
      end
  end.


(** What [load_on_backend] makes of a delegate. *)
Definition loaded_delegate (model_session : ModelSession) (backend : BackendDelegate)
    : BackendDelegate :=
  match GetModelProfile (gpu_device_name (backend_info backend))
                        (gpu_uuid (backend_info backend))
                        (ModelSessionToProfileID model_session) with
  | None => backend
  | Some profile =>
      let inst := new_InstanceInfo model_session
                    (node_id (backend_info backend)) profile in
      SendLoadModelCommand model_session (max_batch inst)
        (AddInstanceInfo (ModelSessionToString model_session) inst backend)
  end.

Definition has_profile (model_session : ModelSession) (backend : BackendDelegate)
    : Prop :=
  is_Some (GetModelProfile (gpu_device_name (backend_info backend))
                           (gpu_uuid (backend_info backend))
                           (ModelSessionToProfileID model_session)).

(** The invariant of the dispatcher's tables. *)
Definition invariant (d : t) : Prop :=
  keyed_by_id d /\ routes_valid d /\ sessions_routed d.

(** The delegate [HandleRegister] creates for a backend. *)
Definition new_backend (ip : string) (request : RegisterRequest) : BackendInfo :=
  mkBackendInfo (req_node_id request) ip (req_server_port request)
    (req_rpc_port request) (req_gpu_device_name request)
    (req_gpu_uuid request) (req_gpu_available_memory request).


(** One request handled to its end: the transitions of the dispatcher. *)
Inductive step : t -> t -> Prop :=
| step_dispatch sched_now now dispatch_now q reply reply' d d' :
    DispatchRequest sched_now now dispatch_now q reply d = Ok (reply', d') ->
    step d d'
| step_routes request status d d' :
    UpdateModelRoutes request d = Ok (status, d') -> step d d'
| step_register peer request reply reply' d d' :
    HandleRegister peer request reply d = Ok (reply', d') -> step d d'
| step_unregister d :
    step d (HandleUnregister d).2
| step_load model_session status d d' :
    HandleLoadModel model_session d = Ok (status, d') -> step d d'.

(** A dispatcher as its constructor leaves it: the four tables are empty.
    Nothing is assumed of the id counters, which the constructor does not
    set. *)
Definition constructed (d : t) : Prop :=
  frontends_ d = ∅ /\ backends_ d = ∅ /\ sessions_ d = ∅ /\ models_ d = ∅.

(** The states a dispatcher can be in. *)
Definition reachable (d : t) : Prop :=
  exists d0, constructed d0 /\ rtc step d0 d.

End with_env.
End DispatcherExt.

(** The deficit bound of the round robin: no listed backend holds a quantum
    of its rate plus [min_rate_] or more. *)
Definition quanta_bounded (r : ModelRoute.t) : Prop :=
  forall b q, b ∈ ModelRoute.backends_ r ->
    ModelRoute.backend_quanta_ r !! ModelRoute.backend_id b = Some q ->
    (q < throughput b + ModelRoute.min_rate_ r)%Q.

Definition distinct_ids (bs : list BackendRateProto) : Prop :=
  NoDup (ModelRoute.backend_id <$> bs).

(* ===================================================================== *)
(** ** The scheduler, continued: vocabulary *)
(* ===================================================================== *)

Module SchedulerExt.
Import Scheduler.

Section scheduler.
Context {B I : Type} `{!BackendDelegate.ops B I} `{!Externals}
        `{!SessionOps} `{!StdSort}.

Local Open Scope Q_scope.

(** [backends_] is keyed by the node id of the delegate, as
    [RegisterBackend] stores it. *)
Definition keyed (backends : list (N * B)) : Prop :=
  forall e, e ∈ backends -> BackendDelegate.node_id e.2 = e.1.

(** The throughput a placement has covered. *)
Fixpoint placed_throughput (assign : list (N * I)) : Q :=
  match assign with
  | [] => 0
  | a :: rest => BackendDelegate.throughput a.2 + placed_throughput rest
  end.

(** The entries of [session_table_] at which the first loop of
    [EpochSchedule] meets a session info for the first time. *)
Fixpoint first_visits (visited : gset nat) (table : list (string * nat))
    : list (string * nat) :=
  match table with
  | [] => []
  | (model_sess_id, ptr) :: rest =>
      if decide (ptr ∈ visited) then first_visits visited rest
      else (model_sess_id, ptr) :: first_visits ({[ptr]} ∪ visited) rest
  end.

(** The load [ml] was taken at the first of the entries [seen] that reach
    its score: every prepared entry before it scores strictly less. *)
Definition first_best (score : I -> Q -> Q) (model_sess : ModelSession) (rate : Q)
    (skips : gset N) (seen : list (N * B)) (ml : ModelLoad) : Prop :=
  match ml.1.1 with
  | None => True
  | Some e =>
      exists pre post, seen = pre ++ e :: post /\
        forall e' i o, e' ∈ pre ->
          prepared model_sess rate skips e' = Some (i, o) ->
          score i o < score ml.1.2 ml.2
  end.

(** The route entry of a backend weight: the info of the backend the
    weight is for, with the weight as its rate. *)
Definition entry_of (backends : list (N * B)) (weight : N * Q)
    (entry : BackendRateProto) : Prop :=
  exists backend,
    assoc_find weight.1 backends = Some backend /\
    info entry = BackendDelegate.GetInfo backend /\
    throughput entry = weight.2.

(** The ways [LoadModel] can return. *)
Inductive loaded (request : LoadModelRequest) (reply : LoadModelReply) (s : t)
    : LoadModelReply * t -> Prop :=
| load_unknown_model :
    GetModelInfo (ModelSessionToModelID (lm_model_session request)) = None ->
    loaded request reply s (lm_set_status MODEL_NOT_FOUND reply, s)
| load_unknown_frontend info :
    GetModelInfo (ModelSessionToModelID (lm_model_session request)) = Some info ->
    frontends_ s !! lm_node_id request = None ->
    loaded request reply s (lm_set_status CTRL_SERVER_NOT_REGISTERED reply, s)
| load_no_backends info frontend :
    GetModelInfo (ModelSessionToModelID (lm_model_session request)) = Some info ->
    frontends_ s !! lm_node_id request = Some frontend ->
    loaded request reply s (lm_set_status NOT_ENOUGH_BACKENDS reply, s)
| load_subscribed info frontend ptr si route :
    let model_sess_id :=
      ModelSessionToString (default_image_size info (lm_model_session request)) in
    GetModelInfo (ModelSessionToModelID (lm_model_session request)) = Some info ->
    frontends_ s !! lm_node_id request = Some frontend ->
    assoc_find model_sess_id (session_table_ s) = Some ptr ->
    session_heap s !! ptr = Some si ->
    GetModelRoute model_sess_id (mutable_model_route reply) s = Ok route ->
    loaded request reply s
      (mkLoadModelReply CTRL_OK (Some route),
       set_heap
         (<[ptr := SubscribeModelSession (frontend_node_id frontend)
                     model_sess_id si]> (session_heap s))
         (set_frontends
            (<[lm_node_id request := SubscribeModel model_sess_id frontend]>
               (frontends_ s)) s))
| load_placed info frontend assign res route :
    let model_sess := default_image_size info (lm_model_session request) in
    let model_sess_id := ModelSessionToString model_sess in
    let ptr := fresh (dom (session_heap s)) in
    let s' :=
      mk (<[lm_node_id request := SubscribeModel model_sess_id frontend]>
            (frontends_ s))
         res.1
         (assoc_emplace model_sess_id ptr (session_table_ s))
         (<[ptr := SubscribeModelSession (frontend_node_id frontend)
                     model_sess_id (push_model_session model_sess res.2)]>
            (session_heap s))
         (history_len_ s) in
    GetModelInfo (ModelSessionToModelID (lm_model_session request)) = Some info ->
    frontends_ s !! lm_node_id request = Some frontend ->
    assoc_find model_sess_id (session_table_ s) = None ->
    find_backends model_sess (estimate_workload request) s = Ok (Some assign) ->
    commit assign (backends_ s) new_SessionInfo = Ok res ->
    GetModelRoute model_sess_id (mutable_model_route reply) s' = Ok route ->
    loaded request reply s (mkLoadModelReply CTRL_OK (Some route), s').

End scheduler.
End SchedulerExt.

(* ===================================================================== *)
(** ** The delayed scheduler: pending queries *)
(* ===================================================================== *)

(** [std::push_heap] on a vector of query contexts with the comparator
    [OrderQueryContextByDeadlineASC]: the library code is not part of the
    sources, the operation is a parameter. *)
Module DelayedScheduler.

Record QueryContext := mkQueryContext {
  proto : Dispatcher.QueryProto;
  qc_global_id : N;
  deadline : Z;            (* nanoseconds since the epoch *)
}.

(** The constructor: [global_id(proto.global_id())]. *)
Definition new_QueryContext (query_without_input : Dispatcher.QueryProto)
    (deadline : Z) : QueryContext :=
  mkQueryContext query_without_input
    (Dispatcher.global_id query_without_input) deadline.

Record ModelSessionContext := mkModelSessionContext {
  model_session : ModelSession;
  string_id : string;
  instances : gmap N Dispatcher.InstanceInfo;
  (* ORDER BY deadline ASC *)
  sorted_queries : list QueryContext;
}.

Definition set_sorted_queries (queries : list QueryContext)
    (mctx : ModelSessionContext) : ModelSessionContext :=
  mkModelSessionContext (model_session mctx) (string_id mctx) (instances mctx)
    queries.

(** The tables [EnqueueQuery] reads and writes; it does not touch
    [backends_]. *)
Record t := mk {
  models_ : gmap string ModelSessionContext;
  queries_ : gmap N QueryContext;
}.

Definition OrderQueryContextByDeadlineASC (lhs rhs : QueryContext) : bool :=
  (deadline rhs <? deadline lhs)%Z.

Class StdPushHeap := mkStdPushHeap {
  push_heap : list QueryContext -> list QueryContext;
}.

Section with_env.
Context `{!Externals} `{!StdPushHeap}.

(** [DelayedScheduler::EnqueueQuery]. [WorkFullSchedule], which it posts
    to the worker thread, has an empty body. *)
Definition EnqueueQuery (query_without_input : Dispatcher.QueryProto) (d : t)
    : outcome t :=
  let model_session :=
    ParseModelSession (Dispatcher.query_model_session_id query_without_input) in
  let deadline :=
    wrap64 (Dispatcher.frontend_recv_ns (Dispatcher.clock query_without_input)
            + Z.of_N (latency_sla model_session) * 1000) in
  let qctx := new_QueryContext query_without_input deadline in
  (* Add to pending queries *)
  match queries_ d !! qc_global_id qctx with
  | Some _ => Ok d            (* Query already exists. *)
  | None =>
      let queries := <[qc_global_id qctx := qctx]> (queries_ d) in
      match models_ d !! Dispatcher.query_model_session_id (proto qctx) with
      | None => Fault MapKeyMissing
      | Some mctx =>
          let mctx :=
            set_sorted_queries (push_heap (sorted_queries mctx ++ [qctx])) mctx in
          Ok (mk (<[Dispatcher.query_model_session_id (proto qctx) := mctx]>
                    (models_ d))
                 queries)
      end
  end.

End with_env.

(** *** Vocabulary of the statements *)

(** A vector is a heap for [OrderQueryContextByDeadlineASC]: no element is
    ordered before the one at its parent position [(i - 1) / 2]. *)
Definition is_heap (l : list QueryContext) : Prop :=
  forall i parent child, (0 < i)%nat ->
    l !! ((i - 1) / 2)%nat = Some parent -> l !! i = Some child ->
    OrderQueryContextByDeadlineASC parent child = false.

(** What the C++ standard guarantees of [std::push_heap]: if all but the
    last element form a heap, the result is a heap of the same elements. *)
Definition pushes_heap (push : list QueryContext -> list QueryContext) : Prop :=
  forall l x, is_heap l ->
    push (l ++ [x]) ≡ₚ l ++ [x] /\ is_heap (push (l ++ [x])).

(** Every queue of the scheduler is a heap. *)
Definition queues_are_heaps (d : t) : Prop :=
  forall id mctx, models_ d !! id = Some mctx -> is_heap (sorted_queries mctx).

(** Every queued query context is pending under its own global id. *)
Definition queues_indexed (d : t) : Prop :=
  forall id mctx x, models_ d !! id = Some mctx -> x ∈ sorted_queries mctx ->
    queries_ d !! qc_global_id x = Some x.

End DelayedScheduler.

(* ===================================================================== *)
(** ** Sample data *)
(* ===================================================================== *)

Module Samples.

Definition backend (n : N) : BackendInfo :=
  mkBackendInfo n "10.0.0.1" "8001" "8002" "TITAN_X" "GPU-0" 1024.

(** The route of the fairness scenario: B1 at rate 2, B2 at rate 1. *)
Definition rate21 : ModelRouteProto :=
  mkModelRouteProto "tf:resnet:1:100"
    [mkBackendRate (backend 1) 2; mkBackendRate (backend 2) 1].

Definition rate_single : ModelRouteProto :=
  mkModelRouteProto "tf:resnet:1:100" [mkBackendRate (backend 7) 5].

Definition rate_empty : ModelRouteProto :=
  mkModelRouteProto "tf:resnet:1:100" [].

(** The table after [Update rate21] on a fresh route. *)
Definition table21 : ModelRoute.t :=
  ModelRoute.mk "tf:resnet:1:100" (backend_rate rate21) 3 1
    (<[1%N := 2%Q]> (<[2%N := 1%Q]> ∅)) 0.

(** The same table after one call of [GetBackend]: B1 has spent one
    [min_rate_] of its quantum. *)
Definition table21_spent : ModelRoute.t :=
  ModelRoute.mk "tf:resnet:1:100" (backend_rate rate21) 3 1
    (<[1%N := 1%Q]> (<[2%N := 1%Q]> ∅)) 0.

(** The table after two calls: B1 has used up its quantum and is due for
    a refill. *)
Definition table21_due : ModelRoute.t :=
  ModelRoute.mk "tf:resnet:1:100" (backend_rate rate21) 3 1
    (<[1%N := 0%Q]> (<[2%N := 1%Q]> ∅)) 0.

(** The table after the third call: B1 was refilled to its rate, the index
    moved on to B2, and B2 spent its quantum. *)
Definition table21_refilled : ModelRoute.t :=
  ModelRoute.mk "tf:resnet:1:100" (backend_rate rate21) 3 1
    (<[1%N := 2%Q]> (<[2%N := 0%Q]> ∅)) 1.

Definition table_single : ModelRoute.t :=
  ModelRoute.mk "tf:resnet:1:100" (backend_rate rate_single) 5 5
    (<[7%N := 5%Q]> ∅) 0.

(** A dispatcher environment: every session id parses to a ResNet session
    with a 100 ms budget; every profile has the same latency curve. *)
Definition session : ModelSession :=
  mkModelSession "tf" "resnet" 1 100000 0 0.

Definition resnet_profile : ModelProfile :=
  mkModelProfile (fun batch => (1500 + 250 * inject_Z (Z.of_N batch))%Q)
                 (fun sla => (sla / 2000)%N).

#[export] Instance env : Externals :=
  mkExternals (fun _ => session) (fun _ => "tf:resnet:1:100")
    (fun _ => "tf:resnet:1") (fun _ => "tf:resnet")
    (fun _ _ _ => Some resnet_profile)
    (fun _ => Some (mkModelInfo None 224 224)) 1.

Definition delegate (n : N) : Dispatcher.BackendDelegate :=
  Dispatcher.mkBackendDelegate (backend n)
    (<["tf:resnet:1:100" := Dispatcher.new_InstanceInfo session n resnet_profile]> ∅)
    [].

(** A dispatcher serving the sample session on B1 and B2. *)
Definition serving : Dispatcher.t :=
  Dispatcher.mk ∅ (<[1%N := delegate 1]> (<[2%N := delegate 2]> ∅)) ∅
    (<["tf:resnet:1:100" := table21]> ∅) 40 7 1.

(** The same dispatcher after the route of the session was updated to the
    empty backend list. *)
Definition drained : Dispatcher.t :=
  Dispatcher.mk ∅ (<[1%N := delegate 1]> (<[2%N := delegate 2]> ∅)) ∅
    (<["tf:resnet:1:100" :=
         ModelRoute.mk "tf:resnet:1:100" [] 0 DBL_MAX ∅ 0]> ∅) 40 7 1.

Definition query : Dispatcher.QueryProto :=
  Dispatcher.mkQuery 11 "tf:resnet:1:100" 0
    (Dispatcher.mkClock 1700000000000000000 1700000000000100000 0 0).

Definition blank_reply : Dispatcher.DispatchReply :=
  Dispatcher.mkDispatchReply "tf:resnet:1:100" 11 CTRL_OK.

(** The three clock readings of one dispatch. *)
Definition t_sched : Z := 1700000000000150000.
Definition t_now : Z := 1700000000000200000.
Definition t_dispatch : Z := 1700000000000250000.

(** The plan the dispatcher builds for [query] on [serving]. *)
Definition sample_plan : Dispatcher.BatchPlanProto :=
  Dispatcher.build_plan 7 t_now t_dispatch
    (Dispatcher.new_InstanceInfo session 1 resnet_profile)
    (Dispatcher.set_global_id 40 (Dispatcher.set_sched_ns t_sched query)).

Definition served : Dispatcher.DispatchReply * Dispatcher.t :=
  (blank_reply,
   Dispatcher.mk ∅
     (<[1%N := Dispatcher.EnqueueBatchPlan sample_plan (delegate 1)]>
        (<[2%N := delegate 2]> ∅))
     ∅ (<["tf:resnet:1:100" := table21_spent]> ∅) 41 8 1).

(** *** A small backend model for the scheduler *)

(** A backend with a capacity in requests per second and the throughput it
    has granted to each loaded session. *)
Record SimBackend := mkSim {
  sim_id : N;
  sim_workload_id : Z;
  sim_capacity : Q;
  sim_models : list (string * Q);
  sim_tables_sent : nat;
}.

Record SimInstance := mkSimInstance {
  sim_session : string;
  sim_throughput : Q;
}.

Definition sim_load (b : SimBackend) : Q :=
  fold_left (fun acc m => (acc + m.2)%Q) (sim_models b) 0%Q.

Definition sim_prepare (ms : ModelSession) (rate : Q) (b : SimBackend)
    : option (SimInstance * Q) :=
  let free := (sim_capacity b - sim_load b)%Q in
  if Qlt_bool 0 free then
    let tp := if Qlt_bool rate (1 # 1000) then free else std_min rate free in
    Some (mkSimInstance (model_name ms) tp,
          ((sim_load b + tp) / sim_capacity b)%Q)
  else None.

#[export] Instance sim_ops : BackendDelegate.ops SimBackend SimInstance := {|
  BackendDelegate.node_id := sim_id;
  BackendDelegate.workload_id := sim_workload_id;
  BackendDelegate.IsIdle b := bool_decide (sim_models b = []);
  BackendDelegate.overload b := Qlt_bool (sim_capacity b) (sim_load b);
  BackendDelegate.Occupancy b := (sim_load b / sim_capacity b)%Q;
  BackendDelegate.GetInfo b := backend (sim_id b);
  BackendDelegate.GetModelWeight id b := default 0%Q (assoc_find id (sim_models b));
  BackendDelegate.PrepareLoadModel := sim_prepare;
  BackendDelegate.LoadModel inst b :=
    mkSim (sim_id b) (sim_workload_id b) (sim_capacity b)
      (sim_models b ++ [(sim_session inst, sim_throughput inst)])
      (sim_tables_sent b);
  BackendDelegate.UnloadModel id b :=
    mkSim (sim_id b) (sim_workload_id b) (sim_capacity b)
      (assoc_erase id (sim_models b)) (sim_tables_sent b);
  BackendDelegate.UpdateModelThroughput id rate b :=
    (mkSim (sim_id b) (sim_workload_id b) (sim_capacity b)
       (assoc_set id rate (sim_models b)) (sim_tables_sent b), rate);
  BackendDelegate.UpdateModelTableRpc b :=
    mkSim (sim_id b) (sim_workload_id b) (sim_capacity b) (sim_models b)
      (S (sim_tables_sent b));
  BackendDelegate.throughput := sim_throughput;
  BackendDelegate.GetWeight := sim_throughput;
  BackendDelegate.default_InstanceInfo := mkSimInstance "" 0;
|}.

(** Modelled from the spec: the total throughput of a session is the sum
    of the weights of its backends. *)
#[export] Instance sum_of_weights : Scheduler.SessionOps :=
  Scheduler.mkSessionOps
    (fun si => fold_left (fun acc w => (acc + w.2)%Q)
                 (Scheduler.backend_weights si) 0%Q).

Definition weight_geb (a b : N * Q) : bool := Qle_bool b.2 a.2.

(** Insertion sort by weight, descending: one of the orders [std::sort]
    may produce. *)
Fixpoint insert_by_weight (x : N * Q) (l : list (N * Q)) : list (N * Q) :=
  match l with
  | [] => [x]
  | y :: l' => if weight_geb x y then x :: l else y :: insert_by_weight x l'
  end.

Definition sort_by_weight (l : list (N * Q)) : list (N * Q) :=
  fold_right insert_by_weight [] l.

#[export] Instance insertion_sort : StdSort := mkStdSort sort_by_weight.

(** One frontend, two backends of 100 rps each; the session "resnet" is
    loaded on both at 60 and 40 rps and its frontend has reported 30 rps for
    three ticks. *)
Definition frontend1 : Scheduler.FrontendDelegate :=
  Scheduler.mkFrontend 1 ∅.

Definition resnet_info : Scheduler.SessionInfo :=
  Scheduler.mkSessionInfo [session] [(1%N, 60%Q); (2%N, 40%Q)] [(1%N, 30%Q)]
    [30%Q; 30%Q; 30%Q] 0 ∅ ∅ false.

Definition cluster : @Scheduler.t SimBackend :=
  Scheduler.mk (<[1%N := frontend1]> ∅)
    [(1%N, mkSim 1 (-1) 100 [("resnet", 60%Q)] 0);
     (2%N, mkSim 2 (-1) 100 [("resnet", 40%Q)] 0)]
    [("resnet", 0%nat)] (<[0%nat := resnet_info]> ∅) 3.

(** The sample cluster with two more backends, both idle: B4 of 80 rps and
    B3 of 100 rps. *)
Definition cluster_idle : @Scheduler.t SimBackend :=
  Scheduler.mk (<[1%N := frontend1]> ∅)
    [(1%N, mkSim 1 (-1) 100 [("resnet", 60%Q)] 0);
     (2%N, mkSim 2 (-1) 100 [("resnet", 40%Q)] 0);
     (4%N, mkSim 4 (-1) 80 [] 0);
     (3%N, mkSim 3 (-1) 100 [] 0)]
    [("resnet", 0%nat)] (<[0%nat := resnet_info]> ∅) 3.

(** The sample cluster with B2 listed before B1. *)
Definition cluster_rev : @Scheduler.t SimBackend :=
  Scheduler.mk (<[1%N := frontend1]> ∅)
    [(2%N, mkSim 2 (-1) 100 [("resnet", 40%Q)] 0);
     (1%N, mkSim 1 (-1) 100 [("resnet", 60%Q)] 0)]
    [("resnet", 0%nat)] (<[0%nat := resnet_info]> ∅) 3.

(** A scheduler with a frontend and no backend at all. *)
Definition bare : @Scheduler.t SimBackend :=
  Scheduler.mk (<[1%N := frontend1]> ∅) [] [] ∅ 3.

Definition load_request : Scheduler.LoadModelRequest :=
  Scheduler.mkLoadModelRequest 1 session 50.

(** A request for 500 rps on the sample cluster: the loop places 60 rps on
    B2, then 40 rps on B1, and fails at its third step. *)
Definition big_request : Scheduler.LoadModelRequest :=
  Scheduler.mkLoadModelRequest 1 session 500.

Definition epoch0 : @Scheduler.epoch SimBackend :=
  Scheduler.mkEpoch (Scheduler.backends_ cluster) (Scheduler.session_heap cluster) ∅ ∅ [].

End Samples.

Module SamplesExt.
Import Samples.

(** The sample environment with a model database that has no profile for
    any GPU. *)
Definition env_no_profile : Externals :=
  mkExternals (fun _ => session) (fun _ => "tf:resnet:1:100")
    (fun _ => "tf:resnet:1") (fun _ => "tf:resnet")
    (fun _ _ _ => None)
    (fun _ => Some (mkModelInfo None 224 224)) 1.

(** The registration of backend 3 from 10.0.0.3. *)
Definition peer3 : list string := ["ipv4"; "10.0.0.3"; "5000"].

Definition register3 : Dispatcher.RegisterRequest :=
  Dispatcher.mkRegisterRequest Dispatcher.BACKEND_NODE 3 "8001" "8002"
    "TITAN_X" "GPU-3" 1024.

Definition blank_register : Dispatcher.RegisterReply :=
  Dispatcher.mkRegisterReply CTRL_OK 0.

Definition backend3 : BackendInfo :=
  mkBackendInfo 3 "10.0.0.3" "8001" "8002" "TITAN_X" "GPU-3" 1024.

(** A fresh dispatcher after that registration. *)
Definition registered : Dispatcher.t :=
  Dispatcher.mk ∅ (<[3%N := Dispatcher.mkBackendDelegate backend3 ∅ []]> ∅)
    ∅ ∅ 0 0 1.

(** The same dispatcher after the sample session was loaded. *)
Definition loaded : Dispatcher.t :=
  Dispatcher.mk ∅
    (<[3%N := Dispatcher.mkBackendDelegate backend3
                (<["tf:resnet:1:100" :=
                     Dispatcher.new_InstanceInfo session 3 resnet_profile]> ∅)
                [Dispatcher.LoadModelCommandRpc session 50]]> ∅)
    (<["tf:resnet:1:100" :=
         Dispatcher.mkSessionContext session
           (<[3%N := Dispatcher.new_InstanceInfo session 3 resnet_profile]> ∅)]> ∅)
    (<["tf:resnet:1:100" :=
         ModelRoute.mk "tf:resnet:1:100" [mkBackendRate backend3 1] 1 1
           (<[3%N := 1%Q]> ∅) 0]> ∅)
    0 0 1.

(** A fresh dispatcher after the sample session was loaded without any
    backend. *)
Definition loaded_empty : Dispatcher.t :=
  Dispatcher.mk ∅ ∅
    (<["tf:resnet:1:100" := Dispatcher.mkSessionContext session ∅]> ∅)
    (<["tf:resnet:1:100" :=
         ModelRoute.mk "tf:resnet:1:100" [] 0 DBL_MAX ∅ 0]> ∅)
    0 0 1.

(** [registered] after the sample session was loaded under
    [env_no_profile]. *)
Definition loaded_no_profile : Dispatcher.t :=
  Dispatcher.mk ∅ (<[3%N := Dispatcher.mkBackendDelegate backend3 ∅ []]> ∅)
    (<["tf:resnet:1:100" := Dispatcher.mkSessionContext session ∅]> ∅)
    (<["tf:resnet:1:100" :=
         ModelRoute.mk "tf:resnet:1:100" [mkBackendRate backend3 1] 1 1
           (<[3%N := 1%Q]> ∅) 0]> ∅)
    0 0 1.

(** A fresh dispatcher after the scheduler pushed the route of the
    fairness scenario. *)
Definition routed : Dispatcher.t :=
  Dispatcher.mk ∅ ∅ ∅ (<["tf:resnet:1:100" := table21]> ∅) 0 0 1.


(** The sample cluster after [load_request] was handled: the reply and the
    new state. *)
Definition after_load : Scheduler.LoadModelReply * @Scheduler.t SimBackend :=
  match Scheduler.LoadModel load_request Scheduler.blank_reply cluster with
  | Ok res => res
  | Fault _ => (Scheduler.blank_reply, cluster)
  end.

(** The same request handled once more, with the reply of the first call
    handed in again. *)
Definition after_reload : Scheduler.LoadModelReply * @Scheduler.t SimBackend :=
  match Scheduler.LoadModel load_request after_load.1 after_load.2 with
  | Ok res => res
  | Fault _ => after_load
  end.

(** The placement of [load_request] on the sample cluster: 40 rps on B1,
    the remaining 10 rps on B2. *)
Definition placement50 : list (N * SimInstance) :=
  [(1%N, mkSimInstance "resnet" 40); (2%N, mkSimInstance "resnet" 10)].

(** A request for one query in 2000 seconds: not 0, and below the [1e-3]
    of the placement loop. *)
Definition small_request : Scheduler.LoadModelRequest :=
  Scheduler.mkLoadModelRequest 1 session (1 # 2000).

(** The sample cluster of a scheduler that was started with an averaging
    interval of 0. *)
Definition cluster_no_history : @Scheduler.t SimBackend :=
  Scheduler.mk (Scheduler.frontends_ cluster) (Scheduler.backends_ cluster)
    (Scheduler.session_table_ cluster) (Scheduler.session_heap cluster) 0.

(** [epoch0] after the session "resnet" was adjusted: B1 is shrunk to the
    30 rps of the estimate, B2 is released. *)
Definition epoch1 : @Scheduler.epoch SimBackend :=
  Scheduler.mkEpoch
    [(1%N, mkSim 1 (-1) 100 [("resnet", 30%Q)] 0);
     (2%N, mkSim 2 (-1) 100 [] 0)]
    (<[0%nat := Scheduler.set_backend_weights [(1%N, 30%Q)] resnet_info]> ∅)
    {[0%nat]} {[0%nat]} [].

End SamplesExt.

Module DelayedSamples.
Import Samples DelayedScheduler.

Definition earlier (a b : QueryContext) : Prop := (deadline a <= deadline b)%Z.

(** Sorting by deadline: one of the arrangements [std::push_heap] may
    produce, as a sorted vector is a heap. *)
Fixpoint insert_by_deadline (x : QueryContext) (l : list QueryContext)
    : list QueryContext :=
  match l with
  | [] => [x]
  | y :: l' =>
      if (deadline x <=? deadline y)%Z then x :: l
      else y :: insert_by_deadline x l'
  end.

Definition sort_by_deadline (l : list QueryContext) : list QueryContext :=
  fold_right insert_by_deadline [] l.

#[export] Instance sorting_push_heap : StdPushHeap :=
  mkStdPushHeap sort_by_deadline.

(** A delayed scheduler that knows the sample session and has no pending
    query. *)
Definition idle : DelayedScheduler.t :=
  DelayedScheduler.mk
    (<["tf:resnet:1:100" :=
         mkModelSessionContext session "tf:resnet:1:100" ∅ []]> ∅) ∅.

(** The same scheduler after the sample query was handed in. *)
Definition queued : DelayedScheduler.t :=
  match EnqueueQuery query idle with
  | Ok d => d
  | Fault _ => idle
  end.

End DelayedSamples.

(* ===================================================================== *)
(** * Properties *)
(* ===================================================================== *)

Section numbers.
Local Open Scope Q_scope.

Lemma Qlt_bool_true (a b : Q) : Qlt_bool a b = true <-> a < b.
Proof.
  unfold Qlt_bool. rewrite negb_true_iff.
  destruct (Qle_bool b a) eqn:E.
  - apply Qle_bool_iff in E. split; [discriminate | intros H; lra].
  - split; [intros _ | reflexivity].
    apply Qnot_le_lt. intros H. apply Qle_bool_iff in H. congruence.
Qed.

Lemma Qlt_bool_false (a b : Q) : Qlt_bool a b = false <-> b <= a.
Proof.
  unfold Qlt_bool. rewrite negb_false_iff. apply Qle_bool_iff.
Qed.

Lemma Qle_bool_false (a b : Q) : Qle_bool a b = false <-> b < a.
Proof.
  destruct (Qle_bool a b) eqn:E.
  - apply Qle_bool_iff in E. split; [discriminate | intros H; lra].
  - split; [intros _ | reflexivity].
    apply Qnot_le_lt. intros H. apply Qle_bool_iff in H. congruence.
Qed.

Lemma std_min_cases (a b : Q) :
  (std_min a b = b /\ b < a) \/ (std_min a b = a /\ a <= b).
Proof.
  unfold std_min. destruct (Qlt_bool b a) eqn:E.
  - left. split; [reflexivity | by apply Qlt_bool_true].
  - right. split; [reflexivity | by apply Qlt_bool_false].
Qed.


End numbers.

(* ===================================================================== *)
(** ** The DRR route table *)
(* ===================================================================== *)

Module ModelRouteFacts.
Import ModelRoute.
Local Open Scope Q_scope.

(** *** The passes of [Update] *)

Lemma lookup_emplace `{Countable K} {V : Type} (k k' : K) (v : V) (m : gmap K V) :
  emplace k v m !! k' =
  match m !! k' with
  | Some x => Some x
  | None => if decide (k = k') then Some v else None
  end.
Proof.
  unfold emplace. destruct (m !! k) as [x|] eqn:E.
  - destruct (m !! k') eqn:E'; [done|].
    case_decide; [congruence | done].
  - rewrite lookup_insert. case_decide.
    + subst. by rewrite E.
    + by destruct (m !! k').
Qed.

Lemma fold_min_le (bs : list BackendRateProto) (m : Q) :
  fold_left (fun m b => std_min m (throughput b)) bs m <= m /\
  forall b, b ∈ bs ->
    fold_left (fun m b => std_min m (throughput b)) bs m <= throughput b.
Proof.
  revert m. induction bs as [|a bs IH]; intros m; simpl.
  - split; [lra | intros b Hb; by apply elem_of_nil in Hb].
  - destruct (IH (std_min m (throughput a))) as [IH1 IH2].
    destruct (std_min_cases m (throughput a)) as [[E1 E2]|[E1 E2]];
      rewrite E1 in *.
    + split; [lra|]. intros b Hb. apply elem_of_cons in Hb as [->|Hb];
        [lra | by apply IH2].
    + split; [lra|]. intros b Hb. apply elem_of_cons in Hb as [->|Hb];
        [lra | by apply IH2].
Qed.

Lemma fold_min_attained (bs : list BackendRateProto) (m : Q) :
  fold_left (fun m b => std_min m (throughput b)) bs m = m \/
  exists b, b ∈ bs /\
    fold_left (fun m b => std_min m (throughput b)) bs m = throughput b.
Proof.
  revert m. induction bs as [|a bs IH]; intros m; simpl; [by left|].
  destruct (IH (std_min m (throughput a))) as [E|(b & Hb & E)].
  - rewrite E. destruct (std_min_cases m (throughput a)) as [[E1 _]|[E1 _]];
      rewrite E1; [right | by left].
    exists a. split; [apply elem_of_cons; by left | done].
  - right. exists b. split; [apply elem_of_cons; by right | done].
Qed.

Lemma min_throughput_le (bs : list BackendRateProto) (b : BackendRateProto) :
  b ∈ bs -> min_throughput bs <= throughput b.
Proof. intros Hb. by apply fold_min_le. Qed.

Lemma min_throughput_attained (bs : list BackendRateProto) :
  bs ≠ [] -> (forall b, b ∈ bs -> throughput b <= DBL_MAX) ->
  exists b, b ∈ bs /\ min_throughput bs == throughput b.
Proof.
  intros Hne Hfin. unfold min_throughput.
  destruct (fold_min_attained bs DBL_MAX) as [E|(b & Hb & E)].
  - destruct bs as [|a l]; [done|]. exists a.
    assert (a ∈ a :: l) as Ha by (apply elem_of_cons; by left).
    split; [done|].
    pose proof (proj2 (fold_min_le (a :: l) DBL_MAX) a Ha) as Hle.
    pose proof (Hfin a Ha) as Hle'. rewrite E in *. lra.
  - exists b. split; [done|]. by rewrite E.
Qed.

Lemma first_index_None (id : N) (bs : list BackendRateProto) :
  first_index id bs = None <-> forall b, b ∈ bs -> backend_id b ≠ id.
Proof.
  induction bs as [|a bs IH]; simpl.
  - split; [intros _ b Hb; by apply elem_of_nil in Hb | done].
  - case_decide as Ha.
    + split; [done|]. intros Hall. exfalso.
      apply (Hall a); [apply elem_of_cons; by left | done].
    + destruct (first_index id bs) eqn:E; simpl.
      * split; [done|]. intros Hall.
        assert (Some n = None) as HN; [|done].
        apply IH. intros b Hb. apply Hall, elem_of_cons. by right.
      * split; [|done]. intros _ b Hb.
        apply elem_of_cons in Hb as [->|Hb]; [done|].
        by apply IH.
Qed.

Lemma first_index_Some (id : N) (bs : list BackendRateProto) (i : nat) :
  first_index id bs = Some i ->
  exists b, bs !! i = Some b /\ backend_id b = id /\
    forall j b', (j < i)%nat -> bs !! j = Some b' -> backend_id b' ≠ id.
Proof.
  revert i. induction bs as [|a bs IH]; intros i; simpl; [done|].
  case_decide as Ha.
  - intros [= <-]. exists a. split; [done|]. split; [done|]. intros; lia.
  - destruct (first_index id bs) as [k|] eqn:E; simpl; [|done].
    intros [= <-]. destruct (IH k eq_refl) as (b & Hb & Hid & Hmin).
    exists b. split; [done|]. split; [done|].
    intros [|j] b' Hj; simpl.
    + by intros [= <-].
    + apply Hmin. lia.
Qed.

Lemma first_rate_index (id : N) (bs : list BackendRateProto) :
  first_rate id bs = (i ← first_index id bs; throughput <$> bs !! i).
Proof.
  induction bs as [|a bs IH]; simpl; [done|].
  case_decide; [done|]. rewrite IH.
  by destruct (first_index id bs).
Qed.

Lemma give_quantum_idx (bs : list BackendRateProto) :
  forall i p id,
  p_idx (give_quantum i bs p) !! id =
  match p_idx p !! id with
  | Some j => Some j
  | None => (fun k => (i + k)%nat) <$> first_index id bs
  end.
Proof.
  induction bs as [|a bs IH]; intros i p id; simpl.
  - by destruct (p_idx p !! id).
  - rewrite IH. simpl. rewrite lookup_emplace.
    destruct (p_idx p !! id) as [j|]; [done|].
    case_decide as Ha; simpl.
    + f_equal. lia.
    + destruct (first_index id bs); simpl; [f_equal; lia | done].
Qed.

Lemma give_quantum_quanta (bs : list BackendRateProto) :
  forall i p id,
  p_quanta (give_quantum i bs p) !! id =
  match p_quanta p !! id with
  | Some q => Some q
  | None => first_rate id bs
  end.
Proof.
  induction bs as [|a bs IH]; intros i p id; simpl.
  - by destruct (p_quanta p !! id).
  - rewrite IH. simpl. rewrite lookup_emplace.
    destruct (p_quanta p !! id) as [q|]; [done|].
    by case_decide.
Qed.

Lemma give_quantum_total (bs : list BackendRateProto) :
  forall i p,
  p_total (give_quantum i bs p) =
  fold_left (fun s b => s + throughput b) bs (p_total p).
Proof.
  induction bs as [|a bs IH]; intros i p; simpl; [done|].
  by rewrite IH.
Qed.

Lemma lookup_drop_old (idx : gmap N nat) (quanta : gmap N Q) (id : N) :
  drop_old idx quanta !! id =
  match idx !! id with
  | Some _ => quanta !! id
  | None => None
  end.
Proof.
  unfold drop_old. destruct (idx !! id) as [j|] eqn:E.
  - destruct (quanta !! id) as [q|] eqn:Eq.
    + apply map_lookup_filter_Some. split; [done|]. simpl. by rewrite E.
    + apply map_lookup_filter_None. left. done.
  - apply map_lookup_filter_None. right. intros q _. simpl. rewrite E.
    by intros [? ?].
Qed.

Lemma first_rate_elem (bs : list BackendRateProto) (b : BackendRateProto) :
  b ∈ bs -> exists b', b' ∈ bs /\ backend_id b' = backend_id b /\
    first_rate (backend_id b) bs = Some (throughput b').
Proof.
  induction bs as [|a bs IH]; intros Hb; [by apply elem_of_nil in Hb|].
  simpl. case_decide as Ha.
  - exists a. split; [apply elem_of_cons; by left | done].
  - apply elem_of_cons in Hb as [->|Hb]; [done|].
    destruct (IH Hb) as (b' & Hb' & Hid & E).
    exists b'. split; [apply elem_of_cons; by right | done].
Qed.

Lemma first_rate_None (id : N) (bs : list BackendRateProto) :
  first_rate id bs = None <-> forall b, b ∈ bs -> backend_id b ≠ id.
Proof.
  rewrite first_rate_index, <- first_index_None.
  destruct (first_index id bs) as [i|] eqn:E; simpl; [|done].
  destruct (first_index_Some _ _ _ E) as (b & -> & _). simpl. split; done.
Qed.

(** *** What [Update] computes *)

Lemma Update_eq (route : ModelRouteProto) (r : t) :
  index_valid r ->
  Update route r =
  Ok (mk (model_session_id route) (backend_rate route)
         (sum_throughput (backend_rate route))
         (min_throughput (backend_rate route))
         (drop_old (p_idx (give_quantum 0 (backend_rate route)
                             (mkPass 0 (backend_quanta_ r) ∅)))
                   (p_quanta (give_quantum 0 (backend_rate route)
                                (mkPass 0 (backend_quanta_ r) ∅))))
         (match first_index (saved_id r) (backend_rate route) with
          | Some i => i
          | None =>
              match backend_rate route with
              | [] => O
              | _ :: _ => current_drr_index_ r mod length (backend_rate route)
              end
          end)).
Proof.
  intros Hidx. unfold Update, saved_id, index_valid in *.
  destruct (backends_ r) as [|b0 bs0] eqn:Ebs.
  - simpl. rewrite give_quantum_total, give_quantum_idx. simpl.
    rewrite lookup_empty.
    destruct (first_index 0%N (backend_rate route)); simpl; [|done].
    do 2 f_equal.
  - destruct ((b0 :: bs0) !! current_drr_index_ r) as [b|] eqn:Eb.
    + simpl. rewrite give_quantum_total, give_quantum_idx. simpl.
      rewrite lookup_empty.
      destruct (first_index (backend_id b) (backend_rate route)); simpl; done.
    + apply lookup_ge_None in Eb. specialize (Hidx ltac:(done)). lia.
Qed.

Lemma Update_quanta (route : ModelRouteProto) (r r' : t) (id : N) :
  Update route r = Ok r' ->
  backend_quanta_ r' !! id =
  match first_rate id (backend_rate route) with
  | Some rate =>
      match backend_quanta_ r !! id with
      | Some q => Some q
      | None => Some rate
      end
  | None => None
  end.
Proof.
  unfold Update. destruct (backends_ r) as [|b0 bs0]; simpl.
  - intros [= <-]. simpl. rewrite lookup_drop_old, give_quantum_idx,
      give_quantum_quanta. simpl. rewrite lookup_empty.
    rewrite first_rate_index.
    destruct (first_index id (backend_rate route)) as [i|] eqn:E; simpl; [|done].
    destruct (first_index_Some _ _ _ E) as (b & -> & _). simpl.
    by destruct (backend_quanta_ r !! id).
  - destruct (_ !! current_drr_index_ r); simpl; [|done].
    intros [= <-]. simpl. rewrite lookup_drop_old, give_quantum_idx,
      give_quantum_quanta. simpl. rewrite lookup_empty.
    rewrite first_rate_index.
    destruct (first_index id (backend_rate route)) as [i|] eqn:E; simpl; [|done].
    destruct (first_index_Some _ _ _ E) as (b' & -> & _). simpl.
    by destruct (backend_quanta_ r !! id).
Qed.

Lemma Update_establishes (route : ModelRouteProto) (r r' : t) :
  Update route r = Ok r' -> route_ok r'.
Proof.
  intros HU.
  assert (backends_ r' = backend_rate route /\
          min_rate_ r' = min_throughput (backend_rate route) /\
          (backend_rate route ≠ [] ->
           (current_drr_index_ r' < length (backend_rate route))%nat))
    as (Hb & Hm & Hi).
  { revert HU. unfold Update.
    destruct (match backends_ r with [] => _ | _ => _ end) as [cid|]; simpl;
      [|done].
    intros [= <-]. simpl. split; [done|]. split; [done|]. intros Hne.
    rewrite give_quantum_idx. simpl. rewrite lookup_empty.
    destruct (first_index cid (backend_rate route)) as [i|] eqn:E; simpl.
    - destruct (first_index_Some _ _ _ E) as (b & Hl & _).
      by apply lookup_lt_Some in Hl.
    - destruct (backend_rate route) as [|x l] eqn:El; [done|].
      apply Nat.mod_upper_bound. simpl. lia. }
  split.
  - rewrite Hb. done.
  - rewrite Hb. intros b Hin. rewrite (Update_quanta _ _ _ _ HU).
    destruct (first_rate_elem _ _ Hin) as (b' & _ & _ & ->).
    destruct (backend_quanta_ r !! backend_id b); by eexists.
  - rewrite Hb, Hm. intros b Hin. by apply min_throughput_le.
Qed.

Lemma Update_nonneg (route : ModelRouteProto) (r r' : t) :
  Update route r = Ok r' ->
  (forall b, b ∈ backend_rate route -> 0 <= throughput b) ->
  quanta_nonneg r -> quanta_nonneg r'.
Proof.
  intros HU Hpos Hnn id q. rewrite (Update_quanta _ _ _ _ HU).
  destruct (first_rate id (backend_rate route)) as [rate|] eqn:E; [|done].
  destruct (backend_quanta_ r !! id) as [q0|] eqn:E0.
  - intros [= <-]. by eapply Hnn.
  - intros [= <-]. rewrite first_rate_index in E.
    destruct (first_index id (backend_rate route)) as [i|]; simpl in E; [|done].
    destruct (backend_rate route !! i) as [b|] eqn:Eb; simpl in E; [|done].
    injection E as <-. apply Hpos. by eapply list_elem_of_lookup_2.
Qed.

(** *** The loop of [GetBackend] *)

(** The fuel of [GetBackend_loop] is only a device to write the loop: from
    counter [i] on, any amount of at least [length backends_ + 2 - i] gives
    the same result, the source's own [CHECK_LE] ends the loop first. *)
Lemma GetBackend_loop_fuel (f1 f2 i : nat) (r : t) :
  (i <= length (backends_ r) + 1)%nat ->
  (length (backends_ r) + 2 - i <= f1)%nat ->
  (length (backends_ r) + 2 - i <= f2)%nat ->
  GetBackend_loop f1 i r = GetBackend_loop f2 i r.
Proof.
  revert f2 i r. induction f1 as [|f1 IH]; intros f2 i r Hi H1 H2; [lia|].
  destruct f2 as [|f2]; [lia|]. simpl.
  destruct (backends_ r !! current_drr_index_ r) as [b|]; [|done].
  destruct (backend_quanta_ r !! backend_id b) as [q|]; [|done].
  destruct (Qle_bool (min_rate_ r) q); [done|].
  destruct (i <=? length (backends_ r))%nat eqn:E; [|done].
  apply Nat.leb_le in E. apply IH; simpl; lia.
Qed.

Lemma GetBackend_loop_fuel_left (fuel i : nat) (r : t) :
  (i <= length (backends_ r) + 1)%nat ->
  (length (backends_ r) + 2 - i <= fuel)%nat ->
  GetBackend_loop fuel i r ≠ Fault LoopFuel.
Proof.
  revert i r. induction fuel as [|fuel IH]; intros i r Hi Hf; [lia|].
  cbn [GetBackend_loop].
  destruct (backends_ r !! current_drr_index_ r) as [b|]; [|done].
  destruct (backend_quanta_ r !! backend_id b) as [q|]; [|done].
  destruct (Qle_bool (min_rate_ r) q); [done|].
  destruct (i <=? length (backends_ r))%nat eqn:E; [|done].
  apply Nat.leb_le in E. apply IH; simpl; lia.
Qed.

(** [GetBackend] is a total function of the table: the fuel of its loop is
    never the reason for its result. *)
Lemma GetBackend_fuel (r : t) : GetBackend r ≠ Fault LoopFuel.
Proof. apply GetBackend_loop_fuel_left; lia. Qed.

Lemma route_ok_refill (r : t) (b : BackendRateProto) (q : Q) :
  route_ok r -> backends_ r !! current_drr_index_ r = Some b ->
  route_ok (advance (set_quantum (backend_id b) q r)).
Proof.
  intros [H1 H2 H3] Hb. split; simpl.
  - intros Hne. apply Nat.mod_upper_bound.
    destruct (backends_ r); simpl; [done | lia].
  - intros b' Hb'. rewrite lookup_insert. case_decide; [by eexists | eauto].
  - done.
Qed.

Lemma GetBackend_loop_returns (fuel : nat) :
  forall (k s : nat) (r : t),
  route_ok r -> rates_positive (backends_ r) -> quanta_nonneg r ->
  (s < length (backends_ r))%nat -> (k <= length (backends_ r))%nat ->
  current_drr_index_ r = ((s + k) mod length (backends_ r))%nat ->
  (forall j, (j < k)%nat -> ready r ((s + j) mod length (backends_ r))) ->
  (length (backends_ r) + 1 - k <= fuel)%nat ->
  exists b r' m,
    GetBackend_loop fuel k r = Ok (info b, r', m) /\
    b ∈ backends_ r /\ (k < m <= length (backends_ r) + 1)%nat /\
    same_table r r' /\ route_ok r' /\ quanta_nonneg r'.
Proof.
  induction fuel as [|fuel IH]; intros k s r Hok Hpos Hnn Hs Hk Hidx Hready Hfuel;
    [lia|].
  set (n := length (backends_ r)) in *.
  assert (exists b, backends_ r !! current_drr_index_ r = Some b) as [b Hb].
  { apply lookup_lt_is_Some_2. rewrite Hidx. apply Nat.mod_upper_bound.
    unfold n in *. lia. }
  assert (b ∈ backends_ r) as Hin by (by eapply list_elem_of_lookup_2).
  destruct (ok_quanta r Hok b Hin) as [q Hq].
  simpl. rewrite Hb, Hq.
  destruct (Qle_bool (min_rate_ r) q) eqn:Ecmp.
  - (* the quantum covers min_rate: spend it and return *)
    apply Qle_bool_iff in Ecmp.
    exists b, (set_quantum (backend_id b) (q - min_rate_ r) r), (S k).
    split; [done|]. split; [done|]. split; [fold n; lia|].
    split; [done|]. split.
    + destruct Hok as [H1 H2 H3]. split; simpl; [done| |done].
      intros b' Hb'. rewrite lookup_insert. case_decide; [by eexists | eauto].
    + intros id q'. simpl. rewrite lookup_insert. case_decide.
      * intros [= <-]. lra.
      * apply Hnn.
  - (* refill and move on *)
    apply Qle_bool_false in Ecmp.
    assert (k < n)%nat as Hlt.
    { destruct (decide (k = n)) as [->|]; [|lia]. exfalso.
      destruct (Hready O ltac:(lia)) as (b' & q' & Hb' & Hq' & Hle).
      rewrite Nat.add_0_r, Nat.mod_small in Hb' by done.
      replace ((s + n) mod n)%nat with s in Hidx.
      2:{ rewrite <- (Nat.mul_1_l n) at 1. rewrite Nat.Div0.mod_add.
          by rewrite Nat.mod_small. }
      rewrite Hidx, Hb' in Hb. injection Hb as ->.
      rewrite Hq' in Hq. injection Hq as ->. lra. }
    fold n. replace (k <=? n)%nat with true by (symmetry; apply Nat.leb_le; lia).
    pose proof (Hnn _ _ Hq) as Hq0.
    pose proof (Hpos b Hin) as Hrate.
    pose proof (ok_min_rate r Hok b Hin) as Hmin.
    set (r1 := advance (set_quantum (backend_id b) (q + throughput b) r)).
    destruct (IH (S k) s r1) as (b2 & r2 & m & Hrun & Hin2 & Hm & Hsame & Hok2 & Hnn2).
    + by apply route_ok_refill.
    + done.
    + intros id q'. simpl. rewrite lookup_insert. case_decide.
      * intros [= <-]. lra.
      * apply Hnn.
    + done.
    + simpl. fold n. lia.
    + simpl. fold n. rewrite Hidx.
      replace (S ((s + k) mod n)) with ((s + k) mod n + 1)%nat by lia.
      rewrite Nat.Div0.add_mod_idemp_l. f_equal. lia.
    + intros j Hj. simpl. fold n.
      assert (exists bj, backends_ r !! ((s + j) mod n)%nat = Some bj) as [bj Hbj].
      { apply lookup_lt_is_Some_2. apply Nat.mod_upper_bound. lia. }
      destruct (decide (backend_id bj = backend_id b)) as [Heq|Hne].
      * exists bj, (q + throughput b). split; [done|]. simpl.
        rewrite Heq, lookup_insert_eq. split; [done | lra].
      * destruct (decide (j = k)) as [->|Hjk].
        { rewrite <- Hidx, Hb in Hbj. by injection Hbj as ->. }
        destruct (Hready j ltac:(lia)) as (b' & q' & Hb' & Hq' & Hle).
        fold n in Hb'. rewrite Hbj in Hb'. injection Hb' as <-.
        exists bj, q'. split; [done|]. simpl.
        rewrite lookup_insert_ne by done. done.
    + simpl. fold n. lia.
    + exists b2, r2, m. split; [done|]. split; [done|].
      split; [simpl in Hm; fold n in Hm; lia|].
      split; [|done]. destruct Hsame as (?&?&?&?). by repeat split.
Qed.

(** A call on a well-formed, non-empty table of positive rates returns one
    of the listed backends after at most [length backends_ + 1] iterations
    and leaves a well-formed table with nonnegative quanta. *)
Lemma GetBackend_returns (r : t) :
  route_ok r -> backends_ r ≠ [] -> rates_positive (backends_ r) ->
  quanta_nonneg r ->
  exists b r' m,
    GetBackend r = Ok (info b, r', m) /\
    b ∈ backends_ r /\ (1 <= m <= length (backends_ r) + 1)%nat /\
    same_table r r' /\ route_ok r' /\ quanta_nonneg r'.
Proof.
  intros Hok Hne Hpos Hnn. unfold GetBackend.
  pose proof (ok_index r Hok Hne) as Hidx.
  destruct (GetBackend_loop_returns (length (backends_ r) + 2) 0
              (current_drr_index_ r) r) as (b & r' & m & H).
  all: try done; try lia.
  - rewrite Nat.add_0_r. by rewrite Nat.mod_small.
  - exists b, r', m. destruct H as (H1 & H2 & H3 & H4 & H5 & H6).
    split; [done|]. split; [done|]. split; [lia|]. done.
Qed.

Lemma GetBackend_loop_counter (fuel i : nat) (r : t) b r' m :
  GetBackend_loop fuel i r = Ok (b, r', m) -> (i < m)%nat.
Proof.
  revert i r. induction fuel as [|fuel IH]; intros i r;
    cbn [GetBackend_loop]; [done|].
  destruct (backends_ r !! current_drr_index_ r) as [x|]; [|done].
  destruct (backend_quanta_ r !! backend_id x) as [q|]; [|done].
  destruct (Qle_bool (min_rate_ r) q).
  - intros [= _ _ <-]. lia.
  - destruct (i <=? length (backends_ r))%nat; [|done].
    intros H. apply IH in H. lia.
Qed.

(** A run that ends within the bound can be started one iteration later
    in the source's counter. *)
Lemma GetBackend_loop_shift (fuel i : nat) (r : t) b r' m :
  GetBackend_loop fuel i r = Ok (b, r', m) ->
  (m <= length (backends_ r) + 1)%nat ->
  GetBackend_loop fuel (S i) r = Ok (b, r', S m).
Proof.
  revert i r. induction fuel as [|fuel IH]; intros i r;
    cbn [GetBackend_loop]; [done|].
  destruct (backends_ r !! current_drr_index_ r) as [x|]; [|done].
  destruct (backend_quanta_ r !! backend_id x) as [q|]; [|done].
  destruct (Qle_bool (min_rate_ r) q).
  - by intros [= <- <- <-] _.
  - destruct (i <=? length (backends_ r))%nat eqn:E; [|done].
    intros H Hm. pose proof (GetBackend_loop_counter _ _ _ _ _ _ H) as Hc.
    replace (S i <=? length (backends_ r))%nat with true
      by (symmetry; apply Nat.leb_le; lia).
    apply IH; done.
Qed.

Lemma first_rate_NoDup (bs : list BackendRateProto) (b : BackendRateProto) :
  NoDup (backend_id <$> bs) -> b ∈ bs ->
  first_rate (backend_id b) bs = Some (throughput b).
Proof.
  induction bs as [|a bs IH]; intros Hnd Hb; [by apply elem_of_nil in Hb|].
  simpl in *. apply NoDup_cons in Hnd as [Ha Hnd].
  apply elem_of_cons in Hb as [->|Hb].
  - by rewrite decide_True.
  - rewrite decide_False; [by apply IH|].
    intros Heq. apply Ha. rewrite Heq. by apply list_elem_of_fmap_2.
Qed.

Lemma GetBackend_n_single (n : nat) :
  forall (r : t) (b : BackendRateProto),
  route_ok r -> backends_ r = [b] -> 0 < throughput b -> quanta_nonneg r ->
  exists r', GetBackend_n n r = Ok (repeat (info b) n, r').
Proof.
  induction n as [|n IH]; intros r b Hok Hb Hpos Hnn; simpl; [by eexists|].
  destruct (GetBackend_returns r) as (x & r1 & m & Hrun & Hx & _ & Hsame & Hok1 & Hnn1).
  - done.
  - by rewrite Hb.
  - rewrite Hb. intros y Hy. apply list_elem_of_singleton in Hy. by subst.
  - done.
  - rewrite Hb in Hx. apply list_elem_of_singleton in Hx. subst x.
    rewrite Hrun. simpl.
    destruct Hsame as (_ & Hbs & _).
    destruct (IH r1 b) as [r2 Hr2]; try done.
    + by rewrite Hbs.
    + rewrite Hr2. simpl. by eexists.
Qed.

End ModelRouteFacts.

Module ModelRouteSamples.
Import ModelRoute Samples.

Lemma table21_from_Update : Update rate21 init = Ok table21.
Proof. vm_compute. reflexivity. Qed.

Lemma table21_spent_from_GetBackend :
  GetBackend table21 = Ok (backend 1, table21_spent, 1%nat).
Proof. vm_compute. reflexivity. Qed.

Lemma table_single_from_Update : Update rate_single init = Ok table_single.
Proof. vm_compute. reflexivity. Qed.

(** A single backend is returned at every call. *)
Example single_backend_calls :
  fst <$> GetBackend_n 5 table_single = Ok (repeat (backend 7) 5).
Proof. by vm_compute. Qed.

(** The fairness scenario: B1 at rate 2 and B2 at rate 1 share 30 calls as
    20 and 10. *)
Example fairness_2_to_1 :
  (fun res => length (filter (fun b => node_id b = 1%N) res.1))
    <$> GetBackend_n 30 table21 = Ok 20%nat.
Proof. by vm_compute. Qed.

End ModelRouteSamples.

Module ModelRouteClaims.
Import ModelRoute ModelRouteFacts Samples.
Local Open Scope Q_scope.

(** C3. On a route table with a non-empty backend list, [GetBackend] runs
    the deficit round robin. With [b] the backend at [current_drr_index_] and
    [q] its quantum: if [q >= min_rate_], the call returns [b] in its first
    iteration and leaves the table with [q - min_rate_] as the quantum of
    [b] and nothing else changed; otherwise it goes on from the table in
    which the quantum of [b] is [q + rate of b] and the index is
    [(current_drr_index_ + 1) mod |backends|], so that whatever backend and
    table a call on that table returns, the call returns them too, one
    iteration later. A table with exactly one backend, of positive rate,
    returns that backend at every call. *)
Theorem GetBackend_follows_DRR (r : t)
    (Hok : route_ok r) (Hne : backends_ r ≠ []) :
  exists b q,
    backends_ r !! current_drr_index_ r = Some b /\
    backend_quanta_ r !! backend_id b = Some q /\
    (min_rate_ r <= q ->
       GetBackend r =
       Ok (info b,
           mk (model_session_id_ r) (backends_ r) (total_throughput_ r)
              (min_rate_ r)
              (<[backend_id b := q - min_rate_ r]> (backend_quanta_ r))
              (current_drr_index_ r),
           1%nat)) /\
    (q < min_rate_ r ->
       let r1 :=
         mk (model_session_id_ r) (backends_ r) (total_throughput_ r)
            (min_rate_ r)
            (<[backend_id b := q + throughput b]> (backend_quanta_ r))
            ((current_drr_index_ r + 1) mod length (backends_ r)) in
       GetBackend r = GetBackend_loop (length (backends_ r) + 1) 1 r1 /\
       forall b' r' m,
         GetBackend r1 = Ok (b', r', m) ->
         (m <= length (backends_ r) + 1)%nat ->
         GetBackend r = Ok (b', r', S m)) /\
    (backends_ r = [b] -> 0 < throughput b -> quanta_nonneg r ->
       forall n, exists r', GetBackend_n n r = Ok (repeat (info b) n, r')).
Proof.
  pose proof (ok_index r Hok Hne) as Hidx.
  destruct (lookup_lt_is_Some_2 _ _ Hidx) as [b Hb].
  assert (b ∈ backends_ r) as Hin by (by eapply list_elem_of_lookup_2).
  destruct (ok_quanta r Hok b Hin) as [q Hq].
  exists b, q. split; [done|]. split; [done|]. split; [|split].
  - intros Hle. apply Qle_bool_iff in Hle.
    unfold GetBackend. rewrite Nat.add_comm. simpl. by rewrite Hb, Hq, Hle.
  - intros Hlt r1. apply Qle_bool_false in Hlt.
    assert (r1 = advance (set_quantum (backend_id b) (q + throughput b) r))
      as Er1.
    { unfold r1, advance, set_quantum. simpl. by rewrite Nat.add_1_r. }
    clearbody r1. subst r1.
    set (r1 := advance (set_quantum (backend_id b) (q + throughput b) r)).
    assert (GetBackend r = GetBackend_loop (length (backends_ r) + 1) 1 r1) as E.
    { unfold GetBackend. rewrite (Nat.add_comm _ 2). simpl.
      rewrite Hb, Hq, Hlt. by rewrite (Nat.add_comm _ 1). }
    split; [done|]. intros b' r' m Hrun Hm. rewrite E.
    unfold GetBackend in Hrun. simpl in Hrun.
    apply GetBackend_loop_shift in Hrun; [|simpl; lia].
    rewrite <- Hrun. apply GetBackend_loop_fuel; simpl; lia.
  - intros Hsingle Hpos Hnn n. by apply GetBackend_n_single.
Qed.

Lemma table_single_nonneg : quanta_nonneg table_single.
Proof.
  apply (Update_nonneg rate_single init table_single eq_refl).
  - intros b Hb. repeat (apply elem_of_cons in Hb as [->|Hb]; [by vm_compute|]).
    by apply elem_of_nil in Hb.
  - intros id q Hq. cbn in Hq. by rewrite lookup_empty in Hq.
Defined.

(** The three cases on the sample tables: B1 holds a quantum of 2 and is
    served at once; with B1 at quantum 0 and B2 at 1, B1 is refilled to its
    rate 2, the index moves from 0 to 1 and B2 is served in the second
    iteration; the only backend of a table is served at every call. *)
Lemma GetBackend_follows_DRR_witness :
  GetBackend table21 = Ok (backend 1, table21_spent, 1%nat) /\
  GetBackend table21_due = Ok (backend 2, table21_refilled, 2%nat) /\
  (forall n, exists r',
     GetBackend_n n table_single = Ok (repeat (backend 7) n, r')).
Proof.
  split; [|split].
  - destruct (GetBackend_follows_DRR table21
                (Update_establishes rate21 init table21 eq_refl)
                ltac:(discriminate))
      as (b & q & Hb & Hq & Hserve & _).
    vm_compute in Hb. injection Hb as <-.
    vm_compute in Hq. injection Hq as <-.
    rewrite Hserve; [reflexivity | by vm_compute].
  - destruct (GetBackend_follows_DRR table21_due
                (Update_establishes rate21 table21_due table21_due eq_refl)
                ltac:(discriminate))
      as (b & q & Hb & Hq & _ & Hrefill & _).
    vm_compute in Hb. injection Hb as <-.
    vm_compute in Hq. injection Hq as <-.
    apply (proj2 (Hrefill ltac:(by vm_compute))).
    + reflexivity.
    + simpl. lia.
  - destruct (GetBackend_follows_DRR table_single
                (Update_establishes rate_single init table_single eq_refl)
                ltac:(discriminate))
      as (b & q & Hb & _ & _ & _ & Hsingle).
    vm_compute in Hb. injection Hb as <-.
    exact (Hsingle eq_refl ltac:(by vm_compute) table_single_nonneg).
Defined.

(** C8, as the code has it. After [Update route] the backend list is
    [route.backend_rate], [min_rate_] is the minimum throughput of the new
    list ([DBL_MAX] when it is empty) and [total_throughput_] its sum; an id
    that had no quantum gets the rate of its (first) entry in the route; an
    id absent from the route has no quantum entry; the quantum of a backend
    that was already present is kept as it was; and [current_drr_index_] is
    the (first) position of the previously selected backend when that is
    still listed, else the old index modulo the new size (0 for an empty
    route). *)
Theorem Update_result (route : ModelRouteProto) (r r' : t)
    (HU : Update route r = Ok r') :
  let new := backend_rate route in
  backends_ r' = new /\
  min_rate_ r' = min_throughput new /\
  (forall b, b ∈ new -> min_rate_ r' <= throughput b) /\
  (new ≠ [] -> (forall b, b ∈ new -> throughput b <= DBL_MAX) ->
     exists b, b ∈ new /\ min_rate_ r' == throughput b) /\
  (new = [] -> min_rate_ r' = DBL_MAX) /\
  total_throughput_ r' = sum_throughput new /\
  (* new backends *)
  (forall id, backend_quanta_ r !! id = None ->
     backend_quanta_ r' !! id = first_rate id new) /\
  (forall b, b ∈ new -> NoDup (backend_id <$> new) ->
     backend_quanta_ r !! backend_id b = None ->
     backend_quanta_ r' !! backend_id b = Some (throughput b)) /\
  (* removed backends *)
  (forall id, (forall b, b ∈ new -> backend_id b ≠ id) ->
     backend_quanta_ r' !! id = None) /\
  (* surviving backends *)
  (forall b q, b ∈ new -> backend_quanta_ r !! backend_id b = Some q ->
     backend_quanta_ r' !! backend_id b = Some q) /\
  (* the DRR pointer *)
  (forall cur, backends_ r !! current_drr_index_ r = Some cur ->
     match first_index (backend_id cur) new with
     | Some i => current_drr_index_ r' = i
     | None =>
         current_drr_index_ r' =
         match new with
         | [] => O
         | _ :: _ => (current_drr_index_ r mod length new)%nat
         end
     end) /\
  (backends_ r = [] -> first_index 0%N new = None ->
     current_drr_index_ r' =
     match new with
     | [] => O
     | _ :: _ => (current_drr_index_ r mod length new)%nat
     end).
Proof.
  intros new. subst new.
  assert (index_valid r) as Hv.
  { intros Hne. revert HU. unfold Update.
    destruct (backends_ r) as [|x l] eqn:E; [done|].
    destruct ((x :: l) !! current_drr_index_ r) eqn:El; [|done].
    intros _. by apply lookup_lt_Some in El. }
  pose proof (Update_eq route r Hv) as E. rewrite HU in E. injection E as E.
  assert (backends_ r' = (backend_rate route)) as Hb by (by rewrite E).
  assert (min_rate_ r' = min_throughput (backend_rate route)) as Hm by (by rewrite E).
  split; [done|]. split; [done|].
  split. { rewrite Hm. intros b. apply min_throughput_le. }
  split.
  { intros Hne Hfin. rewrite Hm. by apply min_throughput_attained. }
  split. { intros En. rewrite Hm, En. done. }
  split. { by rewrite E. }
  split.
  { intros id Hid. rewrite (Update_quanta _ _ _ id HU), Hid.
    by destruct (first_rate id (backend_rate route)). }
  split.
  { intros b Hin Hnd Hid. rewrite (Update_quanta _ _ _ _ HU), Hid.
    by rewrite (first_rate_NoDup (backend_rate route) b Hnd Hin). }
  split.
  { intros id Hid. rewrite (Update_quanta _ _ _ id HU).
    apply first_rate_None in Hid. by rewrite Hid. }
  split.
  { intros b q Hin Hq. rewrite (Update_quanta _ _ _ _ HU), Hq.
    destruct (first_rate_elem (backend_rate route) b Hin) as (b' & _ & _ & Hr).
    by rewrite Hr. }
  split.
  { intros cur Hcur. rewrite E. simpl. unfold saved_id. rewrite Hcur.
    by destruct (first_index (backend_id cur) (backend_rate route)). }
  intros Hempty H0. rewrite E. simpl. unfold saved_id. rewrite Hempty.
  simpl. by rewrite H0.
Qed.

Lemma Update_result_witness :
  Update rate21 table21_spent = Ok table21_spent /\
  backends_ table21_spent = backend_rate rate21 /\
  min_rate_ table21_spent = min_throughput (backend_rate rate21).
Proof.
  split; [reflexivity|].
  pose proof (Update_result rate21 table21_spent table21_spent eq_refl) as H.
  cbv zeta in H. destruct H as (H1 & H2 & _). split; assumption.
Defined.

(** C8 as the specification words it ("quanta of surviving backends are
    reset") fails: after one [GetBackend] on the table of B1 at rate 2 and B2
    at rate 1, B1 holds quantum 1, and an [Update] with the same route leaves
    it at 1 instead of bringing it back to the rate 2. *)
Lemma Update_resets_quanta_counterexample :
  ~ (forall (route : ModelRouteProto) (r r' : t) (b : BackendRateProto),
       Update route r = Ok r' -> b ∈ backend_rate route ->
       is_Some (backend_quanta_ r !! backend_id b) ->
       backend_quanta_ r' !! backend_id b = Some (throughput b)).
Proof.
  intros H.
  specialize (H rate21 table21_spent table21_spent
                (mkBackendRate (backend 1) 2) eq_refl).
  assert (backend_quanta_ table21_spent !! 1%N = Some 2) as Hbad.
  { apply H.
    - apply elem_of_cons. by left.
    - by exists 1. }
  vm_compute in Hbad. discriminate Hbad.
Qed.

(** C10. On a route table that satisfies its representation invariant, with
    a non-empty backend list, positive throughputs and nonnegative quanta,
    [GetBackend] returns a listed backend after at most [|backends| + 1]
    loop iterations, never fails the "DRR could not decide" check, and
    leaves a table of the same kind; every [GetBackend], and every [Update]
    to a route of positive throughputs, keeps all quanta nonnegative (and
    [Update] re-establishes the invariant). *)
Theorem GetBackend_bounded_nonneg (r : t)
    (Hok : route_ok r) (Hne : backends_ r ≠ [])
    (Hpos : rates_positive (backends_ r)) (Hnn : quanta_nonneg r) :
  (exists b r' m,
     GetBackend r = Ok (info b, r', m) /\ b ∈ backends_ r /\
     (m <= length (backends_ r) + 1)%nat /\
     backends_ r' = backends_ r /\ route_ok r' /\ quanta_nonneg r') /\
  GetBackend r ≠ Fault CheckFailed /\
  (forall route, exists r', Update route r = Ok r') /\
  (forall route r0 r0',
     quanta_nonneg r0 -> rates_positive (backend_rate route) ->
     Update route r0 = Ok r0' -> quanta_nonneg r0' /\ route_ok r0').
Proof.
  destruct (GetBackend_returns r Hok Hne Hpos Hnn)
    as (b & r' & m & Hrun & Hin & Hm & Hsame & Hok' & Hnn').
  split; [|split; [|split]].
  - exists b, r', m. destruct Hsame as (_ & Hbs & _).
    split; [done|]. split; [done|]. split; [lia|]. done.
  - by rewrite Hrun.
  - intros route. rewrite Update_eq; [by eexists|]. exact (ok_index r Hok).
  - intros route r0 r0' Hnn0 Hpos0 HU. split.
    + eapply Update_nonneg; [done| |done].
      intros b0 Hb0. apply Qlt_le_weak. by apply Hpos0.
    + by eapply Update_establishes.
Qed.

Lemma table21_nonneg : quanta_nonneg table21.
Proof.
  apply (Update_nonneg rate21 init table21 eq_refl).
  - intros b Hb. repeat (apply elem_of_cons in Hb as [->|Hb]; [by vm_compute|]).
    by apply elem_of_nil in Hb.
  - intros id q Hq. cbn in Hq. by rewrite lookup_empty in Hq.
Defined.

Lemma table21_positive : rates_positive (backends_ table21).
Proof.
  intros b Hb. repeat (apply elem_of_cons in Hb as [->|Hb]; [by vm_compute|]).
  by apply elem_of_nil in Hb.
Defined.

Lemma GetBackend_bounded_nonneg_witness :
  (exists b r' m,
     GetBackend table21 = Ok (info b, r', m) /\ b ∈ backends_ table21 /\
     (m <= length (backends_ table21) + 1)%nat /\
     backends_ r' = backends_ table21 /\ route_ok r' /\ quanta_nonneg r') /\
  GetBackend table21 ≠ Fault CheckFailed /\
  (forall route, exists r', Update route table21 = Ok r') /\
  (forall route r0 r0',
     quanta_nonneg r0 -> rates_positive (backend_rate route) ->
     Update route r0 = Ok r0' -> quanta_nonneg r0' /\ route_ok r0').
Proof.
  apply (GetBackend_bounded_nonneg table21).
  - exact (Update_establishes rate21 init table21 eq_refl).
  - discriminate.
  - exact table21_positive.
  - exact table21_nonneg.
Defined.

End ModelRouteClaims.

(* ===================================================================== *)
(** ** The dispatcher *)
(* ===================================================================== *)

Module DispatcherFacts.
Import Dispatcher.

Lemma wrap64_id (z : Z) : in_int64 z -> wrap64 z = z.
Proof.
  unfold in_int64, wrap64. intros Hz.
  rewrite Z.mod_small; lia.
Qed.

Lemma Qtruncate_integral (q : Q) (m : Z) : (q == inject_Z m)%Q -> Qtruncate q = m.
Proof.
  unfold Qeq, Qtruncate. simpl. intros H.
  rewrite Z.mul_1_r in H. rewrite H. apply Z.quot_mul. lia.
Qed.

Section with_env.
Context `{!Externals}.

Lemma DispatchRequest_inv sched_now now dispatch_now q reply d res :
  DispatchRequest sched_now now dispatch_now q reply d = Ok res ->
  dispatched sched_now now dispatch_now q reply d res.
Proof.
  unfold DispatchRequest. cbn [take_global_id]. simpl.
  destruct (models_ d !! query_model_session_id q) as [route|] eqn:Er.
  - destruct (ModelRoute.GetBackend route) as [[[b route'] n]|f] eqn:Eg;
      simpl; [|done].
    destruct (backends_ d !! node_id b) as [backend|] eqn:Eb.
    + destruct (GetInstanceInfo (query_model_session_id q) backend)
        as [inst|] eqn:Ei; [|done].
      intros [= <-]. by eapply enqueued.
    + intros [= <-]. by eapply no_delegate.
  - intros [= <-]. by apply no_route.
Qed.

(** A route whose backend list is empty makes [GetBackend], and with it the
    whole dispatch, leave the normal control flow at the first
    [backends_[current_drr_index_]]. *)
Lemma GetBackend_empty (route : ModelRoute.t) :
  ModelRoute.backends_ route = [] ->
  ModelRoute.GetBackend route = Fault VectorOutOfRange.
Proof.
  intros E. unfold ModelRoute.GetBackend. rewrite E. simpl. by rewrite E.
Qed.

Lemma DispatchRequest_empty_route sched_now now dispatch_now q reply d route :
  models_ d !! query_model_session_id q = Some route ->
  ModelRoute.backends_ route = [] ->
  DispatchRequest sched_now now dispatch_now q reply d = Fault VectorOutOfRange.
Proof.
  intros Hr He. unfold DispatchRequest. simpl. rewrite Hr.
  by rewrite (GetBackend_empty route He).
Qed.

Lemma EnqueueBatchPlan_changes plan (backend : BackendDelegate) :
  EnqueueBatchPlan plan backend ≠ backend.
Proof.
  intros E. apply (f_equal (fun b => length (backend_sent b))) in E.
  simpl in E. rewrite length_app in E. simpl in E. lia.
Qed.

Lemma EnqueueBatchPlan_inj plan plan' (backend : BackendDelegate) :
  EnqueueBatchPlan plan backend = EnqueueBatchPlan plan' backend -> plan = plan'.
Proof.
  intros E. apply (f_equal backend_sent) in E. simpl in E.
  apply app_inv_head in E. by injection E.
Qed.

End with_env.
End DispatcherFacts.

Module DispatcherClaims.
Import Dispatcher DispatcherFacts Samples.

(** The two fields of a plan that are sums of integers: whenever
    [DispatchRequest] hands a plan to a backend, the reply is [CTRL_OK] and
    the plan carries [exec_time_ns = now + 5 ms] and
    [deadline_ns = frontend_recv_ns + latency_sla * 1000], as [int64_t]
    sums; they are the mathematical sums whenever those fit. *)
Lemma DispatchRequest_plan_exec_deadline `{!Externals}
    (sched_now now dispatch_now : Z) (q : QueryProto) (reply reply' : DispatchReply)
    (d d' : t) (id : N) (backend : BackendDelegate) (plan : BatchPlanProto)
    (Hrun : DispatchRequest sched_now now dispatch_now q reply d = Ok (reply', d'))
    (Hold : backends_ d !! id = Some backend)
    (Hnew : backends_ d' !! id = Some (EnqueueBatchPlan plan backend)) :
  let sla := Z.of_N (latency_sla (ParseModelSession (query_model_session_id q))) in
  let recv := frontend_recv_ns (clock q) in
  reply_status reply' = CTRL_OK /\
  exec_time_ns plan = wrap64 (now + 5 * 1000 * 1000) /\
  deadline_ns plan = wrap64 (recv + sla * 1000) /\
  (in_int64 (now + 5 * 1000 * 1000) ->
     exec_time_ns plan = (now + 5 * 1000 * 1000)%Z) /\
  (in_int64 (recv + sla * 1000) ->
     deadline_ns plan = (recv + sla * 1000)%Z).
Proof.
  intros sla recv.
  apply DispatchRequest_inv in Hrun.
  inversion Hrun as [Hr Hres | route b route' n Hr Hg Hb Hres
                    | route b route' n backend0 inst Hr Hg Hb Hi query plan0 Hres];
    subst reply' d'.
  - simpl in Hnew. rewrite Hold in Hnew. injection Hnew as Hnew.
    symmetry in Hnew. by apply EnqueueBatchPlan_changes in Hnew.
  - simpl in Hnew. rewrite Hold in Hnew. injection Hnew as Hnew.
    symmetry in Hnew. by apply EnqueueBatchPlan_changes in Hnew.
  - simpl in Hnew. rewrite lookup_insert in Hnew.
    case_decide as Hid.
    2:{ rewrite Hold in Hnew. injection Hnew as Hnew.
        symmetry in Hnew. by apply EnqueueBatchPlan_changes in Hnew. }
    subst id. rewrite Hb in Hold. injection Hold as ->.
    assert (plan0 = plan) as Hp
      by (apply (EnqueueBatchPlan_inj _ _ backend); congruence).
    clear Hnew. subst plan.
    split; [done|].
    assert (exec_time_ns plan0 = wrap64 (now + 5 * 1000 * 1000)) as He by done.
    assert (deadline_ns plan0 = wrap64 (recv + sla * 1000)) as Hd by done.
    split; [done|]. split; [done|].
    split; [intros Hin; by rewrite He, wrap64_id|].
    intros Hin. by rewrite Hd, wrap64_id.
Qed.

(** C4, on the code. The plan that [DispatchRequest] hands to a backend does
    not carry [expected_finish_time_ns = exec_time_ns + forward_latency(1)].
    The code adds the latency, a [double], to the [int64_t] [exec_time_ns]:
    the sum is a [double], rounded to 53 bits, and is converted back when it
    is stored. The sample dispatch is answered [CTRL_OK] and backend 1
    receives the plan; its [exec_time_ns] is [now + 5 ms] and its
    [deadline_ns] is [frontend_recv_ns + latency_sla * 1000], as claimed,
    and the forward latency of batch 1 is 1750000 ns, but the plan carries
    the finish time 1700000000006949888, which is 112 ns short of
    [exec_time_ns + 1750000 = 1700000000006950000]. *)
Theorem DispatchRequest_finish_time_rounded :
  DispatchRequest t_sched t_now t_dispatch query blank_reply serving = Ok served /\
  reply_status served.1 = CTRL_OK /\
  backends_ served.2 !! 1%N = Some (EnqueueBatchPlan sample_plan (delegate 1)) /\
  exec_time_ns sample_plan = (t_now + 5 * 1000 * 1000)%Z /\
  deadline_ns sample_plan =
    (frontend_recv_ns (clock query) + Z.of_N (latency_sla session) * 1000)%Z /\
  (GetForwardLatency resnet_profile 1 * 1000 == inject_Z 1750000)%Q /\
  (exec_time_ns sample_plan + 1750000)%Z = 1700000000006950000%Z /\
  expected_finish_time_ns sample_plan = 1700000000006949888%Z.
Proof. by vm_compute. Qed.

(** C1, on the code. A dispatcher whose route for the session has been
    updated to the empty backend list does not answer the next query with
    [MODEL_NOT_FOUND]: [GetBackend] indexes the empty [backends_] vector and
    [DispatchRequest] leaves the normal control flow there, before any reply
    status is set. *)
Theorem DispatchRequest_empty_route_faults :
  UpdateModelRoutes [rate_empty] serving = Ok (CTRL_OK, drained) /\
  ModelRoute.GetBackend (ModelRoute.mk "tf:resnet:1:100" [] 0 DBL_MAX ∅ 0)
    = Fault VectorOutOfRange /\
  DispatchRequest t_sched t_now t_dispatch query blank_reply drained
    = Fault VectorOutOfRange.
Proof.
  split; [by vm_compute|]. split; [by vm_compute|].
  by eapply DispatchRequest_empty_route.
Qed.

(** Registering a third backend with the sample dispatcher succeeds and
    adds its delegate. *)
Example HandleRegister_new_backend :
  (fun res => (reg_status res.1, size (backends_ res.2),
               node_id <$> (backend_info <$> backends_ res.2 !! 3%N)))
    <$> HandleRegister ["ipv4"; "10.0.0.3"; "5000"]
          (mkRegisterRequest BACKEND_NODE 3 "8001" "8002" "TITAN_X" "GPU-3" 1024)
          (mkRegisterReply CTRL_OK 0) serving =
  Ok (CTRL_OK, 3%nat, Some 3%N).
Proof. by vm_compute. Qed.

End DispatcherClaims.

(* ===================================================================== *)
(** ** The global scheduler *)
(* ===================================================================== *)

Module SchedulerFacts.
Import Scheduler.

Section assoc_facts.
Context {K V : Type} `{EqDecision K}.

Lemma assoc_find_Some (k : K) (v : V) (l : list (K * V)) :
  assoc_find k l = Some v -> (k, v) ∈ l.
Proof.
  induction l as [|[k' v'] l IH]; simpl; [done|].
  case_decide as Hk.
  - intros [= <-]. subst. apply elem_of_cons. by left.
  - intros Hf. apply elem_of_cons. right. by apply IH.
Qed.

Lemma assoc_find_None (k : K) (l : list (K * V)) :
  assoc_find k l = None <-> forall v, (k, v) ∉ l.
Proof.
  induction l as [|[k' v'] l IH]; simpl.
  - split; [intros _ v Hv; by apply elem_of_nil in Hv | done].
  - case_decide as Hk.
    + split; [done|]. intros Hall. exfalso. apply (Hall v').
      subst. apply elem_of_cons. by left.
    + rewrite IH. split.
      * intros Hall v Hv. apply elem_of_cons in Hv as [[= -> ->]|Hv]; [done|].
        by apply (Hall v).
      * intros Hall v Hv. apply (Hall v). apply elem_of_cons. by right.
Qed.

Lemma assoc_find_set (k k' : K) (v : V) (l : list (K * V)) :
  assoc_find k' (assoc_set k v l) =
  if decide (k = k') then Some v else assoc_find k' l.
Proof.
  induction l as [|[k0 v0] l IH]; simpl.
  - by repeat case_decide.
  - destruct (decide (k0 = k)) as [->|Hne]; simpl.
    + by repeat case_decide.
    + rewrite IH. repeat case_decide; congruence.
Qed.

End assoc_facts.

Section scheduler.
Context {B I : Type} `{!BackendDelegate.ops B I} `{!Externals}
        `{!SessionOps} `{!StdSort}.
Local Open Scope Q_scope.

Abbreviation t := (@Scheduler.t B).

(** *** FindBestBackend *)

Lemma near_zero_iff (rate : Q) : near_zero rate = true <-> about_zero rate.
Proof.
  unfold near_zero, about_zero, fabs.
  destruct (Qlt_bool rate 0) eqn:E.
  - apply Qlt_bool_true in E. rewrite Qlt_bool_true. split; [intros H3; lra|].
    intros [H3 H4]. lra.
  - apply Qlt_bool_false in E. rewrite Qlt_bool_true. split; [intros H3; lra|].
    by intros [H3 H4].
Qed.

Lemma not_near_zero_iff (rate : Q) : near_zero rate = false <-> ~ about_zero rate.
Proof.
  rewrite <- near_zero_iff. by destruct (near_zero rate).
Qed.

Lemma eligible_candidate s model_sess rate skips entry inst occ :
  eligible s model_sess rate skips entry inst occ <->
  candidate s model_sess rate skips entry inst occ.
Proof.
  unfold eligible, candidate. split.
  - intros (Hin & Hw & Hs & Hz & Hp). split_and!; try done.
    intros Hn. by apply Hz, near_zero_iff.
  - intros (Hin & Hs & Hw & Hz & Hp). split_and!; try done.
    intros Hn. by apply Hz, near_zero_iff.
Qed.

Lemma candidate_prepared s model_sess rate skips entry inst occ :
  candidate s model_sess rate skips entry inst occ <->
  entry ∈ backends_ s /\ prepared model_sess rate skips entry = Some (inst, occ).
Proof.
  unfold candidate, prepared. split.
  - intros (Hin & Hs & Hw & Hz & Hp). split; [done|].
    rewrite decide_False by done.
    replace (0 <=? BackendDelegate.workload_id (entry.2))%Z with false
      by (symmetry; by apply Z.leb_gt).
    destruct (near_zero rate) eqn:Ez; simpl; [|done].
    by rewrite (Hz eq_refl).
  - intros (Hin & Hp). split; [done|].
    case_decide as Hs; [done|]. split; [done|].
    destruct (0 <=? BackendDelegate.workload_id (entry.2))%Z eqn:Ew; [done|].
    apply Z.leb_gt in Ew. split; [done|].
    destruct (near_zero rate) eqn:Ez; simpl in Hp.
    + destruct (BackendDelegate.IsIdle (entry.2)); [done|done].
    + done.
Qed.

Lemma consider_prepared model_sess rate skips mt mo entry :
  consider model_sess rate skips (mt, mo) entry =
  match prepared model_sess rate skips entry with
  | None => (mt, mo)
  | Some (i, o) =>
      ((if bool_decide (mt.1.1 = None)
           || Qlt_bool (BackendDelegate.throughput mt.1.2)
                       (BackendDelegate.throughput i)
        then (Some entry, i, o) else mt),
       (if bool_decide (mo.1.1 = None) || Qlt_bool mo.2 o
        then (Some entry, i, o) else mo))
  end.
Proof.
  unfold consider, prepared.
  case_decide; [done|].
  destruct (0 <=? BackendDelegate.workload_id (entry.2))%Z; [done|].
  destruct (near_zero rate && negb (BackendDelegate.IsIdle (entry.2))); [done|].
  by destruct (BackendDelegate.PrepareLoadModel model_sess rate (entry.2))
    as [[i o]|].
Qed.

Lemma best_by_step (score : I -> Q -> Q) model_sess rate skips seen ml entry :
  best_by score model_sess rate skips seen ml ->
  best_by score model_sess rate skips (seen ++ [entry])
    match prepared model_sess rate skips entry with
    | None => ml
    | Some (i, o) =>
        if bool_decide (ml.1.1 = None) || Qlt_bool (score ml.1.2 ml.2) (score i o)
        then (Some entry, i, o) else ml
    end.
Proof.
  unfold best_by. intros Hml.
  destruct (prepared model_sess rate skips entry) as [[i o]|] eqn:Ep.
  - destruct (ml.1.1) as [e|] eqn:Ee; simpl.
    + destruct Hml as (Hin & Hpe & Hmax).
      destruct (Qlt_bool _ _) eqn:Ecmp; simpl.
      * apply Qlt_bool_true in Ecmp. split; [set_solver|]. split; [done|].
        intros e' i' o' He' Hp'. apply elem_of_app in He' as [He'|He'].
        -- specialize (Hmax _ _ _ He' Hp'). lra.
        -- apply list_elem_of_singleton in He'. subst e'.
           rewrite Ep in Hp'. injection Hp' as <- <-. lra.
      * apply Qlt_bool_false in Ecmp. rewrite Ee. split; [set_solver|].
        split; [done|].
        intros e' i' o' He' Hp'. apply elem_of_app in He' as [He'|He'].
        -- by eapply Hmax.
        -- apply list_elem_of_singleton in He'. subst e'.
           rewrite Ep in Hp'. by injection Hp' as <- <-.
    + split; [set_solver|]. split; [done|].
      intros e' i' o' He' Hp'. apply elem_of_app in He' as [He'|He'].
      * by rewrite (Hml _ He') in Hp'.
      * apply list_elem_of_singleton in He'. subst e'.
        rewrite Ep in Hp'. injection Hp' as <- <-. lra.
  - destruct (ml.1.1) as [e|] eqn:Ee.
    + destruct Hml as (Hin & Hpe & Hmax). split; [set_solver|]. split; [done|].
      intros e' i' o' He' Hp'. apply elem_of_app in He' as [He'|He'].
      * by eapply Hmax.
      * apply list_elem_of_singleton in He'. subst e'. by rewrite Ep in Hp'.
    + intros e He. apply elem_of_app in He as [He|He]; [by apply Hml|].
      apply list_elem_of_singleton in He. by subst e.
Qed.

Lemma consider_fold model_sess rate skips (l seen : list (N * B)) acc :
  best_by by_throughput model_sess rate skips seen acc.1 ->
  best_by by_occupancy model_sess rate skips seen acc.2 ->
  best_by by_throughput model_sess rate skips (seen ++ l)
    (fold_left (consider model_sess rate skips) l acc).1 /\
  best_by by_occupancy model_sess rate skips (seen ++ l)
    (fold_left (consider model_sess rate skips) l acc).2.
Proof.
  revert seen acc. induction l as [|entry l IH]; intros seen [mt mo] Ht Ho.
  - by rewrite app_nil_r.
  - cbn [fold_left].
    replace (seen ++ entry :: l) with ((seen ++ [entry]) ++ l)
      by (by rewrite <- app_assoc).
    apply IH.
    + rewrite consider_prepared.
      pose proof (best_by_step by_throughput _ _ _ _ _ entry Ht) as Hstep.
      by destruct (prepared model_sess rate skips entry) as [[i o]|].
    + rewrite consider_prepared.
      pose proof (best_by_step by_occupancy _ _ _ _ _ entry Ho) as Hstep.
      by destruct (prepared model_sess rate skips entry) as [[i o]|].
Qed.

Lemma FindBestBackend_loads (s : t) model_sess rate skips :
  exists mt mo,
    fold_left (consider model_sess rate skips) (backends_ s)
              (null_load, null_load) = (mt, mo) /\
    best_by by_throughput model_sess rate skips (backends_ s) mt /\
    best_by by_occupancy model_sess rate skips (backends_ s) mo.
Proof.
  destruct (fold_left _ _ _) as [mt mo] eqn:E. exists mt, mo. split; [done|].
  pose proof (consider_fold model_sess rate skips (backends_ s) []
                (null_load, null_load)) as Hfold.
  rewrite E in Hfold. simpl in Hfold. apply Hfold.
  - intros e He. by apply elem_of_nil in He.
  - intros e He. by apply elem_of_nil in He.
Qed.

Lemma best_by_None score (s : t) model_sess rate skips ml :
  best_by score model_sess rate skips (backends_ s) ml ->
  (ml.1.1 = None <-> forall e i o, ~ candidate s model_sess rate skips e i o).
Proof.
  unfold best_by. intros Hml. split.
  - intros E. rewrite E in Hml. intros e i o Hc.
    apply candidate_prepared in Hc as [Hin Hp]. by rewrite (Hml e Hin) in Hp.
  - intros Hno. destruct (ml.1.1) as [e|]; [|done].
    destruct Hml as (Hin & Hp & _). exfalso.
    apply (Hno e ml.1.2 ml.2). by apply candidate_prepared.
Qed.

Lemma best_by_Some score (s : t) model_sess rate skips ml e :
  best_by score model_sess rate skips (backends_ s) ml -> ml.1.1 = Some e ->
  candidate s model_sess rate skips e ml.1.2 ml.2 /\
  forall e' i o, candidate s model_sess rate skips e' i o ->
    score i o <= score ml.1.2 ml.2.
Proof.
  unfold best_by. intros Hml E. rewrite E in Hml.
  destruct Hml as (Hin & Hp & Hmax). split; [by apply candidate_prepared|].
  intros e' i o Hc. apply candidate_prepared in Hc as [Hin' Hp'].
  by eapply Hmax.
Qed.


(** What [FindBestBackend] returns, in terms of the filters of its loop. *)
Lemma FindBestBackend_chooses (s : t) (model_sess : ModelSession)
    (request_rate : Q) (skips : gset N) :
  let res := FindBestBackend model_sess request_rate skips s in
  (res.1 = None <->
     forall e i o, ~ candidate s model_sess request_rate skips e i o) /\
  (forall e, res.1 = Some e ->
     exists occ,
       candidate s model_sess request_rate skips e res.2 occ /\
       ((near_zero request_rate = true \/
         (forall e' i o, candidate s model_sess request_rate skips e' i o ->
            BackendDelegate.throughput i < request_rate)) ->
        forall e' i o, candidate s model_sess request_rate skips e' i o ->
          BackendDelegate.throughput i <= BackendDelegate.throughput res.2) /\
       (near_zero request_rate = false ->
        (exists e' i o, candidate s model_sess request_rate skips e' i o /\
           request_rate <= BackendDelegate.throughput i) ->
        forall e' i o, candidate s model_sess request_rate skips e' i o ->
          o <= occ)).
Proof.
  destruct (FindBestBackend_loads s model_sess request_rate skips)
    as (mt & mo & Efold & Ht & Ho).
  pose proof (best_by_None _ _ _ _ _ _ Ht) as HtN.
  pose proof (best_by_None _ _ _ _ _ _ Ho) as HoN.
  unfold FindBestBackend. rewrite Efold.
  destruct (near_zero request_rate) eqn:Ez; simpl.
  - split; [done|]. intros e He.
    destruct (best_by_Some _ _ _ _ _ _ _ Ht He) as [Hc Hmax].
    exists mt.2. split; [done|]. split; [|done].
    intros _ e' i o Hc'. by apply (Hmax e' i o).
  - destruct (Qlt_bool (BackendDelegate.throughput mt.1.2) request_rate) eqn:Ecmp.
    + apply Qlt_bool_true in Ecmp. split; [done|]. intros e He.
      destruct (best_by_Some _ _ _ _ _ _ _ Ht He) as [Hc Hmax].
      exists mt.2. split; [done|]. split.
      * intros _ e' i o Hc'. by apply (Hmax e' i o).
      * intros _ (e' & i & o & Hc' & Hle). exfalso.
        specialize (Hmax e' i o Hc'). unfold by_throughput in Hmax. lra.
    + apply Qlt_bool_false in Ecmp. split; [done|]. intros e He.
      destruct (best_by_Some _ _ _ _ _ _ _ Ho He) as [Hc Hmax].
      exists mo.2. split; [done|]. split.
      * intros [Hz|Hall]; [done|]. exfalso.
        destruct (mt.1.1) as [et|] eqn:Eet.
        -- destruct (best_by_Some _ _ _ _ _ _ _ Ht Eet) as [Hct _].
           specialize (Hall _ _ _ Hct). lra.
        -- by apply (proj1 HtN eq_refl e mo.1.2 mo.2).
      * intros _ _ e' i o Hc'. by apply (Hmax e' i o).
Qed.

(** *** LoadModel *)

Lemma unused_drops (used : gset N) (s : t) (e : N * B) :
  e ∈ backends_ s -> BackendDelegate.node_id (e.2) ∉ used ->
  (unused ({[BackendDelegate.node_id (e.2)]} ∪ used) s < unused used s)%nat.
Proof.
  unfold unused. generalize (backends_ s) as l.
  induction l as [|a l IH]; intros Hin Hnew; [by apply elem_of_nil in Hin|].
  rewrite !filter_cons.
  apply elem_of_cons in Hin as [<-|Hin].
  - rewrite decide_False by set_solver. rewrite decide_True by done. simpl.
    apply Nat.lt_succ_r. clear IH. induction l as [|b l IH]; [done|].
    rewrite !filter_cons. repeat case_decide; simpl; try lia. set_solver.
  - specialize (IH Hin Hnew).
    repeat case_decide; simpl; try lia. set_solver.
Qed.


Lemma unused_le (used : gset N) (s : t) :
  (unused used s <= length (backends_ s))%nat.
Proof. unfold unused. apply length_filter. Qed.





(** *** BeaconCheck *)









Lemma beacon_aggregate_spec (history_len : nat) (table : list (string * nat)) :
  forall heap : gmap nat SessionInfo,
  (forall e, e ∈ table -> is_Some (heap !! e.2)) ->
  exists heap',
    beacon_aggregate history_len table heap = Ok heap' /\
    forall ptr,
      heap' !! ptr =
      Nat.iter (references ptr table) (tick history_len) <$> heap !! ptr.
Proof.
  induction table as [|[id p] table IH]; intros heap Hvalid; simpl.
  - exists heap. split; [done|]. intros ptr. by destruct (heap !! ptr).
  - destruct (Hvalid (id, p)) as [si Hsi]; [apply elem_of_cons; by left|].
    simpl in Hsi. rewrite Hsi. fold (tick history_len si).
    destruct (IH (<[p := tick history_len si]> heap)) as (heap' & Hrun & Hl).
    { intros e He. rewrite lookup_insert. case_decide; [by eexists|].
      apply Hvalid. apply elem_of_cons. by right. }
    exists heap'. split; [done|]. intros ptr. rewrite Hl.
    unfold references. rewrite filter_cons. simpl.
    rewrite lookup_insert. case_decide as Hp.
    + subst ptr. rewrite Hsi. simpl. by rewrite <- Nat.iter_succ_r.
    + done.
Qed.



(** *** EpochSchedule: the release pass *)

Lemma without_static_cons backends entry weights estimate_rps :
  without_static backends (entry :: weights) estimate_rps =
  without_static backends weights
    (if adjustable backends entry then estimate_rps else estimate_rps - entry.2).
Proof. done. Qed.

Lemma split_static_spec (backends : list (N * B)) (weights : list (N * Q)) :
  forall estimate_rps adjust,
  all_registered backends weights ->
  split_static weights backends estimate_rps adjust =
  Ok (without_static backends weights estimate_rps,
      adjust ++ filter (fun entry => adjustable backends entry = true) weights).
Proof.
  induction weights as [|[id weight] weights IH]; intros est adjust Hreg.
  - simpl. by rewrite app_nil_r.
  - destruct (Hreg (id, weight)) as [backend Hb]; [apply elem_of_cons; by left|].
    simpl in Hb.
    assert (adjustable backends (id, weight) =
            (BackendDelegate.workload_id backend <? 0)%Z) as Hadj
      by (unfold adjustable; simpl; by rewrite Hb).
    assert (all_registered backends weights) as Hreg'
      by (intros e He; apply Hreg, elem_of_cons; by right).
    cbn [split_static]. rewrite Hb, filter_cons, without_static_cons, Hadj.
    destruct (0 <=? BackendDelegate.workload_id backend)%Z eqn:E.
    + apply Z.leb_le in E.
      replace (BackendDelegate.workload_id backend <? 0)%Z with false
        by (symmetry; apply Z.ltb_ge; lia).
      rewrite decide_False by done. by apply IH.
    + apply Z.leb_gt in E.
      replace (BackendDelegate.workload_id backend <? 0)%Z with true
        by (symmetry; apply Z.ltb_lt; lia).
      rewrite decide_True by done. rewrite IH by done.
      by rewrite <- app_assoc.
Qed.


End scheduler.
End SchedulerFacts.

Module SchedulerClaims.
Import Scheduler SchedulerFacts.
Local Open Scope Q_scope.

Section claims.
Context {B I : Type} `{!BackendDelegate.ops B I} `{!Externals}
        `{!SessionOps} `{!StdSort}.

(** C7. [FindBestBackend] chooses among the registered backends with
    [workload_id < 0] that are not in the skip set, that are idle when the
    requested rate is about zero (within [1e-3] of it), and on which
    [PrepareLoadModel] succeeds. It returns none exactly when there is no
    such backend; otherwise it returns one of them together with the
    instance [PrepareLoadModel] produced for it. That backend has the
    maximum throughput among them when the rate is about zero or when none
    of them reaches the requested rate, and the maximum occupancy among them
    otherwise. *)
Theorem FindBestBackend_policy (s : @Scheduler.t B) (model_sess : ModelSession)
    (request_rate : Q) (skips : gset N) :
  let res := FindBestBackend model_sess request_rate skips s in
  (res.1 = None <->
     forall e i o, ~ eligible s model_sess request_rate skips e i o) /\
  (forall e, res.1 = Some e ->
     exists occ,
       eligible s model_sess request_rate skips e res.2 occ /\
       ((about_zero request_rate \/
         (forall e' i o, eligible s model_sess request_rate skips e' i o ->
            BackendDelegate.throughput i < request_rate)) ->
        forall e' i o, eligible s model_sess request_rate skips e' i o ->
          BackendDelegate.throughput i <= BackendDelegate.throughput res.2) /\
       (~ about_zero request_rate ->
        (exists e' i o, eligible s model_sess request_rate skips e' i o /\
           request_rate <= BackendDelegate.throughput i) ->
        forall e' i o, eligible s model_sess request_rate skips e' i o ->
          o <= occ)).
Proof.
  intros res.
  destruct (FindBestBackend_chooses s model_sess request_rate skips) as [Hnone Hsome].
  fold res in Hnone, Hsome. split.
  - rewrite Hnone. split; intros Hall e i o Hc; apply (Hall e i o);
      by apply eligible_candidate.
  - intros e He. destruct (Hsome e He) as (occ & Hc & Htp & Hocc).
    exists occ. split; [by apply eligible_candidate|]. split.
    + intros Hcase e' i o Hc'. apply (Htp) with (e' := e') (o := o).
      * destruct Hcase as [Hz|Hall]; [left; by apply near_zero_iff|].
        right. intros e2 i2 o2 Hc2. apply (Hall e2 i2 o2).
        by apply eligible_candidate.
      * by apply eligible_candidate.
    + intros Hnz (e2 & i2 & o2 & Hc2 & Hle) e' i o Hc'.
      apply (Hocc) with (e' := e') (i := i).
      * by apply not_near_zero_iff.
      * exists e2, i2, o2. split; [by apply eligible_candidate | done].
      * by apply eligible_candidate.
Qed.




(** C9, as the code has it. The dispatcher's [HandleRegister] answers a
    registration whose node id is taken with the conflict status of the node
    type and leaves the dispatcher as it was. The scheduler's
    [RegisterFrontend] and [RegisterBackend] have no reply: they assert with
    a [CHECK] that the id is free, so a registration whose id is taken
    aborts the process (and never reaches the insertion into the map). *)
Theorem registration_conflict :
  (forall (peer : list string) (ip : string)
          (request : Dispatcher.RegisterRequest)
          (reply : Dispatcher.RegisterReply) (d : Dispatcher.t),
     peer !! 1%nat = Some ip ->
     (Dispatcher.req_node_type request = Dispatcher.FRONTEND_NODE ->
      is_Some (Dispatcher.frontends_ d !! Dispatcher.req_node_id request) ->
      Dispatcher.HandleRegister peer request reply d =
      Ok (Dispatcher.reg_set_status CTRL_FRONTEND_NODE_ID_CONFLICT reply, d)) /\
     (Dispatcher.req_node_type request = Dispatcher.BACKEND_NODE ->
      is_Some (Dispatcher.backends_ d !! Dispatcher.req_node_id request) ->
      Dispatcher.HandleRegister peer request reply d =
      Ok (Dispatcher.reg_set_status CTRL_BACKEND_NODE_ID_CONFLICT reply, d))) /\
  (forall (frontend : FrontendDelegate) (s : @Scheduler.t B),
     is_Some (frontends_ s !! frontend_node_id frontend) ->
     RegisterFrontend frontend s = Fault CheckFailed) /\
  (forall (AddBackend : B -> @Scheduler.t B -> outcome (@Scheduler.t B))
          (backend : B) (s : @Scheduler.t B),
     is_Some (assoc_find (BackendDelegate.node_id backend) (backends_ s)) ->
     RegisterBackend AddBackend backend s = Fault CheckFailed).
Proof.
  split; [|split].
  - intros peer ip request reply d Hip. unfold Dispatcher.HandleRegister.
    rewrite Hip. split.
    + intros -> [f Hf]. simpl. by rewrite Hf.
    + intros -> [b Hb]. simpl. by rewrite Hb.
  - intros frontend s [f Hf]. unfold RegisterFrontend. by rewrite Hf.
  - intros AddBackend backend s [b Hb]. unfold RegisterBackend. by rewrite Hb.
Qed.

End claims.
End SchedulerClaims.

(* ===================================================================== *)
(** ** The claims on the sample cluster *)
(* ===================================================================== *)

Module SchedulerSamples.
Import Scheduler SchedulerFacts Samples.
Local Open Scope Q_scope.

Lemma weight_geb_total (a b : N * Q) :
  weight_geb a b = false -> by_weight_desc b a.
Proof.
  unfold weight_geb, by_weight_desc. intros E.
  apply Qle_bool_false in E. lra.
Qed.

Lemma insert_by_weight_perm (x : N * Q) (l : list (N * Q)) :
  insert_by_weight x l ≡ₚ x :: l.
Proof.
  induction l as [|y l IH]; simpl; [done|].
  destruct (weight_geb x y); [done|].
  rewrite IH. apply Permutation_swap.
Qed.

Lemma sort_by_weight_perm (l : list (N * Q)) : sort_by_weight l ≡ₚ l.
Proof.
  induction l as [|x l IH]; simpl; [done|].
  by rewrite insert_by_weight_perm, IH.
Qed.

Lemma insert_by_weight_sorted (x : N * Q) (l : list (N * Q)) :
  Sorted by_weight_desc l -> Sorted by_weight_desc (insert_by_weight x l).
Proof.
  induction 1 as [|y l Hs IH Hhd]; simpl.
  - by repeat constructor.
  - destruct (weight_geb x y) eqn:E.
    + constructor; [by constructor|]. constructor.
      by apply Qle_bool_iff in E.
    + constructor; [done|].
      apply weight_geb_total in E.
      destruct l as [|z l]; simpl in *.
      * by constructor.
      * destruct (weight_geb x z); constructor; [done|].
        by inversion Hhd.
Qed.

Lemma sort_by_weight_sorted (l : list (N * Q)) :
  Sorted by_weight_desc (sort_by_weight l).
Proof.
  induction l as [|x l IH]; simpl; [constructor|].
  by apply insert_by_weight_sorted.
Qed.

(** [FindBestBackend] on the sample cluster, for 50 rps: B2 could take it
    all, so the fuller backend B1 is chosen, for the 40 rps it has left. *)
Example FindBestBackend_cluster :
  FindBestBackend session 50 ∅ cluster =
  (Some (1%N, mkSim 1 (-1) 100 [("resnet", 60)] 0), mkSimInstance "resnet" 40).
Proof. by vm_compute. Qed.

End SchedulerSamples.

Module SchedulerWitnesses.
Import Scheduler SchedulerFacts SchedulerClaims Samples SchedulerSamples.
Local Open Scope Q_scope.

(** On the cluster with two idle backends and a rate of 0, the idle backend
    of the larger throughput is returned; on the sample cluster and 50 rps,
    which B2 can take in full, the backend of the larger occupancy is. *)
Lemma FindBestBackend_policy_witness :
  (exists occ,
     eligible cluster_idle session 0 ∅ (3%N, mkSim 3 (-1) 100 [] 0)
       (FindBestBackend session 0 ∅ cluster_idle).2 occ /\
     forall e' i o, eligible cluster_idle session 0 ∅ e' i o ->
       BackendDelegate.throughput i <=
       BackendDelegate.throughput (FindBestBackend session 0 ∅ cluster_idle).2) /\
  (exists occ,
     eligible cluster session 50 ∅ (1%N, mkSim 1 (-1) 100 [("resnet", 60)] 0)
       (FindBestBackend session 50 ∅ cluster).2 occ /\
     forall e' i o, eligible cluster session 50 ∅ e' i o -> o <= occ).
Proof.
  split.
  - destruct (FindBestBackend_policy cluster_idle session 0 ∅) as [_ Hsome].
    destruct (Hsome (3%N, mkSim 3 (-1) 100 [] 0) eq_refl)
      as (occ & Hc & Htp & _).
    exists occ. split; [assumption|]. apply Htp. left. by split.
  - destruct (FindBestBackend_policy cluster session 50 ∅) as [_ Hsome].
    destruct (Hsome (1%N, mkSim 1 (-1) 100 [("resnet", 60)] 0) eq_refl)
      as (occ & Hc & _ & Hocc).
    exists occ. split; [assumption|]. apply Hocc.
    + intros [_ Hlt]. vm_compute in Hlt. discriminate Hlt.
    + exists (2%N, mkSim 2 (-1) 100 [("resnet", 40)] 0),
        (mkSimInstance "resnet" 50), (90 # 100).
      split; [|by vm_compute].
      split; [apply elem_of_cons; right; apply elem_of_cons; by left|].
      split; [done|]. split; [apply not_elem_of_empty|].
      split; [|by vm_compute].
      intros [_ Hlt]. vm_compute in Hlt. discriminate Hlt.
Defined.





(** The tick on the sample cluster: the session offers 100 rps for 30 rps
    of demand, which is below the 0.8 band. *)
Example BeaconCheck_cluster : BeaconCheck cluster = Ok (true, cluster).
Proof. by vm_compute. Qed.



(** The release pass on the sample cluster: 30 rps of demand against 60 and
    40 rps; B1 is shrunk to 30 rps and the model is unloaded from B2. *)
Example EpochSchedule_adjust_cluster :
  EpochSchedule_adjust cluster =
  Ok (mkEpoch
        [(1%N, mkSim 1 (-1) 100 [("resnet", 30)] 0);
         (2%N, mkSim 2 (-1) 100 [] 0)]
        (<[0%nat := set_backend_weights [(1%N, 30)] resnet_info]> ∅)
        {[0%nat]} {[0%nat]} []).
Proof. by vm_compute. Qed.

(** A request for 50 rps is placed: 40 rps on B1, the fuller backend, and
    the remaining 10 rps on B2. *)
Example LoadModel_cluster :
  (fun res => (lm_status res.1,
               (fun route => (fun b => (node_id (info b), throughput b))
                               <$> backend_rate route) <$> lm_model_route res.1))
    <$> LoadModel load_request Scheduler.blank_reply cluster =
  Ok (CTRL_OK, Some [(1%N, 40); (2%N, 10)]).
Proof. by vm_compute. Qed.

Lemma registration_conflict_witness :
  Dispatcher.HandleRegister ["ipv4"; "10.0.0.1"; "5000"]
    (Dispatcher.mkRegisterRequest Dispatcher.BACKEND_NODE 1 "8001" "8002"
       "TITAN_X" "GPU-0" 1024)
    (Dispatcher.mkRegisterReply CTRL_OK 0) serving =
  Ok (Dispatcher.mkRegisterReply CTRL_BACKEND_NODE_ID_CONFLICT 0, serving) /\
  RegisterFrontend frontend1 cluster = Fault CheckFailed.
Proof.
  destruct (@registration_conflict SimBackend SimInstance _ _)
    as (Hd & Hf & _).
  split.
  - apply (Hd _ "10.0.0.1"); [reflexivity | reflexivity | by eexists].
  - apply Hf. by eexists.
Defined.

(** C9 as the specification words it fails for the scheduler: registering a
    frontend under an id that is taken does not return to the caller with
    the maps unchanged, it fails the [CHECK]. *)
Lemma scheduler_conflict_counterexample :
  ~ (forall (frontend : FrontendDelegate) (s : @Scheduler.t SimBackend),
       is_Some (frontends_ s !! frontend_node_id frontend) ->
       exists s', RegisterFrontend frontend s = Ok s' /\
                  frontends_ s' = frontends_ s).
Proof.
  intros H. destruct (H frontend1 cluster) as (s' & Hrun & _).
  - by eexists.
  - vm_compute in Hrun. discriminate Hrun.
Qed.

End SchedulerWitnesses.

(* ===================================================================== *)
(** * Further properties *)
(* ===================================================================== *)

(** ** The DRR route table *)

Module ModelRouteExt.
Import ModelRoute ModelRouteFacts.
Local Open Scope Q_scope.

(** A property of route tables that both kinds of loop iteration keep is
    kept by the whole call. *)
Lemma GetBackend_loop_invariant (P : t -> Prop) :
  (forall r b q, P r ->
     backends_ r !! current_drr_index_ r = Some b ->
     backend_quanta_ r !! backend_id b = Some q -> min_rate_ r <= q ->
     P (set_quantum (backend_id b) (q - min_rate_ r) r)) ->
  (forall r b q, P r ->
     backends_ r !! current_drr_index_ r = Some b ->
     backend_quanta_ r !! backend_id b = Some q -> q < min_rate_ r ->
     P (advance (set_quantum (backend_id b) (q + throughput b) r))) ->
  forall fuel i r res,
    P r -> GetBackend_loop fuel i r = Ok res ->
    P res.1.2 /\ exists b, b ∈ backends_ r /\ res.1.1 = info b.
Proof.
  intros Hserve Hrefill.
  induction fuel as [|fuel IH]; intros i r res HP; cbn [GetBackend_loop]; [done|].
  destruct (backends_ r !! current_drr_index_ r) as [b|] eqn:Eb; [|done].
  destruct (backend_quanta_ r !! backend_id b) as [q|] eqn:Eq; [|done].
  destruct (Qle_bool (min_rate_ r) q) eqn:Ecmp.
  - apply Qle_bool_iff in Ecmp. intros [= <-]. simpl. split; [by eapply Hserve|].
    exists b. split; [by eapply list_elem_of_lookup_2 | done].
  - apply Qle_bool_false in Ecmp.
    destruct (i <=? length (backends_ r))%nat; [|done].
    intros Hrun. apply IH in Hrun; [|by eapply Hrefill].
    destruct Hrun as [HP' (b' & Hb' & E)]. split; [done|]. by exists b'.
Qed.

Lemma GetBackend_keeps_route_ok (r : t) res :
  route_ok r -> GetBackend r = Ok res ->
  route_ok res.1.2 /\ same_table r res.1.2 /\
  exists b, b ∈ backends_ r /\ res.1.1 = info b.
Proof.
  intros Hok Hrun.
  unshelve epose proof (GetBackend_loop_invariant
              (fun r' => route_ok r' /\ same_table r r') _ _
              (length (backends_ r) + 2)%nat O r res _ Hrun) as [[H1 H2] H3].
  - intros r' b q [Hok' Hsame] Hb Hq _. split; [|done].
    destruct Hok' as [A B C]. split; simpl; [done| |done].
    intros b' Hb'. rewrite lookup_insert. case_decide; [by eexists | eauto].
  - intros r' b q [Hok' Hsame] Hb Hq _. split; [by apply route_ok_refill|].
    destruct Hsame as (?&?&?&?). by repeat split.
  - split; [done|]. by repeat split.
  - done.
Qed.

Lemma GetBackend_keeps_nonneg (r : t) res :
  (forall b, b ∈ backends_ r -> 0 <= throughput b) ->
  quanta_nonneg r -> GetBackend r = Ok res -> quanta_nonneg res.1.2.
Proof.
  intros Hpos Hnn Hrun.
  unshelve epose proof (GetBackend_loop_invariant
              (fun r' => quanta_nonneg r' /\ backends_ r' = backends_ r) _ _
              (length (backends_ r) + 2)%nat O r res _ Hrun) as [[H1 H2] H3];
    [| |done|done].
  - intros r' b q [Hnn' Hbs] Hb Hq Hle. split; [|done].
    intros id q'. simpl. rewrite lookup_insert. case_decide.
    + intros [= <-]. lra.
    + apply Hnn'.
  - intros r' b q [Hnn' Hbs] Hb Hq Hlt. split; [|done].
    intros id q'. simpl. rewrite lookup_insert. case_decide.
    + intros [= <-]. pose proof (Hnn' _ _ Hq).
      assert (0 <= throughput b); [|lra].
      apply Hpos. rewrite <- Hbs. by eapply list_elem_of_lookup_2.
    + apply Hnn'.
Qed.

Lemma first_index_NoDup (bs : list BackendRateProto) (i : nat) (b : BackendRateProto) :
  NoDup (backend_id <$> bs) -> bs !! i = Some b ->
  first_index (backend_id b) bs = Some i.
Proof.
  revert i. induction bs as [|a bs IH]; intros i Hnd Hb; [done|].
  simpl in *. apply NoDup_cons in Hnd as [Ha Hnd].
  destruct i as [|i]; simpl in Hb.
  - injection Hb as ->. by rewrite decide_True.
  - rewrite decide_False.
    + by rewrite (IH i Hnd Hb).
    + intros Heq. apply Ha. rewrite Heq. apply list_elem_of_fmap_2.
      by eapply list_elem_of_lookup_2.
Qed.

Lemma distinct_ids_inj (bs : list BackendRateProto) (a b : BackendRateProto) :
  distinct_ids bs -> a ∈ bs -> b ∈ bs -> backend_id a = backend_id b -> a = b.
Proof.
  unfold distinct_ids. induction bs as [|x bs IH]; intros Hnd Ha Hb E.
  - by apply elem_of_nil in Ha.
  - simpl in Hnd. apply NoDup_cons in Hnd as [Hx Hnd].
    apply elem_of_cons in Ha as [->|Ha]; apply elem_of_cons in Hb as [->|Hb];
      [done| | |by apply IH].
    + exfalso. apply Hx. rewrite E. by apply list_elem_of_fmap_2.
    + exfalso. apply Hx. rewrite <- E. by apply list_elem_of_fmap_2.
Qed.

Lemma DBL_MAX_pos : 0 < DBL_MAX.
Proof. by vm_compute. Qed.

Lemma min_throughput_pos (bs : list BackendRateProto) :
  rates_positive bs -> 0 < min_throughput bs.
Proof.
  intros Hpos. unfold min_throughput.
  destruct (fold_min_attained bs DBL_MAX) as [-> | (b & Hb & ->)].
  - apply DBL_MAX_pos.
  - by apply Hpos.
Qed.

Lemma GetBackend_keeps_bounded (r : t) res :
  distinct_ids (backends_ r) -> 0 <= min_rate_ r ->
  quanta_bounded r -> GetBackend r = Ok res -> quanta_bounded res.1.2.
Proof.
  intros Hnd Hmin Hbd Hrun.
  unshelve epose proof (GetBackend_loop_invariant
              (fun r' => quanta_bounded r' /\ backends_ r' = backends_ r /\
                         min_rate_ r' = min_rate_ r) _ _
              (length (backends_ r) + 2)%nat O r res _ Hrun) as [[H1 H2] H3];
    [| |done|done].
  - intros r' b q (Hbd' & Hbs & Hm) Hl Hq Hle. split; [|done].
    assert (b ∈ backends_ r') as Hin by (by eapply list_elem_of_lookup_2).
    intros b' q' Hin'. simpl in *. rewrite lookup_insert. case_decide as Hid.
    + intros [= <-].
      assert (b = b') as <-.
      { apply (distinct_ids_inj (backends_ r));
          [done | by rewrite <- Hbs | by rewrite <- Hbs | done]. }
      pose proof (Hbd' b q Hin Hq). rewrite Hm in *. lra.
    + by apply Hbd'.
  - intros r' b q (Hbd' & Hbs & Hm) Hl Hq Hlt. split; [|done].
    assert (b ∈ backends_ r') as Hin by (by eapply list_elem_of_lookup_2).
    intros b' q' Hin'. simpl in *. rewrite lookup_insert. case_decide as Hid.
    + intros [= <-].
      assert (b = b') as <-.
      { apply (distinct_ids_inj (backends_ r));
          [done | by rewrite <- Hbs | by rewrite <- Hbs | done]. }
      lra.
    + by apply Hbd'.
Qed.

Lemma GetBackend_n_invariant (P : t -> Prop) :
  (forall r res, P r -> GetBackend r = Ok res -> P res.1.2) ->
  forall n r res, P r -> GetBackend_n n r = Ok res -> P res.2.
Proof.
  intros HP. induction n as [|n IH]; intros r res Hr; simpl.
  - by intros [= <-].
  - destruct (GetBackend r) as [res1|] eqn:E1; simpl; [|done].
    destruct (GetBackend_n n res1.1.2) as [rest|] eqn:E2; simpl; [|done].
    intros [= <-]. simpl. eapply IH; [|done]. by eapply HP.
Qed.

(** The quanta [Update] hands out on a table that holds none for the
    listed backends are the rates themselves. *)
Lemma Update_fresh_quanta (route : ModelRouteProto) (r r' : t) (b : BackendRateProto) :
  Update route r = Ok r' -> distinct_ids (backend_rate route) ->
  b ∈ backend_rate route -> backend_quanta_ r !! backend_id b = None ->
  backend_quanta_ r' !! backend_id b = Some (throughput b).
Proof.
  intros HU Hnd Hb Hq. rewrite (Update_quanta _ _ _ _ HU).
  by rewrite (first_rate_NoDup _ _ Hnd Hb), Hq.
Qed.

Lemma Update_backends (route : ModelRouteProto) (r r' : t) :
  Update route r = Ok r' ->
  backends_ r' = backend_rate route /\
  min_rate_ r' = min_throughput (backend_rate route).
Proof.
  unfold Update. destruct (backends_ r) as [|b0 bs0]; simpl.
  - by intros [= <-].
  - destruct (_ !! current_drr_index_ r); simpl; [|done]. by intros [= <-].
Qed.

(** Under the representation invariant the two lookups of the loop
    succeed: a call can only fail on an empty list or at the [CHECK_LE]. *)
Lemma GetBackend_loop_faults (fuel i : nat) (r : t) (f : fault) :
  route_ok r -> backends_ r ≠ [] ->
  GetBackend_loop fuel i r = Fault f -> f = CheckFailed \/ f = LoopFuel.
Proof.
  revert i r. induction fuel as [|fuel IH]; intros i r Hok Hne;
    cbn [GetBackend_loop]; [intros [= <-]; by right|].
  destruct (lookup_lt_is_Some_2 _ _ (ok_index r Hok Hne)) as [b Hb]. rewrite Hb.
  destruct (ok_quanta r Hok b) as [q Hq]; [by eapply list_elem_of_lookup_2|].
  rewrite Hq. destruct (Qle_bool (min_rate_ r) q); [done|].
  destruct (i <=? length (backends_ r))%nat; [|intros [= <-]; by left].
  apply IH; [by apply route_ok_refill | done].
Qed.

(** X1. Applying the same route a second time changes nothing, when the
    route lists every backend id once: [Update] is idempotent. *)
Theorem Update_idempotent (route : ModelRouteProto) (r r1 : t)
    (Hdistinct : distinct_ids (backend_rate route))
    (HU : Update route r = Ok r1) :
  Update route r1 = Ok r1.
Proof.
  pose proof (Update_establishes _ _ _ HU) as Hok1.
  assert (index_valid r) as Hv.
  { intros Hne. revert HU. unfold Update.
    destruct (backends_ r) as [|x l] eqn:E; [done|].
    destruct ((x :: l) !! current_drr_index_ r) eqn:El; [|done].
    intros _. by apply lookup_lt_Some in El. }
  pose proof (Update_eq route r Hv) as E. rewrite HU in E. injection E as E.
  pose proof (ok_index r1 Hok1) as Hi.
  rewrite (Update_eq route r1 Hi). subst r1. simpl in *.
  f_equal. f_equal.
  - (* the quanta *)
    apply map_eq. intros id.
    rewrite !lookup_drop_old, !give_quantum_idx, !give_quantum_quanta. simpl.
    rewrite !lookup_drop_old, !give_quantum_idx, !give_quantum_quanta. simpl.
    rewrite !lookup_empty, !first_rate_index.
    destruct (first_index id (backend_rate route)) as [i|] eqn:Ei; simpl; [|done].
    destruct (first_index_Some _ _ _ Ei) as (b & -> & _). simpl.
    by destruct (backend_quanta_ r !! id).
  - (* the index *)
    unfold saved_id at 1. simpl.
    destruct (backend_rate route) as [|x l] eqn:El.
    + simpl. by destruct (first_index (saved_id r) []).
    + specialize (Hi ltac:(done)).
      destruct (lookup_lt_is_Some_2 _ _ Hi) as [b Hlb]. rewrite Hlb.
      rewrite <- El in *.
      by rewrite (first_index_NoDup _ _ _ Hdistinct Hlb).
Qed.


(** X2. The deficit bound of the round robin. After [Update] has installed
    a route with distinct backend ids and positive rates on a table that
    held no quantum for them, any number of [GetBackend] calls leaves every
    quantum in the interval from 0 up to, but excluding, the backend's rate
    plus [min_rate_]. *)
Theorem DRR_deficit_bounded (route : ModelRouteProto) (r r0 : t) (n : nat)
    (res : list BackendInfo * t)
    (Hdistinct : distinct_ids (backend_rate route))
    (Hpos : rates_positive (backend_rate route))
    (Hfresh : backend_quanta_ r = ∅)
    (HU : Update route r = Ok r0)
    (Hrun : GetBackend_n n r0 = Ok res) :
  backends_ res.2 = backend_rate route /\
  forall b, b ∈ backend_rate route ->
    exists q, backend_quanta_ res.2 !! backend_id b = Some q /\
      0 <= q < throughput b + min_throughput (backend_rate route).
Proof.
  destruct (Update_backends _ _ _ HU) as [Hbs Hmin].
  pose proof (min_throughput_pos _ Hpos) as Hmpos.
  assert (quanta_nonneg r0) as Hnn0.
  { eapply Update_nonneg; [done| |].
    - intros b Hb. apply Qlt_le_weak. by apply Hpos.
    - intros id q. by rewrite Hfresh, lookup_empty. }
  assert (quanta_bounded r0) as Hbd0.
  { intros b q Hb. rewrite Hbs in Hb.
    rewrite (Update_fresh_quanta _ _ _ b HU Hdistinct Hb)
      by (by rewrite Hfresh, lookup_empty).
    intros [= <-]. rewrite Hmin. lra. }
  pose proof (GetBackend_n_invariant
                (fun r' => (route_ok r' /\ same_table r0 r') /\
                           quanta_nonneg r' /\ quanta_bounded r')) as Hinv.
  destruct (Hinv) with (n := n) (r := r0) (res := res)
    as ((Hok & Hsame) & Hnn & Hbd); [| |done|].
  - intros r' res' ((Hok' & Hsame') & Hnn' & Hbd') Hg.
    destruct Hsame' as (Hs1 & Hs2 & Hs3 & Hs4).
    destruct (GetBackend_keeps_route_ok r' res' Hok' Hg)
      as (Hok'' & (Ht1 & Ht2 & Ht3 & Ht4) & _).
    split; [split; [done|]|split].
    + repeat split; congruence.
    + apply (GetBackend_keeps_nonneg r'); [|done|done].
      intros b Hb. apply Qlt_le_weak. apply Hpos. by rewrite <- Hbs, <- Hs2.
    + apply (GetBackend_keeps_bounded r'); [| |done|done].
      * by rewrite Hs2, Hbs.
      * rewrite Hs4, Hmin. by apply Qlt_le_weak.
  - split; [split; [by eapply Update_establishes|by repeat split]|done].
  - destruct Hsame as (_ & Hs2 & _ & Hs4). split; [congruence|].
    intros b Hb.
    destruct (ok_quanta _ Hok b) as [q Hq]; [by rewrite Hs2, Hbs|].
    exists q. split; [done|]. split; [by eapply Hnn|].
    rewrite <- Hmin, <- Hs4. apply Hbd; [by rewrite Hs2, Hbs | done].
Qed.

(** X3. What a call of [GetBackend] that returns leaves alone: the backend
    list, the total and the minimum rate stay as they are, the backend
    returned is one of the list, the loop ran at most two iterations more
    than there are backends, and the quantum of an id that is not listed is
    neither changed, created nor removed. *)
Theorem GetBackend_frame (r : t) (res : BackendInfo * t * nat)
    (Hrun : GetBackend r = Ok res) :
  same_table r res.1.2 /\
  (exists b, b ∈ backends_ r /\ res.1.1 = info b) /\
  (1 <= res.2 <= length (backends_ r) + 2)%nat /\
  forall id, (forall b, b ∈ backends_ r -> backend_id b ≠ id) ->
    backend_quanta_ res.1.2 !! id = backend_quanta_ r !! id.
Proof.
  unshelve epose proof (GetBackend_loop_invariant
     (fun r' => same_table r r' /\
        forall id, (forall b, b ∈ backends_ r -> backend_id b ≠ id) ->
          backend_quanta_ r' !! id = backend_quanta_ r !! id) _ _
     (length (backends_ r) + 2)%nat O r res _ Hrun) as [[H1 H2] H3].
  - intros r' b q [Hsame Hq'] Hb Hq _. split; [done|].
    intros id Hid. simpl. rewrite lookup_insert_ne; [by apply Hq'|].
    apply Hid. destruct Hsame as (_ & <- & _). by eapply list_elem_of_lookup_2.
  - intros r' b q [Hsame Hq'] Hb Hq _. split.
    + destruct Hsame as (?&?&?&?). by repeat split.
    + intros id Hid. simpl. rewrite lookup_insert_ne; [by apply Hq'|].
      apply Hid. destruct Hsame as (_ & <- & _). by eapply list_elem_of_lookup_2.
  - split; [by repeat split | done].
  - split; [done|]. split; [done|]. split; [|done].
    destruct res as [[b r'] m]. simpl.
    pose proof (GetBackend_loop_counter _ _ _ _ _ _ Hrun) as Hlow.
    split; [lia|].
    clear -Hrun. unfold GetBackend in Hrun.
    assert (forall fuel i r0, GetBackend_loop fuel i r0 = Ok (b, r', m) ->
              (m <= i + fuel)%nat) as Hup.
    { induction fuel as [|fuel IH]; intros i r0; cbn [GetBackend_loop]; [done|].
      destruct (backends_ r0 !! current_drr_index_ r0) as [x|]; [|done].
      destruct (backend_quanta_ r0 !! backend_id x) as [q|]; [|done].
      destruct (Qle_bool (min_rate_ r0) q).
      - intros [= _ _ <-]. lia.
      - destruct (i <=? length (backends_ r0))%nat; [|done].
        intros Hr. apply IH in Hr. lia. }
    apply Hup in Hrun. lia.
Qed.


End ModelRouteExt.

Module ModelRouteExtWitnesses.
Import ModelRoute ModelRouteFacts ModelRouteSamples ModelRouteExt Samples.
Local Open Scope Q_scope.

Lemma rate21_distinct : distinct_ids (backend_rate rate21).
Proof. unfold distinct_ids. apply (bool_decide_unpack _). by vm_compute. Qed.

Lemma rate21_positive : rates_positive (backend_rate rate21).
Proof.
  intros b Hb. simpl in Hb.
  apply elem_of_cons in Hb as [->|Hb]; [done|].
  apply list_elem_of_singleton in Hb as ->. done.
Qed.

Lemma table21_quanta_nonneg : quanta_nonneg table21.
Proof.
  apply (Update_nonneg rate21 init table21 table21_from_Update).
  - intros b Hb. apply Qlt_le_weak. by apply rate21_positive.
  - intros id q Hq. cbn in Hq. by rewrite lookup_empty in Hq.
Qed.

Lemma Update_idempotent_witness : Update rate21 table21 = Ok table21.
Proof.
  exact (Update_idempotent rate21 init table21 rate21_distinct
           table21_from_Update).
Defined.

Lemma DRR_deficit_bounded_witness :
  backends_ table21_spent = backend_rate rate21 /\
  forall b, b ∈ backend_rate rate21 ->
    exists q, backend_quanta_ table21_spent !! backend_id b = Some q /\
      0 <= q < throughput b + min_throughput (backend_rate rate21).
Proof.
  refine (DRR_deficit_bounded rate21 init table21 1
            ([backend 1], table21_spent) rate21_distinct
            rate21_positive eq_refl table21_from_Update _).
  by vm_compute.
Defined.

Lemma GetBackend_frame_witness :
  same_table table21 table21_spent /\
  (exists b, b ∈ backends_ table21 /\ backend 1 = info b) /\
  (1 <= 1 <= length (backends_ table21) + 2)%nat /\
  forall id, (forall b, b ∈ backends_ table21 -> backend_id b ≠ id) ->
    backend_quanta_ table21_spent !! id = backend_quanta_ table21 !! id.
Proof.
  exact (GetBackend_frame table21 (backend 1, table21_spent, 1%nat)
           table21_spent_from_GetBackend).
Defined.


End ModelRouteExtWitnesses.

(* ===================================================================== *)
(** ** The dispatcher, continued *)
(* ===================================================================== *)

Module DispatcherExtFacts.
Import Dispatcher DispatcherExt DispatcherFacts.

Section with_env.
Context `{!Externals}.

Lemma EnqueueBatchPlan_instance id plan (backend : BackendDelegate) :
  GetInstanceInfo id (EnqueueBatchPlan plan backend) = GetInstanceInfo id backend.
Proof. done. Qed.

(** A dispatch on a session the dispatcher serves. *)
Lemma DispatchRequest_on_served sched_now now dispatch_now q reply d :
  serves d (query_model_session_id q) ->
  exists b route route' n backend inst,
    models_ d !! query_model_session_id q = Some route /\
    ModelRoute.GetBackend route = Ok (info b, route', n) /\
    b ∈ ModelRoute.backends_ route /\
    ModelRoute.same_table route route' /\
    ModelRoute.route_ok route' /\ ModelRoute.quanta_nonneg route' /\
    backends_ d !! ModelRoute.backend_id b = Some backend /\
    GetInstanceInfo (query_model_session_id q) backend = Some inst /\
    DispatchRequest sched_now now dispatch_now q reply d =
    Ok (set_status CTRL_OK reply,
        set_backends
          (<[ModelRoute.backend_id b :=
               EnqueueBatchPlan
                 (build_plan (next_plan_id_ d) now dispatch_now inst
                    (set_global_id (next_global_id_ d) (set_sched_ns sched_now q)))
                 backend]> (backends_ d))
          (take_plan_id
             (set_models (<[query_model_session_id q := route']> (models_ d))
                         (take_global_id d).2)).2).
Proof.
  intros (route & Hr & Hok & Hnn & Hne & Hpos & Hdel).
  destruct (ModelRouteFacts.GetBackend_returns route Hok Hne Hpos Hnn)
    as (b & route' & n & Hg & Hb & _ & Hsame & Hok' & Hnn').
  destruct (Hdel b Hb) as (backend & inst & Hbk & Hinst).
  exists b, route, route', n, backend, inst. repeat (split; [done|]).
  unfold DispatchRequest. cbn [take_global_id]. simpl.
  rewrite Hr, Hg. simpl. unfold ModelRoute.backend_id in Hbk.
  by rewrite Hbk, Hinst.
Qed.


(** *** [UpdateModelRoutes] *)

Lemma init_index_valid : ModelRoute.index_valid ModelRoute.init.
Proof. intros Hx. by destruct Hx. Qed.

Lemma Update_total (route : ModelRouteProto) (r : ModelRoute.t) :
  ModelRoute.index_valid r ->
  exists r', ModelRoute.Update route r = Ok r' /\
    ModelRoute.route_ok r' /\
    ModelRoute.model_session_id_ r' = model_session_id route /\
    ModelRoute.backends_ r' = backend_rate route /\
    ModelRoute.min_rate_ r' = ModelRoute.min_throughput (backend_rate route) /\
    ModelRoute.total_throughput_ r' = ModelRoute.sum_throughput (backend_rate route).
Proof.
  intros Hv. pose proof (ModelRouteFacts.Update_eq route r Hv) as E.
  eexists. split; [exact E|]. split; [|done].
  by eapply ModelRouteFacts.Update_establishes.
Qed.

Lemma update_routes_spec (routes : list ModelRouteProto) :
  forall models,
  (forall id r, models !! id = Some r -> ModelRoute.index_valid r) ->
  exists models',
    update_routes routes models = Ok models' /\
    (forall id r, models' !! id = Some r -> ModelRoute.index_valid r) /\
    forall id,
      match last_route id routes with
      | Some route =>
          exists r, models' !! id = Some r /\
            ModelRoute.route_ok r /\
            ModelRoute.model_session_id_ r = id /\
            ModelRoute.backends_ r = backend_rate route /\
            ModelRoute.min_rate_ r = ModelRoute.min_throughput (backend_rate route) /\
            ModelRoute.total_throughput_ r =
              ModelRoute.sum_throughput (backend_rate route)
      | None => models' !! id = models !! id
      end.
Proof.
  induction routes as [|route rest IH]; intros models Hv; simpl.
  - by exists models.
  - destruct (Update_total route
                (default ModelRoute.init (models !! model_session_id route)))
      as (r & HU & Hok & Hid & Hbs & Hmin & Htot).
    { destruct (models !! model_session_id route) as [r0|] eqn:E; simpl.
      - by eapply Hv.
      - apply init_index_valid. }
    rewrite HU. simpl.
    destruct (IH (<[model_session_id route := r]> models))
      as (models' & Hrun & Hv' & Hspec).
    { intros id r0. rewrite lookup_insert. case_decide.
      - intros [= <-]. exact (ModelRoute.ok_index r Hok).
      - apply Hv. }
    exists models'. split; [done|]. split; [done|].
    intros id. specialize (Hspec id).
    destruct (last_route id rest) as [rt|]; [done|].
    rewrite Hspec, lookup_insert. case_decide as Hsid; [|done].
    exists r. by rewrite <- Hsid.
Qed.

Lemma routes_valid_index (d : t) :
  routes_valid d ->
  forall id r, models_ d !! id = Some r -> ModelRoute.index_valid r.
Proof. intros Hv id r Hr. exact (ModelRoute.ok_index r (Hv id r Hr)). Qed.

Lemma last_route_Some id routes route :
  last_route id routes = Some route ->
  route ∈ routes /\ model_session_id route = id.
Proof.
  induction routes as [|x rest IH]; simpl; [done|].
  destruct (last_route id rest) as [rt|].
  - intros [= <-]. destruct IH as [Hin Hid]; [done|].
    split; [by apply elem_of_cons; right | done].
  - case_decide; [|done]. intros [= <-]. split; [by apply elem_of_cons; left|done].
Qed.

Lemma last_route_None id routes :
  last_route id routes = None <->
  forall route, route ∈ routes -> model_session_id route ≠ id.
Proof.
  induction routes as [|x rest IH]; simpl.
  - split; [|done]. intros _ route Hr. by apply elem_of_nil in Hr.
  - destruct (last_route id rest) as [rt|] eqn:E.
    + split; [done|]. intros Hall.
      destruct (last_route_Some _ _ _ E) as [Hin Hid].
      exfalso. apply (Hall rt); [by apply elem_of_cons; right | done].
    + case_decide as Hid.
      * split; [done|]. intros Hall. exfalso.
        apply (Hall x); [by apply elem_of_cons; left | done].
      * split; [|done]. intros _ route Hr.
        apply elem_of_cons in Hr as [->|Hr]; [done|]. by apply IH.
Qed.

(** *** [HandleRegister] *)

Lemma load_session_step reply backend sessions e reply1 backend1 sessions1 :
  load_session (reply, backend, sessions) e = (reply1, backend1, sessions1) ->
  backend_info backend1 = backend_info backend /\
  (forall id, is_Some (sessions1 !! id) -> is_Some (sessions !! id) \/ id = e.1) /\
  (forall id, is_Some (instances backend !! id) ->
     is_Some (instances backend1 !! id)) /\
  (has_profile (ctx_model_session e.2) backend ->
     is_Some (GetInstanceInfo
                (ModelSessionToString (ctx_model_session e.2)) backend1)).
Proof.
  unfold load_session, has_profile.
  destruct (GetModelProfile _ _ _) as [p|]; intros [= <- <- <-]; simpl.
  - split; [done|]. split; [|split].
    + intros id. rewrite lookup_insert. case_decide; [by right | by left].
    + intros id Hid. rewrite lookup_insert. case_decide; [by eexists | done].
    + intros _. unfold GetInstanceInfo. simpl. rewrite lookup_insert_eq. by eexists.
  - split; [done|]. split; [by left|]. split; [done|]. by intros [? ?].
Qed.

Lemma has_profile_info ms (b b' : BackendDelegate) :
  backend_info b' = backend_info b -> has_profile ms b -> has_profile ms b'.
Proof. unfold has_profile. by intros ->. Qed.

Lemma load_sessions_spec (l : list (string * ModelSessionContext)) :
  forall reply backend sessions,
  let res := fold_left load_session l (reply, backend, sessions) in
  backend_info res.1.2 = backend_info backend /\
  (forall id, is_Some (res.2 !! id) ->
     is_Some (sessions !! id) \/ id ∈ l.*1) /\
  (forall id, is_Some (instances backend !! id) ->
     is_Some (instances res.1.2 !! id)) /\
  (forall entry, entry ∈ l ->
     has_profile (ctx_model_session entry.2) backend ->
     is_Some (GetInstanceInfo
                (ModelSessionToString (ctx_model_session entry.2)) res.1.2)).
Proof.
  induction l as [|e l IH]; intros reply backend sessions res; subst res;
    cbn [fold_left].
  - simpl. split; [done|]. split; [by left|]. split; [done|].
    intros entry He. by apply elem_of_nil in He.
  - destruct (load_session (reply, backend, sessions) e)
      as [[reply1 backend1] sessions1] eqn:Estep.
    destruct (load_session_step _ _ _ _ _ _ _ Estep) as (S1 & S2 & S3 & S4).
    destruct (IH reply1 backend1 sessions1) as (H1 & H2 & H3 & H4).
    split; [by rewrite H1|]. split; [|split].
    + intros id Hid. destruct (H2 id Hid) as [Hs|Hin].
      * destruct (S2 id Hs) as [?| ->]; [by left|].
        right. simpl. apply elem_of_cons. by left.
      * right. simpl. apply elem_of_cons. by right.
    + intros id Hid. by apply H3, S3.
    + intros entry He Hp. apply elem_of_cons in He as [->|He].
      * apply H3. by apply S4.
      * apply H4; [done|]. by eapply has_profile_info.
Qed.


(** *** [HandleLoadModel] *)

Lemma load_on_backend_step ms status backends sctx (e : N * BackendDelegate) :
  let res := load_on_backend ms (ModelSessionToString ms) (status, backends, sctx) e in
  ctx_model_session res.2 = ctx_model_session sctx /\
  (has_profile ms e.2 ->
     res.1.1 = status /\ res.1.2 = <[e.1 := loaded_delegate ms e.2]> backends) /\
  (~ has_profile ms e.2 ->
     res.1.1 = CTRL_INVALID_LOAD_MODEL_REQUEST /\ res.1.2 = backends /\
     loaded_delegate ms e.2 = e.2).
Proof.
  unfold load_on_backend, loaded_delegate, has_profile.
  destruct (GetModelProfile _ _ _) as [p|]; simpl.
  - split; [done|]. split; [done|]. intros Hn. destruct Hn. by eexists.
  - split; [done|]. split; [|done]. by intros [? ?].
Qed.

Lemma load_on_backends_spec ms (l : list (N * BackendDelegate)) :
  NoDup l.*1 ->
  forall status backends sctx,
  (forall e, e ∈ l -> backends !! e.1 = Some e.2) ->
  let res := fold_left (load_on_backend ms (ModelSessionToString ms)) l
               (status, backends, sctx) in
  ctx_model_session res.2 = ctx_model_session sctx /\
  (forall k, k ∉ l.*1 -> res.1.2 !! k = backends !! k) /\
  (forall e, e ∈ l -> res.1.2 !! e.1 = Some (loaded_delegate ms e.2)) /\
  ((forall e, e ∈ l -> has_profile ms e.2) -> res.1.1 = status) /\
  ((exists e, e ∈ l /\ ~ has_profile ms e.2) ->
     res.1.1 = CTRL_INVALID_LOAD_MODEL_REQUEST) /\
  (status = CTRL_INVALID_LOAD_MODEL_REQUEST ->
     res.1.1 = CTRL_INVALID_LOAD_MODEL_REQUEST) /\
  (res.1.1 = status \/ res.1.1 = CTRL_INVALID_LOAD_MODEL_REQUEST).
Proof.
  induction l as [|e l IH]; intros Hnd status backends sctx Hl res; subst res;
    cbn [fold_left].
  - simpl. split_and!; try done.
    + intros e He. by apply elem_of_nil in He.
    + intros (e & He & _). by apply elem_of_nil in He.
    + by left.
  - simpl in Hnd. apply NoDup_cons in Hnd as [He Hnd].
    pose proof (load_on_backend_step ms status backends sctx e) as Hstep.
    destruct (load_on_backend ms (ModelSessionToString ms)
                (status, backends, sctx) e) as [[status1 backends1] sctx1].
    simpl in Hstep. destruct Hstep as (S0 & S1 & S2).
    assert (backends1 !! e.1 = Some (loaded_delegate ms e.2) /\
            forall k, k ≠ e.1 -> backends1 !! k = backends !! k) as [Se Sne].
    { destruct (decide (has_profile ms e.2)) as [Hp|Hp].
      - destruct (S1 Hp) as [_ ->]. split; [by rewrite lookup_insert_eq|].
        intros k Hk. by rewrite lookup_insert_ne.
      - destruct (S2 Hp) as (_ & -> & ->). split; [|done].
        apply Hl. apply elem_of_cons. by left. }
    destruct (IH Hnd status1 backends1 sctx1)
      as (H0 & H1 & H2 & H3 & H4 & H5 & H6).
    { intros e' He'. rewrite Sne.
      - apply Hl. apply elem_of_cons. by right.
      - intros Hk. apply He. rewrite <- Hk. by apply list_elem_of_fmap_2. }
    split_and!.
    + by rewrite H0.
    + intros k Hk. rewrite H1.
      * apply Sne. intros ->. apply Hk. simpl. apply elem_of_cons. by left.
      * intros Hin. apply Hk. simpl. apply elem_of_cons. by right.
    + intros e' He'. apply elem_of_cons in He' as [->|He']; [|by apply H2].
      by rewrite H1.
    + intros Hall. rewrite H3.
      * apply S1. apply Hall. apply elem_of_cons. by left.
      * intros e' He'. apply Hall. apply elem_of_cons. by right.
    + intros (e' & He' & Hp). apply elem_of_cons in He' as [->|He'].
      * apply H5. by apply S2.
      * apply H4. by exists e'.
    + intros ->. apply H5.
      destruct (decide (has_profile ms e.2)) as [Hp|Hp];
        [by apply S1 | by apply S2].
    + destruct (decide (has_profile ms e.2)) as [Hp|Hp].
      * destruct (S1 Hp) as [<- _]. done.
      * right. apply H5. by apply S2.
Qed.

Lemma HandleLoadModel_fresh ms d info :
  GetModelInfo (ModelSessionToModelID ms) = Some info ->
  sessions_ d !! ModelSessionToString ms = None ->
  models_ d !! ModelSessionToString ms = None ->
  exists status sctx route,
    HandleLoadModel ms d =
    Ok (status,
        mk (frontends_ d) (loaded_delegate ms <$> backends_ d)
           (<[ModelSessionToString ms := sctx]> (sessions_ d))
           (<[ModelSessionToString ms := route]> (models_ d))
           (next_global_id_ d) (next_plan_id_ d) (beacon_interval_sec_ d)) /\
    ctx_model_session sctx = ms /\
    ModelRoute.Update (uniform_route (ModelSessionToString ms) (backends_ d))
                      ModelRoute.init = Ok route /\
    ((forall id b, backends_ d !! id = Some b -> has_profile ms b) ->
       status = CTRL_OK) /\
    (forall id b, backends_ d !! id = Some b -> ~ has_profile ms b ->
       status = CTRL_INVALID_LOAD_MODEL_REQUEST) /\
    (status = CTRL_OK \/ status = CTRL_INVALID_LOAD_MODEL_REQUEST).
Proof.
  intros Hinfo Hs Hm. unfold HandleLoadModel. rewrite Hinfo, Hs, Hm.
  destruct (Update_total (uniform_route (ModelSessionToString ms) (backends_ d))
              ModelRoute.init init_index_valid) as (route & HU & _).
  rewrite HU. simpl.
  pose proof (load_on_backends_spec ms (map_to_list (backends_ d))
                (NoDup_fst_map_to_list _) CTRL_OK (backends_ d)
                (mkSessionContext ms ∅)) as Hspec.
  destruct (fold_left _ _ _) as [[status backends] sctx].
  destruct Hspec as (H0 & H1 & H2 & H3 & H4 & _ & H6).
  { intros [k v] He. by apply elem_of_map_to_list in He. }
  simpl in *. exists status, sctx, route.
  assert (backends = loaded_delegate ms <$> backends_ d) as ->.
  { apply map_eq. intros k. rewrite lookup_fmap.
    destruct (backends_ d !! k) as [v|] eqn:Ek; simpl.
    - apply (H2 (k, v)). by apply elem_of_map_to_list.
    - rewrite H1, Ek; [done|]. intros Hin.
      apply list_elem_of_fmap in Hin as ([k' v'] & -> & Hin).
      apply elem_of_map_to_list in Hin. simpl in Ek. congruence. }
  split; [done|]. split; [done|]. split; [done|]. split; [|split; [|done]].
  - intros Hall. apply H3. intros [k v] He. apply elem_of_map_to_list in He.
    by eapply Hall.
  - intros id b Hb Hp. apply H4. exists (id, b). split; [|done].
    by apply elem_of_map_to_list.
Qed.

Lemma loaded_delegate_info ms (b : BackendDelegate) :
  backend_info (loaded_delegate ms b) = backend_info b.
Proof. unfold loaded_delegate. by destruct (GetModelProfile _ _ _). Qed.

Lemma loaded_delegate_instance ms (b : BackendDelegate) :
  has_profile ms b ->
  is_Some (GetInstanceInfo (ModelSessionToString ms) (loaded_delegate ms b)).
Proof.
  unfold loaded_delegate, has_profile. intros [p ->].
  unfold GetInstanceInfo. simpl. rewrite lookup_insert_eq. by eexists.
Qed.

Lemma loaded_delegate_no_instance ms (b : BackendDelegate) :
  ~ has_profile ms b ->
  GetInstanceInfo (ModelSessionToString ms) (loaded_delegate ms b) =
  GetInstanceInfo (ModelSessionToString ms) b.
Proof.
  unfold loaded_delegate, has_profile. intros Hn.
  destruct (GetModelProfile _ _ _); [|done]. destruct Hn. by eexists.
Qed.

(** The route [HandleLoadModel] installs. *)
Lemma uniform_route_elem sid (backends : gmap N BackendDelegate) b :
  b ∈ backend_rate (uniform_route sid backends) <->
  exists id backend, backends !! id = Some backend /\
    b = mkBackendRate (backend_info backend) 1.
Proof.
  unfold uniform_route. simpl. rewrite list_elem_of_fmap. split.
  - intros ([k v] & -> & Hin). apply elem_of_map_to_list in Hin. by exists k, v.
  - intros (k & v & Hk & ->). exists (k, v). split; [done|].
    by apply elem_of_map_to_list.
Qed.


Lemma uniform_route_quanta sid (backends : gmap N BackendDelegate) route b :
  ModelRoute.Update (uniform_route sid backends) ModelRoute.init = Ok route ->
  b ∈ ModelRoute.backends_ route ->
  throughput b = 1%Q /\
  ModelRoute.backend_quanta_ route !! ModelRoute.backend_id b = Some 1%Q.
Proof.
  intros HU Hb.
  destruct (ModelRouteExt.Update_backends _ _ _ HU) as [Hbs _].
  rewrite Hbs in Hb.
  assert (forall x, x ∈ backend_rate (uniform_route sid backends) ->
            throughput x = 1%Q) as Hone.
  { intros x Hx. apply uniform_route_elem in Hx as (k & v & _ & ->). done. }
  split; [by apply Hone|].
  rewrite (ModelRouteFacts.Update_quanta _ _ _ _ HU).
  destruct (ModelRouteFacts.first_rate_elem _ _ Hb) as (b' & Hb' & _ & ->).
  simpl. by rewrite lookup_empty, (Hone b' Hb').
Qed.

Lemma uniform_route_min sid (backends : gmap N BackendDelegate) :
  backends ≠ ∅ ->
  ModelRoute.min_throughput (backend_rate (uniform_route sid backends)) = 1%Q.
Proof.
  intros Hne. unfold ModelRoute.min_throughput.
  destruct (map_choose _ Hne) as (k & v & Hk).
  assert (mkBackendRate (backend_info v) 1 ∈
          backend_rate (uniform_route sid backends)) as Hin
    by (apply uniform_route_elem; by exists k, v).
  destruct (ModelRouteFacts.fold_min_attained
              (backend_rate (uniform_route sid backends)) DBL_MAX)
    as [E | (b & Hb & E)].
  - pose proof (ModelRouteFacts.min_throughput_le _ _ Hin) as Hle.
    unfold ModelRoute.min_throughput in Hle. rewrite E in Hle. simpl in Hle.
    exfalso. revert Hle. by vm_compute.
  - rewrite E. by apply uniform_route_elem in Hb as (k' & v' & _ & ->).
Qed.

(** *** The invariant *)

Lemma update_routes_dom (routes : list ModelRouteProto) :
  forall models models',
  update_routes routes models = Ok models' ->
  (forall route, route ∈ routes -> is_Some (models' !! model_session_id route)) /\
  (forall id, is_Some (models !! id) -> is_Some (models' !! id)).
Proof.
  induction routes as [|route rest IH]; intros models models'; simpl.
  - intros [= <-]. split; [|done]. intros route Hr. by apply elem_of_nil in Hr.
  - destruct (ModelRoute.Update route _) as [r|] eqn:HU; simpl; [|done].
    intros Hrun. destruct (IH _ _ Hrun) as [H1 H2]. split.
    + intros route' Hr. apply elem_of_cons in Hr as [->|Hr]; [|by apply H1].
      apply H2. rewrite lookup_insert_eq. by eexists.
    + intros id Hid. apply H2. rewrite lookup_insert.
      case_decide; [by eexists | done].
Qed.

Lemma constructed_invariant (d : t) : constructed d -> invariant d.
Proof.
  intros (_ & Hb & Hs & Hm). split; [|split].
  - intros id b. by rewrite Hb, lookup_empty.
  - intros id r. by rewrite Hm, lookup_empty.
  - intros id. rewrite Hs, lookup_empty. by intros [? ?].
Qed.

Lemma DispatchRequest_invariant sched_now now dispatch_now q reply d res :
  DispatchRequest sched_now now dispatch_now q reply d = Ok res ->
  invariant d -> invariant res.2.
Proof.
  intros Hrun (Hkey & Hval & Hsr). apply DispatchRequest_inv in Hrun.
  inversion Hrun as [Hr Hres | route b route' n Hr Hg Hb Hres
                    | route b route' n backend0 inst Hr Hg Hb Hi query plan0 Hres];
    simpl.
  - done.
  - split; [done|]. split.
    + intros id r. simpl. rewrite lookup_insert. case_decide; [|by apply Hval].
      intros [= <-].
      by destruct (ModelRouteExt.GetBackend_keeps_route_ok route (b, route', n)
                     (Hval _ _ Hr) Hg) as [? _].
    + intros id Hid. simpl. rewrite lookup_insert.
      case_decide; [by eexists | by apply Hsr].
  - split; [|split].
    + intros id backend. simpl. rewrite lookup_insert. case_decide as Hid.
      * intros [= <-]. simpl. rewrite <- Hid. by apply Hkey.
      * apply Hkey.
    + intros id r. simpl. rewrite lookup_insert. case_decide; [|by apply Hval].
      intros [= <-].
      by destruct (ModelRouteExt.GetBackend_keeps_route_ok route (b, route', n)
                     (Hval _ _ Hr) Hg) as [? _].
    + intros id Hid. simpl. rewrite lookup_insert.
      case_decide; [by eexists | by apply Hsr].
Qed.

Lemma UpdateModelRoutes_spec request d :
  routes_valid d ->
  exists models',
    UpdateModelRoutes request d = Ok (CTRL_OK, set_models models' d) /\
    routes_valid (set_models models' d) /\
    forall id,
      match last_route id request with
      | Some route =>
          exists r, models' !! id = Some r /\
            ModelRoute.route_ok r /\
            ModelRoute.model_session_id_ r = id /\
            ModelRoute.backends_ r = backend_rate route /\
            ModelRoute.min_rate_ r = ModelRoute.min_throughput (backend_rate route) /\
            ModelRoute.total_throughput_ r =
              ModelRoute.sum_throughput (backend_rate route)
      | None => models' !! id = models_ d !! id
      end.
Proof.
  intros Hval.
  destruct (update_routes_spec request (models_ d) (routes_valid_index d Hval))
    as (models' & Hrun & _ & Hspec).
  exists models'. unfold UpdateModelRoutes. rewrite Hrun. simpl.
  split; [done|]. split; [|done].
  intros id r. simpl. intros Hr. specialize (Hspec id).
  destruct (last_route id request).
  - destruct Hspec as (r' & Hr' & Hok & _). congruence.
  - rewrite Hspec in Hr. by eapply Hval.
Qed.

Lemma UpdateModelRoutes_invariant request d res :
  UpdateModelRoutes request d = Ok res -> invariant d -> invariant res.2.
Proof.
  intros Hrun (Hkey & Hval & Hsr).
  destruct (UpdateModelRoutes_spec request d Hval) as (models' & Hrun' & Hval' & _).
  rewrite Hrun' in Hrun. injection Hrun as <-. simpl.
  split; [done|]. split; [done|].
  intros id Hid. simpl in *.
  unfold UpdateModelRoutes in Hrun'.
  destruct (update_routes request (models_ d)) as [m|] eqn:E; simpl in Hrun'; [|done].
  injection Hrun' as ->.
  destruct (update_routes_dom _ _ _ E) as [_ Hdom]. by apply Hdom, Hsr.
Qed.

Lemma HandleRegister_invariant peer request reply d res :
  HandleRegister peer request reply d = Ok res -> invariant d -> invariant res.2.
Proof.
  intros Hrun (Hkey & Hval & Hsr). revert Hrun. unfold HandleRegister.
  destruct (peer !! 1%nat) as [ip|]; [|done].
  destruct (req_node_type request).
  - simpl. destruct (frontends_ d !! req_node_id request); by intros [= <-].
  - simpl. destruct (backends_ d !! req_node_id request); [by intros [= <-]|].
    pose proof (load_sessions_spec (map_to_list (sessions_ d)) reply
                  (mkBackendDelegate (new_backend ip request) ∅ [])
                  (sessions_ d)) as Hspec.
    unfold new_backend in Hspec.
    destruct (fold_left load_session _ _) as [[reply1 backend1] sessions1].
    simpl in Hspec. destruct Hspec as (H1 & H2 & _).
    intros [= <-]. simpl. split; [|split; [done|]].
    + intros id b. simpl. rewrite lookup_insert. case_decide as Hid.
      * intros [= <-]. by rewrite H1.
      * apply Hkey.
    + intros id Hid. simpl in *. apply Hsr.
      destruct (H2 id Hid) as [?|Hin]; [done|].
      apply list_elem_of_fmap in Hin as ([k v] & -> & Hin).
      apply elem_of_map_to_list in Hin. by eexists.
  - by intros [= <-].
Qed.

Lemma HandleLoadModel_inv ms d status d' :
  HandleLoadModel ms d = Ok (status, d') ->
  (GetModelInfo (ModelSessionToModelID ms) = None /\
   status = MODEL_NOT_FOUND /\ d' = d) \/
  (is_Some (GetModelInfo (ModelSessionToModelID ms)) /\
   is_Some (sessions_ d !! ModelSessionToString ms) /\
   status = CTRL_OK /\ d' = d) \/
  (is_Some (GetModelInfo (ModelSessionToModelID ms)) /\
   sessions_ d !! ModelSessionToString ms = None /\
   models_ d !! ModelSessionToString ms = None).
Proof.
  unfold HandleLoadModel.
  destruct (GetModelInfo _) as [info|]; [|intros [= <- <-]; by left].
  destruct (sessions_ d !! _) as [sctx|]; [intros [= <- <-]; right; left; eauto|].
  destruct (models_ d !! _) as [r|]; [done|]. intros _. right. right. eauto.
Qed.

Lemma HandleLoadModel_invariant ms d res :
  HandleLoadModel ms d = Ok res -> invariant d -> invariant res.2.
Proof.
  destruct res as [status d']. intros Hrun (Hkey & Hval & Hsr). simpl.
  destruct (HandleLoadModel_inv _ _ _ _ Hrun)
    as [(_ & _ & ->) | [(_ & _ & _ & ->) | ([info Hinfo] & Hs & Hm)]];
    [done|done|].
  destruct (HandleLoadModel_fresh ms d info Hinfo Hs Hm)
    as (status' & sctx & route & Hrun' & _ & HU & _).
  rewrite Hrun' in Hrun. injection Hrun as <- <-.
  split; [|split].
  - intros id b. simpl. rewrite lookup_fmap.
    destruct (backends_ d !! id) as [v|] eqn:Ev; simpl; [|done].
    intros [= <-]. rewrite loaded_delegate_info. by apply Hkey.
  - intros id r. simpl. rewrite lookup_insert. case_decide; [|by apply Hval].
    intros [= <-]. by eapply ModelRouteFacts.Update_establishes.
  - intros id. simpl. rewrite !lookup_insert.
    case_decide; [by eexists|]. apply Hsr.
Qed.

Lemma step_invariant d d' : step d d' -> invariant d -> invariant d'.
Proof.
  intros Hstep Hinv. destruct Hstep.
  - by eapply (DispatchRequest_invariant _ _ _ _ _ _ (_, _)).
  - by eapply (UpdateModelRoutes_invariant _ _ (_, _)).
  - by eapply (HandleRegister_invariant _ _ _ _ (_, _)).
  - done.
  - by eapply (HandleLoadModel_invariant _ _ (_, _)).
Qed.

End with_env.
End DispatcherExtFacts.

Module DispatcherProps.
Import Dispatcher DispatcherExt DispatcherFacts DispatcherExtFacts.

Section with_env.
Context `{!Externals}.


(** X6. A session the dispatcher serves is dispatched: the call returns
    [CTRL_OK], a listed backend receives the plan, the plan id is used up,
    and the dispatcher serves the session afterwards as well, so that any
    number of queries in a row is dispatched. *)
Theorem DispatchRequest_serves
    (sched_now now dispatch_now : Z) (q : QueryProto) (reply : DispatchReply)
    (d : t) (Hserves : serves d (query_model_session_id q)) :
  exists reply' d',
    DispatchRequest sched_now now dispatch_now q reply d = Ok (reply', d') /\
    reply_status reply' = CTRL_OK /\
    next_plan_id_ d' = ((next_plan_id_ d + 1) mod 2 ^ 64)%N /\
    serves d' (query_model_session_id q).
Proof.
  destruct (DispatchRequest_on_served sched_now now dispatch_now q reply d Hserves)
    as (b & route & route' & n & backend & inst & Hr & Hg & Hb & Hsame & Hok' &
        Hnn' & Hbk & Hinst & Hrun).
  destruct Hserves as (route0 & Hr0 & Hok & Hnn & Hne & Hpos & Hdel).
  rewrite Hr in Hr0. injection Hr0 as <-.
  destruct Hsame as (_ & Hbs & _).
  eexists _, _. split; [exact Hrun|]. split; [done|]. split; [done|].
  exists route'. simpl. rewrite lookup_insert_eq.
  split; [done|]. split; [done|]. split; [done|]. rewrite Hbs.
  split; [done|]. split; [done|].
  intros b0 Hb0. destruct (Hdel b0 Hb0) as (backend0 & inst0 & Hbk0 & Hinst0).
  rewrite lookup_insert. case_decide as Hid.
  - rewrite <- Hid in Hbk0. rewrite Hbk in Hbk0. injection Hbk0 as <-.
    by eexists _, _.
  - by eexists _, _.
Qed.

(** X7. How a dispatch can leave the normal control flow when the route
    table of the session satisfies its representation invariant: at the
    index into an empty backend list, at the [CHECK_LE] of the round robin,
    or at the instance of a delegate that holds none for the session. The
    [at] of the quantum map does not throw. *)
Theorem DispatchRequest_faults
    (sched_now now dispatch_now : Z) (q : QueryProto) (reply : DispatchReply)
    (d : t) (route : ModelRoute.t) (f : fault)
    (Hroute : models_ d !! query_model_session_id q = Some route)
    (Hok : ModelRoute.route_ok route)
    (Hrun : DispatchRequest sched_now now dispatch_now q reply d = Fault f) :
  (f = VectorOutOfRange /\ ModelRoute.backends_ route = []) \/
  (f = CheckFailed /\ ModelRoute.backends_ route ≠ []) \/
  (f = NullDeref /\
   exists b route' n backend,
     ModelRoute.GetBackend route = Ok (b, route', n) /\
     backends_ d !! node_id b = Some backend /\
     GetInstanceInfo (query_model_session_id q) backend = None).
Proof.
  revert Hrun. unfold DispatchRequest. cbn [take_global_id]. simpl.
  rewrite Hroute.
  destruct (ModelRoute.GetBackend route) as [[[b route'] n]|f'] eqn:Eg; simpl.
  - destruct (backends_ d !! node_id b) as [backend|] eqn:Eb; [|done].
    destruct (GetInstanceInfo (query_model_session_id q) backend) eqn:Ei; [done|].
    intros [= <-]. right. right. split; [done|]. by exists b, route', n, backend.
  - intros [= ->].
    destruct (ModelRoute.backends_ route) as [|x l] eqn:El.
    + left. rewrite (GetBackend_empty route El) in Eg. by injection Eg as <-.
    + right. left. split; [|done].
      destruct (ModelRouteExt.GetBackend_loop_faults _ _ route f Hok
                  ltac:(by rewrite El) Eg) as [->| ->]; [done|].
      by apply ModelRouteFacts.GetBackend_fuel in Eg.
Qed.


(** X8. On a dispatcher whose route tables satisfy the representation
    invariant, [UpdateModelRoutes] does not leave the normal control flow
    and answers [CTRL_OK]. It changes nothing but [models_]; a session that
    the request does not name keeps its table, and a session it names ends
    with the backend list, minimum and total of the last route the request
    carries for it. The tables satisfy the invariant afterwards. *)
Theorem UpdateModelRoutes_result (request : list ModelRouteProto) (d : t)
    (Hvalid : routes_valid d) :
  exists d',
    UpdateModelRoutes request d = Ok (CTRL_OK, d') /\
    routes_valid d' /\
    frontends_ d' = frontends_ d /\ backends_ d' = backends_ d /\
    sessions_ d' = sessions_ d /\
    next_global_id_ d' = next_global_id_ d /\
    next_plan_id_ d' = next_plan_id_ d /\
    forall id,
      match last_route id request with
      | Some route =>
          exists r, models_ d' !! id = Some r /\
            ModelRoute.model_session_id_ r = id /\
            ModelRoute.backends_ r = backend_rate route /\
            ModelRoute.min_rate_ r = ModelRoute.min_throughput (backend_rate route) /\
            ModelRoute.total_throughput_ r =
              ModelRoute.sum_throughput (backend_rate route)
      | None => models_ d' !! id = models_ d !! id
      end.
Proof.
  destruct (UpdateModelRoutes_spec request d Hvalid) as (models' & Hrun & Hval' & Hspec).
  exists (set_models models' d). split; [done|]. split; [done|].
  split_and!; try done.
  intros id. specialize (Hspec id). simpl.
  destruct (last_route id request); [|done].
  destruct Hspec as (r & Hr & _ & Hrest). by exists r.
Qed.

(** X9. The tables of a dispatcher that was constructed and has handled
    any sequence of requests to their ends satisfy the invariant: every
    delegate is stored under its own node id, every route table satisfies
    the representation invariant of the round robin, and every loaded
    session has a route table. *)
Theorem reachable_invariant (d : t) (Hreach : reachable d) :
  invariant d.
Proof.
  destruct Hreach as (d0 & Hinit & Hsteps).
  assert (forall a b, rtc step a b -> invariant a -> invariant b) as Hrtc.
  { intros a b Hab. induction Hab as [|x y z Hxy Hyz IH]; [done|].
    intros Hx. apply IH. by eapply step_invariant. }
  apply (Hrtc _ _ Hsteps). by apply constructed_invariant.
Qed.


(** X11. A backend that registers under a free id is answered [CTRL_OK]
    with the beacon interval, whether or not the model database has a
    profile for every loaded session: the status that the loop over the
    sessions sets for a missing profile is overwritten. The new delegate is
    stored under the id with the identity of the request and the ip of the
    peer, it holds an instance of every loaded session that has a profile
    on its GPU, every frontend is sent the one-element backend list, and
    the route tables, the other delegates and the id counters stay as they
    are. *)
Theorem HandleRegister_backend
    (peer : list string) (request : RegisterRequest)
    (reply reply' : RegisterReply) (d d' : t)
    (Htype : req_node_type request = BACKEND_NODE)
    (Hfree : backends_ d !! req_node_id request = None)
    (Hrun : HandleRegister peer request reply d = Ok (reply', d')) :
  reply' = mkRegisterReply CTRL_OK BEACON_INTERVAL_SEC /\
  models_ d' = models_ d /\
  next_global_id_ d' = next_global_id_ d /\
  next_plan_id_ d' = next_plan_id_ d /\
  (forall id, id ≠ req_node_id request ->
     backends_ d' !! id = backends_ d !! id) /\
  exists ip backend,
    peer !! 1%nat = Some ip /\
    backends_ d' !! req_node_id request = Some backend /\
    backend_info backend = new_backend ip request /\
    frontends_ d' = UpdateBackendList [backend_info backend] <$> frontends_ d /\
    forall sid sctx, sessions_ d !! sid = Some sctx ->
      has_profile (ctx_model_session sctx) backend ->
      is_Some (GetInstanceInfo
                 (ModelSessionToString (ctx_model_session sctx)) backend).
Proof.
  revert Hrun. unfold HandleRegister. rewrite Htype.
  destruct (peer !! 1%nat) as [ip|]; [|done]. simpl. rewrite Hfree.
  pose proof (load_sessions_spec (map_to_list (sessions_ d)) reply
                (mkBackendDelegate (new_backend ip request) ∅ [])
                (sessions_ d)) as Hspec.
  unfold new_backend in Hspec.
  destruct (fold_left load_session _ _) as [[reply1 backend1] sessions1].
  simpl in Hspec. destruct Hspec as (H1 & _ & _ & H4).
  intros [= <- <-]. simpl. split_and!; try done.
  - intros id Hid. by rewrite lookup_insert_ne.
  - exists ip, backend1. rewrite lookup_insert_eq. split_and!; try done.
    intros sid sctx Hs Hp. apply (H4 (sid, sctx)).
    + by apply elem_of_map_to_list.
    + eapply has_profile_info; [|exact Hp]. by rewrite H1.
Qed.

(** X12. Loading a model twice: whatever the first [HandleLoadModel]
    answered, a second one for the same session changes nothing; it answers
    [CTRL_OK], also after a first answer of
    [CTRL_INVALID_LOAD_MODEL_REQUEST], unless the model is unknown to the
    model database, which is answered [MODEL_NOT_FOUND] both times. *)
Theorem HandleLoadModel_idempotent (model_session : ModelSession)
    (status : CtrlStatus) (d d' : t)
    (Hrun : HandleLoadModel model_session d = Ok (status, d')) :
  exists status',
    HandleLoadModel model_session d' = Ok (status', d') /\
    (status = MODEL_NOT_FOUND -> status' = MODEL_NOT_FOUND /\ d' = d) /\
    (status ≠ MODEL_NOT_FOUND -> status' = CTRL_OK).
Proof.
  destruct (HandleLoadModel_inv _ _ _ _ Hrun)
    as [(Hinfo & -> & ->) | [([info Hinfo] & [sctx Hs] & -> & ->)
       | ([info Hinfo] & Hs & Hm)]].
  - exists MODEL_NOT_FOUND. split; [done|]. by split.
  - exists CTRL_OK. split; [done|]. by split.
  - destruct (HandleLoadModel_fresh _ d info Hinfo Hs Hm)
      as (status0 & sctx & route & Hrun' & _ & _ & _ & _ & Hst).
    rewrite Hrun' in Hrun. injection Hrun as <- <-.
    exists CTRL_OK. split; [|split; [|done]].
    + unfold HandleLoadModel. rewrite Hinfo. simpl. by rewrite lookup_insert_eq.
    + intros ->. by destruct Hst.
Qed.

(** X13. What [HandleLoadModel] sets up for a session that is not loaded
    yet and whose model is known. The answer is [CTRL_OK] exactly when the
    model database has a profile for every registered backend, and
    [CTRL_INVALID_LOAD_MODEL_REQUEST] otherwise. The session gets a context
    and a route table that lists every registered backend, with or without
    a profile, at throughput 1 and quantum 1; every delegate that has a
    profile gains an instance of the session, the others are left as they
    are. *)
Theorem HandleLoadModel_result (model_session : ModelSession)
    (info : ModelInfo) (status : CtrlStatus) (d d' : t)
    (Hinfo : GetModelInfo (ModelSessionToModelID model_session) = Some info)
    (Hnew : sessions_ d !! ModelSessionToString model_session = None)
    (Hrun : HandleLoadModel model_session d = Ok (status, d')) :
  let sid := ModelSessionToString model_session in
  (status = CTRL_OK \/ status = CTRL_INVALID_LOAD_MODEL_REQUEST) /\
  (status = CTRL_OK <->
     forall id b, backends_ d !! id = Some b -> has_profile model_session b) /\
  (exists sctx, sessions_ d' !! sid = Some sctx /\
     ctx_model_session sctx = model_session) /\
  (exists route,
     models_ d' !! sid = Some route /\
     ModelRoute.route_ok route /\
     length (ModelRoute.backends_ route) = size (backends_ d) /\
     (forall b, b ∈ ModelRoute.backends_ route <->
        exists id backend, backends_ d !! id = Some backend /\
          b = mkBackendRate (backend_info backend) 1) /\
     (forall b, b ∈ ModelRoute.backends_ route ->
        ModelRoute.backend_quanta_ route !! ModelRoute.backend_id b = Some 1%Q) /\
     (backends_ d ≠ ∅ -> ModelRoute.min_rate_ route = 1%Q)) /\
  (forall id, backends_ d' !! id = loaded_delegate model_session <$> backends_ d !! id) /\
  (forall id b, backends_ d !! id = Some b ->
     if decide (has_profile model_session b)
     then is_Some (GetInstanceInfo sid (loaded_delegate model_session b))
     else loaded_delegate model_session b = b).
Proof.
  intros sid.
  destruct (HandleLoadModel_inv _ _ _ _ Hrun)
    as [(Hi & _) | [(_ & [? Hs] & _) | (_ & _ & Hm)]]; [congruence|congruence|].
  destruct (HandleLoadModel_fresh _ d info Hinfo Hnew Hm)
    as (status0 & sctx & route & Hrun' & Hctx & HU & Hall & Hsome & Hst).
  rewrite Hrun' in Hrun. injection Hrun as <- <-. simpl. fold sid in HU |- *.
  destruct (ModelRouteExt.Update_backends _ _ _ HU) as [Hbs Hmin].
  split; [done|]. split; [|split; [|split; [|split]]].
  - split; [|done]. intros Hok id b Hb.
    destruct (decide (has_profile model_session b)) as [Hp|Hp]; [done|].
    rewrite (Hsome id b Hb Hp) in Hok. done.
  - exists sctx. by rewrite lookup_insert_eq.
  - exists route. rewrite lookup_insert_eq. split_and!; try done.
    + by eapply ModelRouteFacts.Update_establishes.
    + rewrite Hbs. unfold uniform_route. simpl.
      by rewrite length_fmap, length_map_to_list.
    + intros b. rewrite Hbs. apply uniform_route_elem.
    + intros b Hb. by eapply uniform_route_quanta.
    + intros Hne. rewrite Hmin. by apply uniform_route_min.
  - intros id. by rewrite lookup_fmap.
  - intros id b Hb. case_decide as Hp.
    + by apply loaded_delegate_instance.
    + unfold loaded_delegate. unfold has_profile in Hp.
      destruct (GetModelProfile _ _ _); [|done]. destruct Hp. by eexists.
Qed.


(** X14. Load, then dispatch. When at least one backend is registered,
    every delegate is stored under its own id and the model database has a
    profile for every backend, [HandleLoadModel] of a new session answers
    [CTRL_OK] and leaves a dispatcher that serves the session: the next
    query of the session is dispatched with [CTRL_OK]. *)
Theorem HandleLoadModel_then_dispatch (model_session : ModelSession)
    (info : ModelInfo) (status : CtrlStatus) (d d' : t)
    (sched_now now dispatch_now : Z) (q : QueryProto) (reply : DispatchReply)
    (Hinfo : GetModelInfo (ModelSessionToModelID model_session) = Some info)
    (Hnew : sessions_ d !! ModelSessionToString model_session = None)
    (Hkey : keyed_by_id d)
    (Hne : backends_ d ≠ ∅)
    (Hprof : forall id b, backends_ d !! id = Some b -> has_profile model_session b)
    (Hrun : HandleLoadModel model_session d = Ok (status, d'))
    (Hq : query_model_session_id q = ModelSessionToString model_session) :
  status = CTRL_OK /\
  serves d' (ModelSessionToString model_session) /\
  exists reply' d'',
    DispatchRequest sched_now now dispatch_now q reply d' = Ok (reply', d'') /\
    reply_status reply' = CTRL_OK.
Proof.
  destruct (HandleLoadModel_inv _ _ _ _ Hrun)
    as [(Hi & _) | [(_ & [? Hs] & _) | (_ & _ & Hm)]]; [congruence|congruence|].
  destruct (HandleLoadModel_fresh _ d info Hinfo Hnew Hm)
    as (status0 & sctx & route & Hrun' & Hctx & HU & Hall & Hsome & Hst).
  rewrite Hrun' in Hrun. injection Hrun as <- <-.
  destruct (ModelRouteExt.Update_backends _ _ _ HU) as [Hbs Hmin].
  assert (serves
            (mk (frontends_ d) (loaded_delegate model_session <$> backends_ d)
               (<[ModelSessionToString model_session := sctx]> (sessions_ d))
               (<[ModelSessionToString model_session := route]> (models_ d))
               (next_global_id_ d) (next_plan_id_ d) (beacon_interval_sec_ d))
            (ModelSessionToString model_session)) as Hserves.
  { exists route. simpl. rewrite lookup_insert_eq. split_and!; try done.
    - by eapply ModelRouteFacts.Update_establishes.
    - eapply ModelRouteFacts.Update_nonneg; [exact HU| |].
      + intros b Hb. apply uniform_route_elem in Hb as (k & v & _ & ->). done.
      + intros id x. simpl. by rewrite lookup_empty.
    - rewrite Hbs. unfold uniform_route. simpl.
      destruct (map_to_list (backends_ d)) eqn:El; [|done].
      by apply map_to_list_empty_iff in El.
    - intros b Hb. rewrite Hbs in Hb.
      apply uniform_route_elem in Hb as (k & v & _ & ->). done.
    - intros b Hb. rewrite Hbs in Hb.
      apply uniform_route_elem in Hb as (k & v & Hk & ->).
      unfold ModelRoute.backend_id. simpl. rewrite (Hkey k v Hk).
      destruct (loaded_delegate_instance model_session v (Hprof k v Hk))
        as [inst Hinst].
      exists (loaded_delegate model_session v), inst.
      rewrite lookup_fmap, Hk. done. }
  split; [by apply Hall|]. split; [done|].
  pose proof (eq_ind_r (fun s => serves _ s) Hserves Hq) as Hserves'.
  simpl in Hserves'.
  destruct (DispatchRequest_on_served sched_now now dispatch_now q reply _ Hserves')
    as (b & r & r' & n & backend & inst & _ & _ & _ & _ & _ & _ & _ & _ & Hd).
  eexists _, _. split; [exact Hd|done].
Qed.

(** X15. Loading a session on a dispatcher without backends is answered
    [CTRL_OK] and installs a route with an empty backend list; every later
    query of the session then leaves the normal control flow at the index
    into the empty list, and is not answered [MODEL_NOT_FOUND]. *)
Theorem HandleLoadModel_without_backends (model_session : ModelSession)
    (info : ModelInfo) (status : CtrlStatus) (d d' : t)
    (sched_now now dispatch_now : Z) (q : QueryProto) (reply : DispatchReply)
    (Hinfo : GetModelInfo (ModelSessionToModelID model_session) = Some info)
    (Hnew : sessions_ d !! ModelSessionToString model_session = None)
    (Hempty : backends_ d = ∅)
    (Hrun : HandleLoadModel model_session d = Ok (status, d'))
    (Hq : query_model_session_id q = ModelSessionToString model_session) :
  status = CTRL_OK /\
  (exists route, models_ d' !! ModelSessionToString model_session = Some route /\
     ModelRoute.backends_ route = []) /\
  DispatchRequest sched_now now dispatch_now q reply d' = Fault VectorOutOfRange.
Proof.
  destruct (HandleLoadModel_inv _ _ _ _ Hrun)
    as [(Hi & _) | [(_ & [? Hs] & _) | (_ & _ & Hm)]]; [congruence|congruence|].
  destruct (HandleLoadModel_fresh _ d info Hinfo Hnew Hm)
    as (status0 & sctx & route & Hrun' & Hctx & HU & Hall & Hsome & Hst).
  rewrite Hrun' in Hrun. injection Hrun as <- <-.
  destruct (ModelRouteExt.Update_backends _ _ _ HU) as [Hbs Hmin].
  assert (ModelRoute.backends_ route = []) as Hnil.
  { rewrite Hbs, Hempty. unfold uniform_route. simpl.
    by rewrite map_to_list_empty. }
  split; [|split].
  - apply Hall. intros id b. by rewrite Hempty, lookup_empty.
  - exists route. simpl. by rewrite lookup_insert_eq.
  - apply (DispatchRequest_empty_route _ _ _ _ _ _ route); [|done].
    simpl. by rewrite Hq, lookup_insert_eq.
Qed.

(** X16. Loading a session that no registered backend can run. When the
    model database has no profile for any backend, and no delegate holds an
    instance of the session, [HandleLoadModel] answers
    [CTRL_INVALID_LOAD_MODEL_REQUEST] but leaves the session loaded, with a
    route over all backends: the next query of the session is routed to a
    delegate without an instance and the dispatch dereferences the null
    instance. *)
Theorem HandleLoadModel_without_profile (model_session : ModelSession)
    (info : ModelInfo) (status : CtrlStatus) (d d' : t)
    (sched_now now dispatch_now : Z) (q : QueryProto) (reply : DispatchReply)
    (Hinfo : GetModelInfo (ModelSessionToModelID model_session) = Some info)
    (Hnew : sessions_ d !! ModelSessionToString model_session = None)
    (Hkey : keyed_by_id d)
    (Hne : backends_ d ≠ ∅)
    (Hprof : forall id b, backends_ d !! id = Some b ->
       ~ has_profile model_session b /\
       GetInstanceInfo (ModelSessionToString model_session) b = None)
    (Hrun : HandleLoadModel model_session d = Ok (status, d'))
    (Hq : query_model_session_id q = ModelSessionToString model_session) :
  status = CTRL_INVALID_LOAD_MODEL_REQUEST /\
  is_Some (sessions_ d' !! ModelSessionToString model_session) /\
  backends_ d' = backends_ d /\
  DispatchRequest sched_now now dispatch_now q reply d' = Fault NullDeref.
Proof.
  destruct (HandleLoadModel_inv _ _ _ _ Hrun)
    as [(Hi & _) | [(_ & [? Hs] & _) | (_ & _ & Hm)]]; [congruence|congruence|].
  destruct (HandleLoadModel_fresh _ d info Hinfo Hnew Hm)
    as (status0 & sctx & route & Hrun' & Hctx & HU & Hall & Hsome & Hst).
  rewrite Hrun' in Hrun. injection Hrun as <- <-.
  destruct (ModelRouteExt.Update_backends _ _ _ HU) as [Hbs Hmin].
  assert (loaded_delegate model_session <$> backends_ d = backends_ d) as Hsame.
  { apply map_eq. intros k. rewrite lookup_fmap.
    destruct (backends_ d !! k) as [v|] eqn:Ek; simpl; [|done].
    destruct (Hprof k v Ek) as [Hp _]. unfold loaded_delegate.
    unfold has_profile in Hp. destruct (GetModelProfile _ _ _); [|done].
    destruct Hp. by eexists. }
  split; [|split; [|split]].
  - destruct (map_choose _ Hne) as (k & v & Hk).
    apply (Hsome k v Hk). by apply Hprof in Hk as [? _].
  - simpl. rewrite lookup_insert_eq. by eexists.
  - done.
  - destruct (ModelRouteFacts.GetBackend_returns route)
      as (b & route' & n & Hg & Hb & _).
    + by eapply ModelRouteFacts.Update_establishes.
    + rewrite Hbs. unfold uniform_route. simpl.
      destruct (map_to_list (backends_ d)) eqn:El; [|done].
      by apply map_to_list_empty_iff in El.
    + intros x Hx. rewrite Hbs in Hx.
      apply uniform_route_elem in Hx as (k & v & _ & ->). done.
    + eapply ModelRouteFacts.Update_nonneg; [exact HU| |].
      * intros x Hx. apply uniform_route_elem in Hx as (k & v & _ & ->). done.
      * intros id x. simpl. by rewrite lookup_empty.
    + rewrite Hbs in Hb. apply uniform_route_elem in Hb as (k & v & Hk & ->).
      simpl in Hg. rewrite Hsame.
      unfold DispatchRequest. cbn [take_global_id]. simpl.
      rewrite Hq, lookup_insert_eq, Hg. simpl.
      rewrite (Hkey k v Hk), Hk.
      by destruct (Hprof k v Hk) as [_ ->].
Qed.

(** X17. A route pushed by [UpdateModelRoutes] for a session that is not
    loaded makes the later [HandleLoadModel] of that session fail its
    [CHECK_EQ(models_.count(model_sess_id), 0)]. *)
Theorem UpdateModelRoutes_then_HandleLoadModel
    (request : list ModelRouteProto) (route : ModelRouteProto)
    (model_session : ModelSession) (info : ModelInfo)
    (status : CtrlStatus) (d d' : t)
    (Hinfo : GetModelInfo (ModelSessionToModelID model_session) = Some info)
    (Hnew : sessions_ d !! ModelSessionToString model_session = None)
    (Hroute : route ∈ request)
    (Hid : model_session_id route = ModelSessionToString model_session)
    (Hrun : UpdateModelRoutes request d = Ok (status, d')) :
  HandleLoadModel model_session d' = Fault CheckFailed.
Proof.
  revert Hrun. unfold UpdateModelRoutes.
  destruct (update_routes request (models_ d)) as [m|] eqn:E; simpl; [|done].
  intros [= <- <-].
  destruct (update_routes_dom _ _ _ E) as [Hdom _].
  destruct (Hdom route Hroute) as [r Hr]. rewrite Hid in Hr.
  unfold HandleLoadModel. rewrite Hinfo. simpl. by rewrite Hnew, Hr.
Qed.

End with_env.
End DispatcherProps.

Module DispatcherExtWitnesses.
Import Dispatcher DispatcherExt DispatcherFacts DispatcherExtFacts DispatcherProps.
Import Samples SamplesExt.

Lemma registered_from_HandleRegister :
  HandleRegister peer3 register3 blank_register (init 1) =
  Ok (mkRegisterReply CTRL_OK 1, registered).
Proof. by vm_compute. Qed.

Lemma loaded_from_HandleLoadModel :
  HandleLoadModel session registered = Ok (CTRL_OK, loaded).
Proof. by vm_compute. Qed.

Lemma loaded_empty_from_HandleLoadModel :
  HandleLoadModel session (init 1) = Ok (CTRL_OK, loaded_empty).
Proof. by vm_compute. Qed.

Lemma loaded_no_profile_from_HandleLoadModel :
  @HandleLoadModel env_no_profile session registered =
  Ok (CTRL_INVALID_LOAD_MODEL_REQUEST, loaded_no_profile).
Proof. by vm_compute. Qed.

Lemma routed_from_UpdateModelRoutes :
  UpdateModelRoutes [rate21] (init 1) = Ok (CTRL_OK, routed).
Proof. by vm_compute. Qed.


Lemma table21_ok : ModelRoute.route_ok table21.
Proof.
  exact (ModelRouteFacts.Update_establishes _ _ _
           ModelRouteSamples.table21_from_Update).
Qed.

Lemma serving_serves : serves serving (query_model_session_id query).
Proof.
  exists table21. split; [by vm_compute|]. split; [exact table21_ok|].
  split; [exact ModelRouteExtWitnesses.table21_quanta_nonneg|]. split; [done|].
  split; [exact ModelRouteExtWitnesses.rate21_positive|].
  intros b Hb. simpl in Hb.
  apply elem_of_cons in Hb as [->|Hb];
    [|apply list_elem_of_singleton in Hb as ->].
  - exists (delegate 1), (new_InstanceInfo session 1 resnet_profile).
    by vm_compute.
  - exists (delegate 2), (new_InstanceInfo session 2 resnet_profile).
    by vm_compute.
Qed.

Lemma serving_valid : routes_valid serving.
Proof.
  intros id route. unfold serving. simpl. rewrite lookup_insert.
  case_decide; [|by rewrite lookup_empty].
  intros [= <-]. exact table21_ok.
Qed.

Lemma empty_table_ok :
  ModelRoute.route_ok (ModelRoute.mk "tf:resnet:1:100" [] 0 DBL_MAX ∅ 0).
Proof.
  apply (ModelRouteFacts.Update_establishes rate_empty table21). by vm_compute.
Qed.

Lemma registered_keyed : keyed_by_id registered.
Proof.
  intros id b. unfold registered. simpl. rewrite lookup_insert.
  case_decide as Hid; [|by rewrite lookup_empty]. by intros [= <-].
Qed.

Lemma registered_nonempty : backends_ registered ≠ ∅.
Proof. unfold registered. simpl. apply insert_non_empty. Qed.


Lemma DispatchRequest_serves_witness :
  exists reply' d',
    DispatchRequest t_sched t_now t_dispatch query blank_reply serving =
      Ok (reply', d') /\
    reply_status reply' = CTRL_OK /\
    next_plan_id_ d' = ((next_plan_id_ serving + 1) mod 2 ^ 64)%N /\
    serves d' (query_model_session_id query).
Proof.
  exact (DispatchRequest_serves t_sched t_now t_dispatch query blank_reply
           serving serving_serves).
Defined.

Lemma DispatchRequest_faults_witness :
  (VectorOutOfRange = VectorOutOfRange /\
   ModelRoute.backends_ (ModelRoute.mk "tf:resnet:1:100" [] 0 DBL_MAX ∅ 0) = []) \/
  (VectorOutOfRange = CheckFailed /\
   ModelRoute.backends_ (ModelRoute.mk "tf:resnet:1:100" [] 0 DBL_MAX ∅ 0) ≠ []) \/
  (VectorOutOfRange = NullDeref /\
   exists b route' n backend,
     ModelRoute.GetBackend (ModelRoute.mk "tf:resnet:1:100" [] 0 DBL_MAX ∅ 0) =
       Ok (b, route', n) /\
     backends_ drained !! node_id b = Some backend /\
     GetInstanceInfo (query_model_session_id query) backend = None).
Proof.
  exact (DispatchRequest_faults t_sched t_now t_dispatch query blank_reply
           drained _ VectorOutOfRange eq_refl empty_table_ok eq_refl).
Defined.

Lemma UpdateModelRoutes_result_witness :
  exists d',
    UpdateModelRoutes [rate_empty] serving = Ok (CTRL_OK, d') /\
    routes_valid d' /\
    frontends_ d' = frontends_ serving /\ backends_ d' = backends_ serving /\
    sessions_ d' = sessions_ serving /\
    next_global_id_ d' = next_global_id_ serving /\
    next_plan_id_ d' = next_plan_id_ serving /\
    forall id,
      match last_route id [rate_empty] with
      | Some route =>
          exists r, models_ d' !! id = Some r /\
            ModelRoute.model_session_id_ r = id /\
            ModelRoute.backends_ r = backend_rate route /\
            ModelRoute.min_rate_ r = ModelRoute.min_throughput (backend_rate route) /\
            ModelRoute.total_throughput_ r =
              ModelRoute.sum_throughput (backend_rate route)
      | None => models_ d' !! id = models_ serving !! id
      end.
Proof.
  exact (UpdateModelRoutes_result [rate_empty] serving serving_valid).
Defined.

Lemma reachable_invariant_witness : invariant loaded.
Proof.
  apply (reachable_invariant loaded).
  exists (init 1). split; [done|].
  eapply rtc_l; [exact (step_register _ _ _ _ _ _ registered_from_HandleRegister)|].
  eapply rtc_l; [exact (step_load _ _ _ _ loaded_from_HandleLoadModel)|].
  apply rtc_refl.
Defined.


Lemma HandleRegister_backend_witness :
  mkRegisterReply CTRL_OK 1 = mkRegisterReply CTRL_OK BEACON_INTERVAL_SEC /\
  models_ registered = models_ (init 1).
Proof.
  destruct (HandleRegister_backend peer3 register3 blank_register
              (mkRegisterReply CTRL_OK 1) (init 1) registered eq_refl eq_refl
              registered_from_HandleRegister) as (H1 & H2 & _).
  exact (conj H1 H2).
Defined.

Lemma HandleLoadModel_idempotent_witness :
  exists status',
    HandleLoadModel session loaded = Ok (status', loaded) /\
    (CTRL_OK = MODEL_NOT_FOUND -> status' = MODEL_NOT_FOUND /\ loaded = registered) /\
    (CTRL_OK ≠ MODEL_NOT_FOUND -> status' = CTRL_OK).
Proof.
  exact (HandleLoadModel_idempotent session CTRL_OK registered loaded
           loaded_from_HandleLoadModel).
Defined.

Lemma HandleLoadModel_result_witness :
  CTRL_OK = CTRL_OK \/ CTRL_OK = CTRL_INVALID_LOAD_MODEL_REQUEST.
Proof.
  exact (proj1 (HandleLoadModel_result session (mkModelInfo None 224 224)
                  CTRL_OK registered loaded eq_refl eq_refl
                  loaded_from_HandleLoadModel)).
Defined.

Lemma HandleLoadModel_then_dispatch_witness :
  serves loaded (ModelSessionToString session) /\
  exists reply' d'',
    DispatchRequest t_sched t_now t_dispatch query blank_reply loaded =
      Ok (reply', d'') /\
    reply_status reply' = CTRL_OK.
Proof.
  refine (proj2 (HandleLoadModel_then_dispatch session (mkModelInfo None 224 224)
                   CTRL_OK registered loaded t_sched t_now t_dispatch query
                   blank_reply eq_refl eq_refl registered_keyed
                   registered_nonempty _ loaded_from_HandleLoadModel eq_refl)).
  intros id b _. by eexists.
Defined.

Lemma HandleLoadModel_without_backends_witness :
  DispatchRequest t_sched t_now t_dispatch query blank_reply loaded_empty =
  Fault VectorOutOfRange.
Proof.
  exact (proj2 (proj2
           (HandleLoadModel_without_backends session (mkModelInfo None 224 224)
              CTRL_OK (init 1) loaded_empty t_sched t_now t_dispatch query
              blank_reply eq_refl eq_refl eq_refl
              loaded_empty_from_HandleLoadModel eq_refl))).
Defined.

Lemma HandleLoadModel_without_profile_witness :
  @DispatchRequest env_no_profile t_sched t_now t_dispatch query blank_reply
    loaded_no_profile = Fault NullDeref.
Proof.
  refine (proj2 (proj2 (proj2
            (@HandleLoadModel_without_profile env_no_profile session
               (mkModelInfo None 224 224) CTRL_INVALID_LOAD_MODEL_REQUEST
               registered loaded_no_profile t_sched t_now t_dispatch query
               blank_reply eq_refl eq_refl registered_keyed
               registered_nonempty _ loaded_no_profile_from_HandleLoadModel
               eq_refl)))).
  intros id b. unfold registered. simpl. rewrite lookup_insert.
  case_decide; [|by rewrite lookup_empty]. intros [= <-].
  split; [by intros [? ?] | done].
Defined.

Lemma UpdateModelRoutes_then_HandleLoadModel_witness :
  HandleLoadModel session routed = Fault CheckFailed.
Proof.
  refine (UpdateModelRoutes_then_HandleLoadModel [rate21] rate21 session
            (mkModelInfo None 224 224) CTRL_OK (init 1) routed
            eq_refl eq_refl _ eq_refl routed_from_UpdateModelRoutes).
  apply elem_of_cons. by left.
Defined.

End DispatcherExtWitnesses.

(* ===================================================================== *)
(** ** The scheduler, continued *)
(* ===================================================================== *)

Module SchedulerExtFacts.
Import Scheduler SchedulerFacts SchedulerExt.

Section scheduler.
Context {B I : Type} `{!BackendDelegate.ops B I} `{!Externals}
        `{!SessionOps} `{!StdSort}.
Local Open Scope Q_scope.

Lemma FindBestBackend_candidate (s : t) model_sess rate skips e :
  (FindBestBackend model_sess rate skips s).1 = Some e ->
  exists i o, candidate s model_sess rate skips e i o.
Proof.
  destruct (FindBestBackend_loads s model_sess rate skips)
    as (mt & mo & Efold & Ht & Ho).
  unfold FindBestBackend. rewrite Efold. intros He.
  assert (exists score ml, best_by score model_sess rate skips (backends_ s) ml
                           /\ ml.1.1 = Some e) as (score & ml & Hml & E).
  { destruct (near_zero rate); [by exists by_throughput, mt|].
    destruct (Qlt_bool _ _); [by exists by_throughput, mt | by exists by_occupancy, mo]. }
  destruct (best_by_Some _ _ _ _ _ _ _ Hml E) as [Hc _]. by eexists _, _.
Qed.

Lemma place_Some (fuel : nat) :
  forall model_sess workload used (s : t) assign res,
  place fuel model_sess workload used s assign = Ok (Some res) ->
  exists new,
    res = assign ++ new /\
    workload - placed_throughput new <= 1 # 1000 /\
    (forall n, (n < length new)%nat ->
       1 # 1000 < workload - placed_throughput (take n new)) /\
    (forall a, a ∈ new ->
       exists b, (a.1, b) ∈ backends_ s /\
         (BackendDelegate.node_id b ∉ used) /\
         (BackendDelegate.workload_id b < 0)%Z) /\
    (keyed (backends_ s) -> NoDup new.*1) /\
    (length new <= unused used s)%nat.
Proof.
  induction fuel as [|fuel IH]; intros model_sess workload used s assign res;
    cbn [place].
  - destruct (Qlt_bool (1 # 1000) workload) eqn:Ew; [done|].
    intros [= <-]. exists []. rewrite app_nil_r. apply Qlt_bool_false in Ew.
    split_and!; try done.
    + simpl. lra.
    + simpl. intros n Hn. lia.
    + intros a Ha. by apply elem_of_nil in Ha.
    + intros _. constructor.
    + simpl. lia.
  - destruct (Qlt_bool (1 # 1000) workload) eqn:Ew.
    2:{ intros [= <-]. exists []. rewrite app_nil_r. apply Qlt_bool_false in Ew.
        split_and!; try done.
        + simpl. lra.
        + simpl. intros n Hn. lia.
        + intros a Ha. by apply elem_of_nil in Ha.
        + intros _. constructor.
        + simpl. lia. }
    apply Qlt_bool_true in Ew.
    destruct (FindBestBackend model_sess workload used s)
      as [[[key backend]|] inst] eqn:Ef; [|done].
    destruct (FindBestBackend_candidate s model_sess workload used (key, backend))
      as (i & o & Hin & Hnew & Hwid & _); [by rewrite Ef|].
    simpl in Hnew, Hwid.
    intros Hrun. apply IH in Hrun as (new & -> & Hcov & Hpre & Hel & Hnd & Hlen).
    exists ((key, inst) :: new). split_and!.
    + by rewrite <- app_assoc.
    + simpl. lra.
    + intros [|n] Hn; simpl.
      * lra.
      * simpl in Hn. specialize (Hpre n ltac:(lia)). lra.
    + intros a Ha. apply elem_of_cons in Ha as [->|Ha].
      * by exists backend.
      * destruct (Hel a Ha) as (b & Hb & Hnb & Hwb). exists b.
        split; [done|]. split; [|done]. set_solver.
    + intros Hkey. simpl. apply NoDup_cons. split; [|by apply Hnd].
      intros Hk. apply list_elem_of_fmap in Hk as (a & Hka & Ha).
      destruct (Hel a Ha) as (b & Hb & Hnb & _).
      pose proof (Hkey _ Hb) as Kb. pose proof (Hkey _ Hin) as Kk.
      simpl in Kb, Kk. apply Hnb. rewrite Kb, <- Hka, <- Kk. set_solver.
    + pose proof (unused_drops used s (key, backend) Hin Hnew).
      simpl in *. lia.
Qed.


Lemma first_best_step (score : I -> Q -> Q) model_sess rate skips seen ml entry :
  best_by score model_sess rate skips seen ml ->
  first_best score model_sess rate skips seen ml ->
  first_best score model_sess rate skips (seen ++ [entry])
    match prepared model_sess rate skips entry with
    | None => ml
    | Some (i, o) =>
        if bool_decide (ml.1.1 = None) || Qlt_bool (score ml.1.2 ml.2) (score i o)
        then (Some entry, i, o) else ml
    end.
Proof.
  unfold best_by, first_best. intros Hbest Hfirst.
  assert (match ml.1.1 with
          | Some e =>
              exists pre post, seen ++ [entry] = pre ++ e :: post /\
                forall e' i o, e' ∈ pre ->
                  prepared model_sess rate skips e' = Some (i, o) ->
                  score i o < score ml.1.2 ml.2
          | None => True
          end) as Hkeep.
  { destruct (ml.1.1) as [e|]; [|done].
    destruct Hfirst as (pre & post & -> & Hpre).
    exists pre, (post ++ [entry]). split; [|done].
    by rewrite <- app_assoc. }
  destruct (prepared model_sess rate skips entry) as [[i o]|] eqn:Ep; [|done].
  destruct (ml.1.1) as [e|] eqn:Ee; simpl.
  - destruct (Qlt_bool _ _) eqn:Ecmp; simpl; [|by rewrite Ee].
    apply Qlt_bool_true in Ecmp. destruct Hbest as (_ & _ & Hmax).
    exists seen, []. split; [done|].
    intros e' i' o' He' Hp'. specialize (Hmax _ _ _ He' Hp'). lra.
  - exists seen, []. split; [done|].
    intros e' i' o' He' Hp'. by rewrite (Hbest _ He') in Hp'.
Qed.

Lemma consider_fold_first model_sess rate skips (l seen : list (N * B)) acc :
  best_by by_throughput model_sess rate skips seen acc.1 ->
  best_by by_occupancy model_sess rate skips seen acc.2 ->
  first_best by_throughput model_sess rate skips seen acc.1 ->
  first_best by_occupancy model_sess rate skips seen acc.2 ->
  first_best by_throughput model_sess rate skips (seen ++ l)
    (fold_left (consider model_sess rate skips) l acc).1 /\
  first_best by_occupancy model_sess rate skips (seen ++ l)
    (fold_left (consider model_sess rate skips) l acc).2.
Proof.
  revert seen acc. induction l as [|entry l IH]; intros seen [mt mo] Ht Ho Ft Fo.
  - by rewrite app_nil_r.
  - cbn [fold_left].
    replace (seen ++ entry :: l) with ((seen ++ [entry]) ++ l)
      by (by rewrite <- app_assoc).
    pose proof (best_by_step by_throughput _ _ _ _ _ entry Ht) as Bt.
    pose proof (best_by_step by_occupancy _ _ _ _ _ entry Ho) as Bo.
    pose proof (first_best_step by_throughput _ _ _ _ _ entry Ht Ft) as St.
    pose proof (first_best_step by_occupancy _ _ _ _ _ entry Ho Fo) as So.
    apply IH; rewrite consider_prepared;
      by destruct (prepared model_sess rate skips entry) as [[i o]|].
Qed.

Lemma FindBestBackend_first_loads (s : t) model_sess rate skips :
  exists mt mo,
    fold_left (consider model_sess rate skips) (backends_ s)
              (null_load, null_load) = (mt, mo) /\
    best_by by_throughput model_sess rate skips (backends_ s) mt /\
    best_by by_occupancy model_sess rate skips (backends_ s) mo /\
    first_best by_throughput model_sess rate skips (backends_ s) mt /\
    first_best by_occupancy model_sess rate skips (backends_ s) mo.
Proof.
  destruct (FindBestBackend_loads s model_sess rate skips)
    as (mt & mo & E & Ht & Ho).
  exists mt, mo. split; [done|]. split; [done|]. split; [done|].
  pose proof (consider_fold_first model_sess rate skips (backends_ s) []
                (null_load, null_load)) as Hfold.
  rewrite E in Hfold. simpl in Hfold. apply Hfold; try done.
  - intros e He. by apply elem_of_nil in He.
  - intros e He. by apply elem_of_nil in He.
Qed.

(** *** LoadModel *)

Lemma assoc_find_app {K V : Type} `{EqDecision K} (k : K) (l l' : list (K * V)) :
  assoc_find k (l ++ l') =
  match assoc_find k l with
  | Some v => Some v
  | None => assoc_find k l'
  end.
Proof.
  induction l as [|[k0 v0] l IH]; simpl; [done|]. by case_decide.
Qed.

Lemma assoc_find_emplace_new {K V : Type} `{EqDecision K} (k : K) (v : V)
    (l : list (K * V)) :
  assoc_find k l = None -> assoc_find k (assoc_emplace k v l) = Some v.
Proof.
  intros Hk. unfold assoc_emplace. rewrite Hk, assoc_find_app, Hk. simpl.
  by rewrite decide_True.
Qed.

Lemma GetModelRoute_eq (model_sess_id : string) (route : ModelRouteProto)
    (s : t) ptr si :
  assoc_find model_sess_id (session_table_ s) = Some ptr ->
  session_heap s !! ptr = Some si ->
  GetModelRoute model_sess_id route s =
  (rates ← route_entries (backend_weights si) (backends_ s);
   Ok (mkModelRouteProto model_sess_id (backend_rate route ++ rates))).
Proof. intros Ht Hh. unfold GetModelRoute. by rewrite Ht, Hh. Qed.

Lemma GetModelRoute_inv (model_sess_id : string) (prior : ModelRouteProto)
    (s : t) route :
  GetModelRoute model_sess_id prior s = Ok route ->
  exists ptr si rates,
    assoc_find model_sess_id (session_table_ s) = Some ptr /\
    session_heap s !! ptr = Some si /\
    route_entries (backend_weights si) (backends_ s) = Ok rates /\
    route = mkModelRouteProto model_sess_id (backend_rate prior ++ rates).
Proof.
  unfold GetModelRoute. destruct (assoc_find _ _) as [ptr|] eqn:Et; [|done].
  destruct (session_heap s !! _) as [si|] eqn:Eh; [|done].
  destruct (route_entries _ _) as [rates|] eqn:Er; simpl; [|done].
  intros [= <-]. by exists ptr, si, rates.
Qed.

Lemma route_entries_Forall2 (backends : list (N * B)) (weights : list (N * Q)) :
  forall rates, route_entries weights backends = Ok rates ->
  Forall2 (entry_of backends) weights rates.
Proof.
  induction weights as [|[id weight] rest IH]; intros rates; simpl.
  - intros [= <-]. constructor.
  - destruct (assoc_find id backends) as [backend|] eqn:Eb; [|done].
    destruct (route_entries rest backends) as [rates'|]; simpl; [|done].
    intros [= <-]. constructor; [|by apply IH]. by exists backend.
Qed.

Lemma LoadModel_inv request reply (s : t) res :
  LoadModel request reply s = Ok res -> loaded request reply s res.
Proof.
  unfold LoadModel, GetFrontend.
  destruct (GetModelInfo _) as [info|] eqn:Ei;
    [|intros [= <-]; by apply load_unknown_model].
  destruct (frontends_ s !! lm_node_id request) as [frontend|] eqn:Ef;
    [|intros [= <-]; by eapply load_unknown_frontend].
  destruct (assoc_find _ (session_table_ s)) as [ptr|] eqn:Et.
  - destruct (GetModelRoute _ _ s) as [route|] eqn:Er; simpl; [|done].
    destruct (session_heap s !! ptr) as [si|] eqn:Eh; [|done].
    intros [= <-]. by eapply load_subscribed.
  - destruct (find_backends _ _ s) as [[assign|]|] eqn:Efb; simpl; [| |done].
    + destruct (commit assign (backends_ s) new_SessionInfo) as [res0|] eqn:Ec;
        simpl; [|done].
      destruct (GetModelRoute _ _ _) as [route|] eqn:Er; simpl; [|done].
      intros [= <-]. by eapply load_placed.
    + intros [= <-]. by eapply load_no_backends.
Qed.


Lemma SubscribeModelSession_weights frontend_id id (si : SessionInfo) :
  backend_weights (SubscribeModelSession frontend_id id si) = backend_weights si /\
  rps_history (SubscribeModelSession frontend_id id si) = rps_history si.
Proof. done. Qed.

(** What a [LoadModel] that answers [CTRL_OK] leaves behind. *)
Lemma LoadModel_ok_inv request reply (s : t) reply' s' :
  LoadModel request reply s = Ok (reply', s') ->
  lm_status reply' = CTRL_OK ->
  exists info frontend ptr si rates,
    GetModelInfo (ModelSessionToModelID (lm_model_session request)) = Some info /\
    let model_sess_id :=
      ModelSessionToString (default_image_size info (lm_model_session request)) in
    frontends_ s !! lm_node_id request = Some frontend /\
    route_entries (backend_weights si) (backends_ s') = Ok rates /\
    reply' =
      mkLoadModelReply CTRL_OK
        (Some (mkModelRouteProto model_sess_id
                 (backend_rate (mutable_model_route reply) ++ rates))) /\
    assoc_find model_sess_id (session_table_ s') = Some ptr /\
    session_heap s' !! ptr = Some si /\
    frontend_node_id frontend ∈
      default ∅ (session_subscribers si !! model_sess_id) /\
    frontends_ s' !! lm_node_id request =
      Some (SubscribeModel model_sess_id frontend) /\
    history_len_ s' = history_len_ s.
Proof.
  intros Hrun Hok. apply LoadModel_inv in Hrun.
  inversion Hrun as [Hi Hres | info Hi Hf Hres | info frontend Hi Hf Hres
                    | info frontend ptr si route sid Hi Hf Ht Hh Hr Hres
                    | info frontend assign res route ms sid ptr s1 Hi Hf Ht Hfb Hc Hr Hres];
    subst reply' s'; simpl in Hok; try done.
  - apply GetModelRoute_inv in Hr as (ptr' & si' & rates & Ht' & Hh' & Hre & ->).
    rewrite Ht in Ht'. injection Ht' as <-.
    rewrite Hh in Hh'. injection Hh' as <-.
    exists info, frontend, ptr,
      (SubscribeModelSession (frontend_node_id frontend) sid si), rates.
    split; [done|]. simpl. fold sid. split_and!; try done.
    + by rewrite lookup_insert_eq.
    + rewrite lookup_insert_eq. simpl. apply elem_of_union. left.
      by apply elem_of_singleton.
    + by rewrite lookup_insert_eq.
  - apply GetModelRoute_inv in Hr as (ptr' & si' & rates & Ht' & Hh' & Hre & ->).
    assert (assoc_find sid (session_table_ s1) = Some ptr) as Ht1
      by (by apply assoc_find_emplace_new).
    rewrite Ht1 in Ht'. injection Ht' as <-.
    assert (session_heap s1 !! ptr =
            Some (SubscribeModelSession (frontend_node_id frontend) sid
                    (push_model_session ms res.2))) as Hh1
      by (simpl; by rewrite lookup_insert_eq).
    rewrite Hh1 in Hh'. injection Hh' as <-.
    exists info, frontend, ptr,
      (SubscribeModelSession (frontend_node_id frontend) sid
         (push_model_session ms res.2)), rates.
    split; [done|]. simpl. fold ms sid ptr s1. split_and!; try done.
    + rewrite lookup_insert_eq. simpl. apply elem_of_union. left.
      by apply elem_of_singleton.
    + by rewrite lookup_insert_eq.
Qed.


(** *** EpochSchedule, step 1 *)

Lemma assoc_set_keys {K V : Type} `{EqDecision K} (k : K) (v : V)
    (l : list (K * V)) :
  is_Some (assoc_find k l) -> (assoc_set k v l).*1 = l.*1.
Proof.
  induction l as [|[k0 v0] l IH]; simpl; [by intros [? ?]|].
  case_decide as Hk; simpl.
  - intros _. by subst.
  - intros Hs. f_equal. by apply IH.
Qed.

Lemma release_frame (model_sess_id : string) (adjust : list (N * Q)) :
  forall w w' : walk,
  release model_sess_id adjust w = Ok w' ->
  (w_backends w').*1 = (w_backends w).*1 /\
  forall k, k ∉ adjust.*1 ->
    assoc_find k (w_backends w') = assoc_find k (w_backends w).
Proof.
  induction adjust as [|[id weight] rest IH]; intros w w'; cbn [release].
  - by intros [= <-].
  - assert (forall wb ww we wo b,
              assoc_find id (w_backends w) = Some b ->
              release model_sess_id rest
                (mkWalk we (assoc_set id wb (w_backends w)) ww wo) = Ok w' ->
              (w_backends w').*1 = (w_backends w).*1 /\
              forall k, k ∉ ((id, weight) :: rest).*1 ->
                assoc_find k (w_backends w') = assoc_find k (w_backends w))
      as Hset.
    { intros wb ww we wo b Hb Hrun. apply IH in Hrun as [F1 F2]. simpl in *.
      split; [rewrite F1; apply assoc_set_keys; by eexists|].
      intros k Hk. apply not_elem_of_cons in Hk as [Hne Hk].
      rewrite (F2 k Hk), assoc_find_set. by rewrite decide_False. }
    destruct (Qlt_bool (w_estimate_rps w) (1 # 1000)).
    + destruct (assoc_find id (w_backends w)) as [b|] eqn:Eb; [|done].
      by apply Hset with (b := b).
    + destruct (Qlt_bool (w_estimate_rps w) weight).
      * destruct (assoc_find id (w_backends w)) as [b|] eqn:Eb; [|done].
        by apply Hset with (b := b).
      * intros Hrun. apply IH in Hrun as [F1 F2]. simpl in *.
        split; [done|]. intros k Hk.
        apply not_elem_of_cons in Hk as [_ Hk]. by apply F2.
Qed.

Lemma grow_frame (model_sess_id : string) (adjust : list (N * Q)) :
  forall w w' : walk,
  grow model_sess_id adjust w = Ok w' ->
  (w_backends w').*1 = (w_backends w).*1 /\
  forall k, k ∉ adjust.*1 ->
    assoc_find k (w_backends w') = assoc_find k (w_backends w).
Proof.
  induction adjust as [|[id weight] rest IH]; intros w w'; cbn [grow].
  - by intros [= <-].
  - destruct (assoc_find id (w_backends w)) as [b|] eqn:Eb; [|done].
    assert (forall wb ww we wo,
              grow model_sess_id rest
                (mkWalk we (assoc_set id wb (w_backends w)) ww wo) = Ok w' ->
              (w_backends w').*1 = (w_backends w).*1 /\
              forall k, k ∉ ((id, weight) :: rest).*1 ->
                assoc_find k (w_backends w') = assoc_find k (w_backends w))
      as Hset.
    { intros wb ww we wo Hrun. apply IH in Hrun as [F1 F2]. simpl in *.
      split; [rewrite F1; apply assoc_set_keys; by eexists|].
      intros k Hk. apply not_elem_of_cons in Hk as [Hne Hk].
      rewrite (F2 k Hk), assoc_find_set. by rewrite decide_False. }
    destruct (Qlt_bool (w_estimate_rps w) (1 # 1000)); by apply Hset.
Qed.

Lemma split_static_registered (backends : list (N * B)) (weights : list (N * Q)) :
  forall estimate_rps adjust sp,
  split_static weights backends estimate_rps adjust = Ok sp ->
  all_registered backends weights.
Proof.
  induction weights as [|[id weight] rest IH]; intros est adjust sp; simpl.
  - intros _ entry He. by apply elem_of_nil in He.
  - destruct (assoc_find id backends) as [b|] eqn:Eb; [|done].
    intros Hrun entry He. apply elem_of_cons in He as [->|He].
    + simpl. by eexists.
    + destruct (0 <=? BackendDelegate.workload_id b)%Z;
        by apply (IH _ _ _ Hrun).
Qed.

(** The backends a session is adjusted on are its adjustable ones. *)
Lemma adjusted_ids (backends : list (N * B)) (weights : list (N * Q))
    estimate_rps sp k :
  sorts_by_weight std_sort ->
  split_static weights backends estimate_rps [] = Ok sp ->
  k ∈ (std_sort sp.2).*1 ->
  k ∈ weights.*1 /\
  exists b, assoc_find k backends = Some b /\
    (BackendDelegate.workload_id b < 0)%Z.
Proof.
  intros Hsort Hsp Hk.
  pose proof (split_static_registered _ _ _ _ _ Hsp) as Hreg.
  rewrite (split_static_spec backends weights estimate_rps [] Hreg) in Hsp.
  injection Hsp as <-. simpl in Hk.
  destruct (Hsort (filter (fun entry => adjustable backends entry = true) weights))
    as [Hperm _].
  rewrite Hperm in Hk.
  apply list_elem_of_fmap in Hk as (entry & -> & He).
  apply list_elem_of_filter in He as [Hadj He].
  split; [by apply list_elem_of_fmap_2|].
  unfold adjustable in Hadj.
  destruct (assoc_find entry.1 backends) as [b|]; [|done].
  exists b. split; [done|]. by apply Z.ltb_lt.
Qed.

Lemma adjust_session_visited history_len model_sess_id ptr (e e' : epoch) :
  adjust_session history_len model_sess_id ptr e = Ok e' ->
  ep_visited e' = {[ptr]} ∪ ep_visited e.
Proof.
  unfold adjust_session. case_decide as Hv.
  { intros [= <-]. symmetry. apply subseteq_union_1_L.
    by apply singleton_subseteq_l. }
  destruct (ep_heap e !! ptr) as [si|]; [|done].
  destruct (_ <? _)%nat; [by intros [= <-]|].
  destruct (last _) as [last_rps|]; [|done].
  destruct (Qlt_bool _ _).
  - destruct (split_static _ _ _ _) as [sp|]; simpl; [|done].
    destruct (release _ _ _) as [w|]; simpl; [|done]. by intros [= <-].
  - destruct (Qlt_bool _ _).
    + destruct (split_static _ _ _ _) as [sp|]; simpl; [|done].
      destruct (grow _ _ _) as [w|]; simpl; [|done]. by intros [= <-].
    + by intros [= <-].
Qed.

End scheduler.
End SchedulerExtFacts.

Module SchedulerProps.
Import Scheduler SchedulerFacts SchedulerExt SchedulerExtFacts.
Local Open Scope Q_scope.

Section scheduler.
Context {B I : Type} `{!BackendDelegate.ops B I} `{!Externals}
        `{!SessionOps} `{!StdSort}.

(** X18. The placement that [LoadModel] computes for a new session. Every
    chosen backend is registered and carries no static workload, no more
    backends are chosen than are registered and, when [backends_] is keyed
    by node id, none is chosen twice. A workload of exactly 0 is placed on
    one backend. Any other workload is covered up to [1e-3] by the
    throughputs of the chosen instances, and by no shorter prefix of the
    placement: the loop stops as soon as it can. *)
Theorem find_backends_placement (model_sess : ModelSession) (workload : Q)
    (s : @Scheduler.t B) (assign : list (N * I))
    (Hrun : find_backends model_sess workload s = Ok (Some assign)) :
  (forall a, a ∈ assign ->
     exists b, (a.1, b) ∈ backends_ s /\ (BackendDelegate.workload_id b < 0)%Z) /\
  (length assign <= length (backends_ s))%nat /\
  (keyed (backends_ s) -> NoDup assign.*1) /\
  (workload == 0 -> length assign = 1%nat) /\
  (~ workload == 0 ->
     workload - placed_throughput assign <= 1 # 1000 /\
     forall n, (n < length assign)%nat ->
       1 # 1000 < workload - placed_throughput (take n assign)).
Proof.
  revert Hrun. unfold find_backends.
  destruct (Qeq_bool workload 0) eqn:Ez.
  - apply Qeq_bool_iff in Ez.
    destruct (FindBestBackend model_sess workload ∅ s)
      as [[[key backend]|] inst] eqn:Ef; [|done].
    intros [= <-].
    destruct (FindBestBackend_candidate s model_sess workload ∅ (key, backend))
      as (i & o & Hin & _ & Hwid & _); [by rewrite Ef|].
    split_and!; try done.
    + intros a Ha. apply list_elem_of_singleton in Ha as ->. by exists backend.
    + simpl. apply list_elem_of_lookup_1 in Hin as [n Hn].
      apply lookup_lt_Some in Hn. lia.
    + intros _. simpl. apply NoDup_singleton.
  - intros Hrun. apply place_Some in Hrun
      as (new & -> & Hcov & Hpre & Hel & Hnd & Hlen).
    simpl. split_and!; try done.
    + intros a Ha. destruct (Hel a Ha) as (b & Hb & _ & Hw). by exists b.
    + pose proof (unused_le ∅ s). lia.
    + intros Hz. apply Qeq_bool_iff in Hz. congruence.
Qed.

(** X19. The answers of [LoadModel]. A call that returns answers
    [MODEL_NOT_FOUND] exactly when the model database does not know the
    model, and [CTRL_SERVER_NOT_REGISTERED] only for an unknown frontend.
    An answer other than [CTRL_OK] is one of these two or
    [NOT_ENOUGH_BACKENDS] and leaves the scheduler and the rest of the
    reply as they were. After [CTRL_OK] the session is in [session_table_],
    the frontend and the session info record the subscription, and the
    route of the reply carries the session id and, behind the entries the
    route of the reply already had, one entry for each backend weight of
    the session, in their order, with the info of the backend and the
    weight as its rate; a reply that came without a route carries just
    these. *)
Theorem LoadModel_outcome (request : LoadModelRequest)
    (reply reply' : LoadModelReply) (s s' : @Scheduler.t B)
    (Hrun : LoadModel request reply s = Ok (reply', s')) :
  (lm_status reply' = MODEL_NOT_FOUND <->
     GetModelInfo (ModelSessionToModelID (lm_model_session request)) = None) /\
  (lm_status reply' = CTRL_SERVER_NOT_REGISTERED ->
     frontends_ s !! lm_node_id request = None) /\
  (lm_status reply' ≠ CTRL_OK ->
     s' = s /\ reply' = lm_set_status (lm_status reply') reply /\
     lm_status reply' ∈
       [MODEL_NOT_FOUND; CTRL_SERVER_NOT_REGISTERED; NOT_ENOUGH_BACKENDS]) /\
  (lm_status reply' = CTRL_OK ->
     exists info frontend ptr si rates,
       GetModelInfo (ModelSessionToModelID (lm_model_session request)) = Some info /\
       let model_sess_id :=
         ModelSessionToString (default_image_size info (lm_model_session request)) in
       frontends_ s !! lm_node_id request = Some frontend /\
       Forall2 (entry_of (backends_ s')) (backend_weights si) rates /\
       reply' =
         mkLoadModelReply CTRL_OK
           (Some (mkModelRouteProto model_sess_id
                    (match lm_model_route reply with
                     | Some prior => backend_rate prior ++ rates
                     | None => rates
                     end))) /\
       assoc_find model_sess_id (session_table_ s') = Some ptr /\
       session_heap s' !! ptr = Some si /\
       frontend_node_id frontend ∈
         default ∅ (session_subscribers si !! model_sess_id) /\
       frontends_ s' !! lm_node_id request =
         Some (SubscribeModel model_sess_id frontend) /\
       history_len_ s' = history_len_ s).
Proof.
  split_and!.
  - apply LoadModel_inv in Hrun.
    inversion Hrun; subst; simpl; split; try done; congruence.
  - apply LoadModel_inv in Hrun.
    inversion Hrun; subst; simpl; try done; congruence.
  - apply LoadModel_inv in Hrun.
    inversion Hrun; subst; simpl; try done; intros _;
      (split; [done|]); (split; [done|]); set_solver.
  - intros Hok.
    destruct (LoadModel_ok_inv _ _ _ _ _ Hrun Hok)
      as (info & frontend & ptr & si & rates & Hi & Hf & Hre & Hrep & Hrest).
    exists info, frontend, ptr, si, rates.
    split; [done|]. split; [done|].
    split; [by apply route_entries_Forall2|]. split; [|done].
    rewrite Hrep. unfold mutable_model_route. by destruct (lm_model_route reply).
Qed.

(** X20. Loading a loaded session allocates nothing. After a [LoadModel]
    that answered [CTRL_OK], the same request is answered [CTRL_OK] again,
    whatever workload it estimates, and leaves [backends_],
    [session_table_] and the weights and histories of all session infos as
    they are. The entries that the first call appended to the route of its
    reply are appended to the route of the second reply as well: the two
    replies are equal when they came with the same entries, and a reply
    that is handed in again carries the entries of the session twice. *)
Theorem LoadModel_twice (request : LoadModelRequest)
    (reply reply1 reply2 : LoadModelReply) (s s1 : @Scheduler.t B)
    (Hrun : LoadModel request reply s = Ok (reply1, s1))
    (Hok : lm_status reply1 = CTRL_OK) :
  exists s2 model_sess_id rates,
    reply1 =
      mkLoadModelReply CTRL_OK
        (Some (mkModelRouteProto model_sess_id
                 (backend_rate (mutable_model_route reply) ++ rates))) /\
    LoadModel request reply2 s1 =
      Ok (mkLoadModelReply CTRL_OK
            (Some (mkModelRouteProto model_sess_id
                     (backend_rate (mutable_model_route reply2) ++ rates))),
          s2) /\
    (backend_rate (mutable_model_route reply2) =
       backend_rate (mutable_model_route reply) ->
     LoadModel request reply2 s1 = Ok (reply1, s2)) /\
    LoadModel request reply1 s1 =
      Ok (mkLoadModelReply CTRL_OK
            (Some (mkModelRouteProto model_sess_id
                     ((backend_rate (mutable_model_route reply) ++ rates)
                      ++ rates))),
          s2) /\
    backends_ s2 = backends_ s1 /\
    session_table_ s2 = session_table_ s1 /\
    history_len_ s2 = history_len_ s1 /\
    forall ptr si, session_heap s1 !! ptr = Some si ->
      exists si', session_heap s2 !! ptr = Some si' /\
        backend_weights si' = backend_weights si /\
        rps_history si' = rps_history si.
Proof.
  destruct (LoadModel_ok_inv _ _ _ _ _ Hrun Hok)
    as (info & frontend & ptr & si & rates & Hi & Hf & Hre & -> & Ht & Hh & _ & Hf1 & _).
  simpl in *.
  assert (forall r,
            LoadModel request r s1 =
            Ok (mkLoadModelReply CTRL_OK
                  (Some (mkModelRouteProto
                           (ModelSessionToString
                              (default_image_size info (lm_model_session request)))
                           (backend_rate (mutable_model_route r) ++ rates))),
                set_heap
                  (<[ptr := SubscribeModelSession
                              (frontend_node_id
                                 (SubscribeModel
                                    (ModelSessionToString
                                       (default_image_size info
                                          (lm_model_session request))) frontend))
                              (ModelSessionToString
                                 (default_image_size info (lm_model_session request)))
                              si]> (session_heap s1))
                  (set_frontends
                     (<[lm_node_id request :=
                          SubscribeModel
                            (ModelSessionToString
                               (default_image_size info (lm_model_session request)))
                            (SubscribeModel
                               (ModelSessionToString
                                  (default_image_size info
                                     (lm_model_session request))) frontend)]>
                        (frontends_ s1)) s1))) as Hagain.
  { intros r. unfold LoadModel, GetFrontend. rewrite Hi, Hf1, Ht.
    rewrite (GetModelRoute_eq _ _ _ _ _ Ht Hh), Hre. simpl.
    by rewrite Hh. }
  eexists _, _, rates. split; [done|]. split; [apply Hagain|].
  split; [intros Hsame; by rewrite Hagain, Hsame|].
  split; [apply Hagain|].
  simpl. split_and!; try done.
  intros p si0 Hp. rewrite lookup_insert. case_decide as Hpp.
  + subst p. rewrite Hh in Hp. injection Hp as <-. by eexists.
  + by exists si0.
Qed.

(** X21. A workload that is not 0 but at most [1e-3] (or negative) is
    placed on no backend: [LoadModel] answers [CTRL_OK], records the new
    session without weights and adds no entry to the route of the reply.
    When the reply came without entries, its route lists no backend, and a
    dispatcher that installs this route leaves the normal control flow at
    the next query of the session. *)
Theorem LoadModel_small_workload (request : LoadModelRequest)
    (reply : LoadModelReply) (s : @Scheduler.t B)
    (info : ModelInfo) (frontend : FrontendDelegate)
    (Hinfo : GetModelInfo (ModelSessionToModelID (lm_model_session request))
             = Some info)
    (Hfront : frontends_ s !! lm_node_id request = Some frontend)
    (Hnew : assoc_find
              (ModelSessionToString
                 (default_image_size info (lm_model_session request)))
              (session_table_ s) = None)
    (Hnz : ~ estimate_workload request == 0)
    (Hsmall : estimate_workload request <= 1 # 1000) :
  let model_sess_id :=
    ModelSessionToString (default_image_size info (lm_model_session request)) in
  let route :=
    mkModelRouteProto model_sess_id (backend_rate (mutable_model_route reply)) in
  exists s',
    LoadModel request reply s = Ok (mkLoadModelReply CTRL_OK (Some route), s') /\
    backends_ s' = backends_ s /\
    (exists ptr si,
       assoc_find model_sess_id (session_table_ s') = Some ptr /\
       session_heap s' !! ptr = Some si /\ backend_weights si = []) /\
    (backend_rate (mutable_model_route reply) = [] ->
     route = mkModelRouteProto model_sess_id [] /\
     forall (d d' : Dispatcher.t) status sched_now now dispatch_now q dreply,
       Dispatcher.UpdateModelRoutes [route] d = Ok (status, d') ->
       Dispatcher.query_model_session_id q = model_sess_id ->
       Dispatcher.DispatchRequest sched_now now dispatch_now q dreply d'
         = Fault VectorOutOfRange).
Proof.
  intros sid route. subst sid route.
  assert (find_backends (default_image_size info (lm_model_session request))
            (estimate_workload request) s = Ok (Some [])) as Hfb.
  { unfold find_backends.
    destruct (Qeq_bool (estimate_workload request) 0) eqn:Ez;
      [by apply Qeq_bool_iff in Ez|].
    rewrite Nat.add_comm. cbn [Nat.add place].
    by rewrite (proj2 (Qlt_bool_false _ _) Hsmall). }
  eexists. split; [|split; [|split]].
  - unfold LoadModel, GetFrontend. rewrite Hinfo, Hfront, Hnew, Hfb. simpl.
    unfold GetModelRoute. simpl.
    rewrite (assoc_find_emplace_new _ _ _ Hnew), lookup_insert_eq. simpl.
    rewrite app_nil_r. reflexivity.
  - done.
  - eexists _, _. simpl. split; [by apply assoc_find_emplace_new|].
    by rewrite lookup_insert_eq.
  - intros Hempty. rewrite Hempty. split; [done|].
    intros d d' status sched_now now dispatch_now q dreply HU Hq.
    revert HU. unfold Dispatcher.UpdateModelRoutes. simpl.
    destruct (ModelRoute.Update _ _) as [r|] eqn:Er; simpl; [|done].
    intros [= <- <-].
    apply (DispatcherFacts.DispatchRequest_empty_route _ _ _ _ _ _ r).
    + simpl. by rewrite Hq, lookup_insert_eq.
    + by destruct (ModelRouteExt.Update_backends _ _ _ Er) as [-> _].
Qed.


(** X29. Ties go to the backend met first. The backend that
    [FindBestBackend] returns is one of those it chooses among, and each of
    them that [backends_] lists before it is strictly worse in the score by
    which it was chosen: in throughput when the requested rate is about
    zero or none of them reaches it, and in occupancy otherwise. *)
Theorem FindBestBackend_tie_break (s : @Scheduler.t B) (model_sess : ModelSession)
    (request_rate : Q) (skips : gset N) (e : N * B)
    (Hres : (FindBestBackend model_sess request_rate skips s).1 = Some e) :
  let res := FindBestBackend model_sess request_rate skips s in
  exists occ pre post,
    eligible s model_sess request_rate skips e res.2 occ /\
    backends_ s = pre ++ e :: post /\
    ((about_zero request_rate \/
      (forall e' i o, eligible s model_sess request_rate skips e' i o ->
         BackendDelegate.throughput i < request_rate)) ->
     forall e' i o, e' ∈ pre ->
       eligible s model_sess request_rate skips e' i o ->
       BackendDelegate.throughput i < BackendDelegate.throughput res.2) /\
    (~ about_zero request_rate ->
     (exists e' i o, eligible s model_sess request_rate skips e' i o /\
        request_rate <= BackendDelegate.throughput i) ->
     forall e' i o, e' ∈ pre ->
       eligible s model_sess request_rate skips e' i o -> o < occ).
Proof.
  destruct (FindBestBackend_first_loads s model_sess request_rate skips)
    as (mt & mo & Efold & Ht & Ho & Ft & Fo).
  pose proof (best_by_None _ _ _ _ _ _ Ht) as HtN.
  revert Hres. unfold FindBestBackend. rewrite Efold.
  assert (forall ml, ml.1.1 = Some e ->
            first_best by_throughput model_sess request_rate skips (backends_ s) ml ->
            exists pre post, backends_ s = pre ++ e :: post /\
              forall e' i o, e' ∈ pre ->
                eligible s model_sess request_rate skips e' i o ->
                BackendDelegate.throughput i < BackendDelegate.throughput ml.1.2)
    as Htp.
  { intros ml E F. unfold first_best in F. rewrite E in F.
    destruct F as (pre & post & Hsplit & Hpre). exists pre, post.
    split; [done|]. intros e' i o He' Hc. apply eligible_candidate in Hc.
    apply candidate_prepared in Hc as [_ Hp]. by apply (Hpre e' i o). }
  assert (forall ml, ml.1.1 = Some e ->
            first_best by_occupancy model_sess request_rate skips (backends_ s) ml ->
            exists pre post, backends_ s = pre ++ e :: post /\
              forall e' i o, e' ∈ pre ->
                eligible s model_sess request_rate skips e' i o -> o < ml.2)
    as Hocc.
  { intros ml E F. unfold first_best in F. rewrite E in F.
    destruct F as (pre & post & Hsplit & Hpre). exists pre, post.
    split; [done|]. intros e' i o He' Hc. apply eligible_candidate in Hc.
    apply candidate_prepared in Hc as [_ Hp]. by apply (Hpre e' i o). }
  destruct (near_zero request_rate) eqn:Ez; simpl.
  - apply near_zero_iff in Ez.
    intros He. destruct (best_by_Some _ _ _ _ _ _ _ Ht He) as [Hc _].
    destruct (Htp mt He Ft) as (pre & post & Hsplit & Hpre).
    exists mt.2, pre, post. split; [by apply eligible_candidate|].
    split; [done|]. split; [by intros _|]. by intros Hnz.
  - apply not_near_zero_iff in Ez.
    destruct (Qlt_bool (BackendDelegate.throughput mt.1.2) request_rate) eqn:Ecmp.
    + apply Qlt_bool_true in Ecmp.
      intros He. destruct (best_by_Some _ _ _ _ _ _ _ Ht He) as [Hc Hmax].
      destruct (Htp mt He Ft) as (pre & post & Hsplit & Hpre).
      exists mt.2, pre, post. split; [by apply eligible_candidate|].
      split; [done|]. split; [by intros _|].
      intros _ (e2 & i2 & o2 & Hc2 & Hle). exfalso.
      apply eligible_candidate in Hc2.
      specialize (Hmax e2 i2 o2 Hc2). unfold by_throughput in Hmax. lra.
    + apply Qlt_bool_false in Ecmp.
      intros He. destruct (best_by_Some _ _ _ _ _ _ _ Ho He) as [Hc Hmax].
      destruct (Hocc mo He Fo) as (pre & post & Hsplit & Hpre).
      exists mo.2, pre, post. split; [by apply eligible_candidate|].
      split; [done|]. split; [|by intros _ _].
      intros [Hz|Hall]; [done|]. exfalso.
      destruct (mt.1.1) as [et|] eqn:Eet.
      * destruct (best_by_Some _ _ _ _ _ _ _ Ht Eet) as [Hct _].
        apply eligible_candidate in Hct. specialize (Hall _ _ _ Hct). lra.
      * by apply (proj1 HtN eq_refl e mo.1.2 mo.2).
Qed.

(** X22. The first loop of [EpochSchedule] leaves alone what it should. One
    round neither adds nor removes a backend, changes no session info but
    the one it visits, and changes no backend that carries a static
    workload and no backend that the visited session has no weight on. *)
Theorem adjust_session_frame (history_len : nat) (model_sess_id : string)
    (ptr : nat) (e e' : @epoch B)
    (Hsort : sorts_by_weight std_sort)
    (Hrun : adjust_session history_len model_sess_id ptr e = Ok e') :
  (ep_backends e').*1 = (ep_backends e).*1 /\
  (forall p, p ≠ ptr -> ep_heap e' !! p = ep_heap e !! p) /\
  (forall k b, assoc_find k (ep_backends e) = Some b ->
     (0 <= BackendDelegate.workload_id b)%Z ->
     assoc_find k (ep_backends e') = Some b) /\
  (forall k si, ep_heap e !! ptr = Some si -> k ∉ (backend_weights si).*1 ->
     assoc_find k (ep_backends e') = assoc_find k (ep_backends e)).
Proof.
  revert Hrun. unfold adjust_session.
  case_decide as Hv; [by intros [= <-]|].
  destruct (ep_heap e !! ptr) as [si|] eqn:Esi; [|done].
  destruct (_ <? _)%nat; [by intros [= <-]|].
  destruct (last _) as [last_rps|]; [|done].
  assert (forall sp (w' : walk) est,
            split_static (backend_weights si) (ep_backends e) est [] = Ok sp ->
            ((w_backends w').*1 = (ep_backends e).*1 /\
             forall k, k ∉ (std_sort sp.2).*1 ->
               assoc_find k (w_backends w') = assoc_find k (ep_backends e)) ->
            (forall k b, assoc_find k (ep_backends e) = Some b ->
               (0 <= BackendDelegate.workload_id b)%Z ->
               assoc_find k (w_backends w') = Some b) /\
            (forall k si0, Some si = Some si0 -> k ∉ (backend_weights si0).*1 ->
               assoc_find k (w_backends w') = assoc_find k (ep_backends e)))
    as Hwalk.
  { intros sp w' est Hsp [Hkeys Hframe]. split.
    - intros k b Hk Hstatic. rewrite Hframe; [done|]. intros Hin.
      destruct (adjusted_ids _ _ _ _ _ Hsort Hsp Hin) as (_ & b' & Hb' & Hneg).
      rewrite Hk in Hb'. injection Hb' as <-. lia.
    - intros k si0 [= <-] Hk. apply Hframe. intros Hin.
      by destruct (adjusted_ids _ _ _ _ _ Hsort Hsp Hin) as (? & _). }
  destruct (Qlt_bool _ _).
  - destruct (split_static _ _ _ _) as [sp|] eqn:Hsp; simpl; [|done].
    destruct (release _ _ _) as [w|] eqn:Hw; simpl; [|done]. intros [= <-].
    pose proof (release_frame _ _ _ _ Hw) as Hfr. simpl in Hfr.
    destruct (Hwalk _ _ _ Hsp Hfr) as [Hs Hu]. simpl.
    split; [by destruct Hfr|]. split; [|done].
    intros p Hp. by rewrite lookup_insert_ne.
  - destruct (Qlt_bool _ _).
    + destruct (split_static _ _ _ _) as [sp|] eqn:Hsp; simpl; [|done].
      destruct (grow _ _ _) as [w|] eqn:Hw; simpl; [|done]. intros [= <-].
      pose proof (grow_frame _ _ _ _ Hw) as Hfr. simpl in Hfr.
      destruct (Hwalk _ _ _ Hsp Hfr) as [Hs Hu]. simpl.
      split; [by destruct Hfr|]. split; [|done].
      intros p Hp. by rewrite lookup_insert_ne.
    + intros [= <-]. simpl. split_and!; try done.
      intros p Hp. by rewrite lookup_insert_ne.
Qed.

(** X23. A session info that [session_table_] lists under several session
    ids is adjusted once per epoch: the first loop of [EpochSchedule] does
    what it does on the entries at which a session info occurs for the
    first time. *)
Theorem adjust_sessions_first_visits (history_len : nat)
    (table : list (string * nat)) (e : @epoch B) :
  adjust_sessions history_len table e =
  adjust_sessions history_len (first_visits (ep_visited e) table) e.
Proof.
  revert e. induction table as [|[id ptr] rest IH]; intros e; [done|].
  cbn [adjust_sessions first_visits]. case_decide as Hv.
  - assert (adjust_session history_len id ptr e = Ok e) as ->.
    { unfold adjust_session. by rewrite decide_True. }
    simpl. apply IH.
  - cbn [adjust_sessions].
    destruct (adjust_session history_len id ptr e) as [e'|] eqn:He; simpl; [|done].
    rewrite IH. by rewrite (adjust_session_visited _ _ _ _ _ He).
Qed.

(** X24. With a history length of 0, which the constructor computes from
    an averaging interval of 0, [BeaconCheck] reads
    [rps_history[history_len_ - 1]] out of range on the first session of a
    non-empty session table. *)
Theorem BeaconCheck_zero_history (s : @Scheduler.t B)
    (model_sess_id : string) (ptr : nat) (rest : list (string * nat))
    (Hzero : history_len_ s = O)
    (Htable : session_table_ s = (model_sess_id, ptr) :: rest)
    (Hvalid : forall entry, entry ∈ session_table_ s ->
       is_Some (session_heap s !! entry.2)) :
  BeaconCheck s = Fault VectorOutOfRange.
Proof.
  unfold BeaconCheck.
  destruct (beacon_aggregate_spec (history_len_ s) (session_table_ s)
              (session_heap s) Hvalid) as (heap' & -> & Hheap).
  simpl. rewrite Htable, Hzero. cbn [beacon_trigger].
  rewrite Hheap.
  destruct (Hvalid (model_sess_id, ptr)) as [si Hsi];
    [rewrite Htable; apply elem_of_cons; by left|].
  simpl in Hsi. rewrite Hsi. simpl. done.
Qed.

End scheduler.
End SchedulerProps.

Module SchedulerExtWitnesses.
Import Scheduler SchedulerFacts SchedulerExt SchedulerExtFacts SchedulerProps.
Import Samples SamplesExt SchedulerSamples.
Local Open Scope Q_scope.

Lemma insertion_sort_sorts : sorts_by_weight std_sort.
Proof.
  intros l. split; [apply sort_by_weight_perm | apply sort_by_weight_sorted].
Qed.

Lemma placement50_from_find_backends :
  find_backends session 50 cluster = Ok (Some placement50).
Proof. by vm_compute. Qed.

Lemma after_load_from_LoadModel :
  LoadModel load_request Scheduler.blank_reply cluster = Ok after_load.
Proof. by vm_compute. Qed.

Lemma epoch1_from_adjust_session :
  adjust_session 3 "resnet" 0 epoch0 = Ok epoch1.
Proof. by vm_compute. Qed.

Lemma find_backends_placement_witness :
  (length placement50 <= length (backends_ cluster))%nat /\
  (keyed (backends_ cluster) -> NoDup placement50.*1).
Proof.
  destruct (find_backends_placement session 50 cluster placement50
              placement50_from_find_backends) as (_ & H1 & H2 & _).
  exact (conj H1 H2).
Defined.

Lemma after_load_reply :
  after_load.1 =
  mkLoadModelReply CTRL_OK
    (Some (mkModelRouteProto "tf:resnet:1:100"
             [mkBackendRate (backend 1) 40; mkBackendRate (backend 2) 10])).
Proof. by vm_compute. Qed.

Lemma after_reload_from_LoadModel :
  LoadModel load_request after_load.1 after_load.2 =
  Ok (after_reload.1, after_reload.2).
Proof. by vm_compute. Qed.

Lemma after_reload_ok : lm_status after_reload.1 = CTRL_OK.
Proof. by vm_compute. Qed.

(** A request the cluster cannot take is refused and changes nothing; the
    request for 50 rps, handled a second time with the reply of the first
    call, is answered with the two entries of the session behind the two
    the reply already had. *)
Lemma LoadModel_outcome_witness :
  (cluster = cluster /\
   lm_set_status NOT_ENOUGH_BACKENDS Scheduler.blank_reply =
     lm_set_status
       (lm_status (lm_set_status NOT_ENOUGH_BACKENDS Scheduler.blank_reply))
       Scheduler.blank_reply /\
   lm_status (lm_set_status NOT_ENOUGH_BACKENDS Scheduler.blank_reply) ∈
     [MODEL_NOT_FOUND; CTRL_SERVER_NOT_REGISTERED; NOT_ENOUGH_BACKENDS]) /\
  (exists ptr si rates,
     Forall2 (entry_of (backends_ after_reload.2)) (backend_weights si) rates /\
     after_reload.1 =
       mkLoadModelReply CTRL_OK
         (Some (mkModelRouteProto "tf:resnet:1:100"
                  ([mkBackendRate (backend 1) 40; mkBackendRate (backend 2) 10]
                   ++ rates))) /\
     assoc_find "tf:resnet:1:100" (session_table_ after_reload.2) = Some ptr /\
     session_heap after_reload.2 !! ptr = Some si).
Proof.
  split.
  - refine (proj1 (proj2 (proj2
              (LoadModel_outcome big_request Scheduler.blank_reply
                 (lm_set_status NOT_ENOUGH_BACKENDS Scheduler.blank_reply)
                 cluster cluster _))) _).
    + by vm_compute.
    + done.
  - pose proof (LoadModel_outcome load_request after_load.1 after_reload.1
                  after_load.2 after_reload.2 after_reload_from_LoadModel)
      as (_ & _ & _ & Hok).
    destruct (Hok after_reload_ok)
      as (info & frontend & ptr & si & rates & Hi & Hf & HF & Hrep & Ht & Hh & _).
    rewrite after_load_reply in Hrep. cbn [lm_model_route backend_rate] in Hrep.
    exists ptr, si, rates. split; [exact HF|]. split; [exact Hrep|].
    split; [exact Ht | exact Hh].
Defined.

(** The route of that second answer lists B1 and B2 twice. *)
Example LoadModel_reply_reused :
  (fun route => (fun b => (node_id (info b), throughput b)) <$> backend_rate route)
    <$> lm_model_route after_reload.1 =
  Some [(1%N, 40); (2%N, 10); (1%N, 40); (2%N, 10)].
Proof. by vm_compute. Qed.

Lemma LoadModel_twice_witness :
  exists s2 model_sess_id rates,
    after_load.1 =
      mkLoadModelReply CTRL_OK
        (Some (mkModelRouteProto model_sess_id
                 (backend_rate (mutable_model_route Scheduler.blank_reply)
                  ++ rates))) /\
    LoadModel load_request Scheduler.blank_reply after_load.2 =
      Ok (mkLoadModelReply CTRL_OK
            (Some (mkModelRouteProto model_sess_id
                     (backend_rate (mutable_model_route Scheduler.blank_reply)
                      ++ rates))),
          s2) /\
    (backend_rate (mutable_model_route Scheduler.blank_reply) =
       backend_rate (mutable_model_route Scheduler.blank_reply) ->
     LoadModel load_request Scheduler.blank_reply after_load.2 =
       Ok (after_load.1, s2)) /\
    LoadModel load_request after_load.1 after_load.2 =
      Ok (mkLoadModelReply CTRL_OK
            (Some (mkModelRouteProto model_sess_id
                     ((backend_rate (mutable_model_route Scheduler.blank_reply)
                       ++ rates) ++ rates))),
          s2) /\
    backends_ s2 = backends_ after_load.2 /\
    session_table_ s2 = session_table_ after_load.2 /\
    history_len_ s2 = history_len_ after_load.2 /\
    forall ptr si, session_heap after_load.2 !! ptr = Some si ->
      exists si', session_heap s2 !! ptr = Some si' /\
        backend_weights si' = backend_weights si /\
        rps_history si' = rps_history si.
Proof.
  refine (LoadModel_twice load_request Scheduler.blank_reply after_load.1
            Scheduler.blank_reply cluster after_load.2 _ _).
  - by vm_compute.
  - by vm_compute.
Defined.

Lemma LoadModel_small_workload_witness :
  exists s',
    LoadModel small_request Scheduler.blank_reply cluster =
      Ok (mkLoadModelReply CTRL_OK
            (Some (mkModelRouteProto "tf:resnet:1:100" [])), s') /\
    backends_ s' = backends_ cluster /\
    (exists ptr si,
       assoc_find "tf:resnet:1:100" (session_table_ s') = Some ptr /\
       session_heap s' !! ptr = Some si /\ backend_weights si = []) /\
    forall (d d' : Dispatcher.t) status sched_now now dispatch_now q dreply,
      Dispatcher.UpdateModelRoutes [mkModelRouteProto "tf:resnet:1:100" []] d
        = Ok (status, d') ->
      Dispatcher.query_model_session_id q = "tf:resnet:1:100" ->
      Dispatcher.DispatchRequest sched_now now dispatch_now q dreply d'
        = Fault VectorOutOfRange.
Proof.
  destruct (LoadModel_small_workload small_request Scheduler.blank_reply cluster
              (mkModelInfo None 224 224) frontend1)
    as (s' & Hrun & Hb & Hs & Hd).
  - reflexivity.
  - reflexivity.
  - reflexivity.
  - by vm_compute.
  - by vm_compute.
  - exists s'. split; [exact Hrun|]. split; [exact Hb|]. split; [exact Hs|].
    exact (proj2 (Hd eq_refl)).
Defined.

Lemma adjust_session_frame_witness :
  (ep_backends epoch1).*1 = (ep_backends epoch0).*1 /\
  (forall p, p ≠ 0%nat -> ep_heap epoch1 !! p = ep_heap epoch0 !! p).
Proof.
  destruct (adjust_session_frame 3 "resnet" 0 epoch0 epoch1
              insertion_sort_sorts epoch1_from_adjust_session)
    as (H1 & H2 & _).
  exact (conj H1 H2).
Defined.

Lemma BeaconCheck_zero_history_witness :
  BeaconCheck cluster_no_history = Fault VectorOutOfRange.
Proof.
  refine (BeaconCheck_zero_history cluster_no_history "resnet" 0 [] eq_refl
            eq_refl _).
  intros entry He. apply list_elem_of_singleton in He as ->. by eexists.
Defined.

Lemma FindBestBackend_cluster_rev :
  (FindBestBackend session 50 ∅ cluster_rev).1 =
  Some (1%N, mkSim 1 (-1) 100 [("resnet", 60)] 0).
Proof. by vm_compute. Qed.

Lemma FindBestBackend_cluster_idle :
  (FindBestBackend session 0 ∅ cluster_idle).1 =
  Some (3%N, mkSim 3 (-1) 100 [] 0).
Proof. by vm_compute. Qed.

(** With B2 listed before B1 and 50 rps requested, B1 is returned for its
    occupancy, which B2 does not reach; with a rate of 0, the idle B3 is
    returned for its throughput, which the idle B4 before it does not
    reach. *)
Lemma FindBestBackend_tie_break_witness :
  (exists occ,
     eligible cluster_rev session 50 ∅ (1%N, mkSim 1 (-1) 100 [("resnet", 60)] 0)
       (FindBestBackend session 50 ∅ cluster_rev).2 occ /\
     forall i o,
       eligible cluster_rev session 50 ∅
         (2%N, mkSim 2 (-1) 100 [("resnet", 40)] 0) i o -> o < occ) /\
  (forall i o,
     eligible cluster_idle session 0 ∅ (4%N, mkSim 4 (-1) 80 [] 0) i o ->
     BackendDelegate.throughput i <
     BackendDelegate.throughput (FindBestBackend session 0 ∅ cluster_idle).2).
Proof.
  split.
  - destruct (FindBestBackend_tie_break cluster_rev session 50 ∅
                (1%N, mkSim 1 (-1) 100 [("resnet", 60)] 0)
                FindBestBackend_cluster_rev)
      as (occ & pre & post & Hc & Hsplit & _ & Hocc).
    exists occ. split; [exact Hc|]. intros i o He.
    apply (Hocc) with (e' := (2%N, mkSim 2 (-1) 100 [("resnet", 40)] 0)) (i := i).
    + intros [_ Hlt]. vm_compute in Hlt. discriminate Hlt.
    + exists (2%N, mkSim 2 (-1) 100 [("resnet", 40)] 0),
        (mkSimInstance "resnet" 50), (90 # 100).
      split; [|by vm_compute].
      split; [apply elem_of_cons; by left|].
      split; [done|]. split; [apply not_elem_of_empty|].
      split; [|by vm_compute].
      intros [_ Hlt]. vm_compute in Hlt. discriminate Hlt.
    + simpl in Hsplit. destruct pre as [|x pre]; [discriminate Hsplit|].
      injection Hsplit as <- _. apply elem_of_cons. by left.
    + exact He.
  - destruct (FindBestBackend_tie_break cluster_idle session 0 ∅
                (3%N, mkSim 3 (-1) 100 [] 0) FindBestBackend_cluster_idle)
      as (occ & pre & post & Hc & Hsplit & Htp & _).
    intros i o He.
    apply (Htp) with (e' := (4%N, mkSim 4 (-1) 80 [] 0)) (o := o).
    + left. by split.
    + simpl in Hsplit.
      destruct pre as [|x1 [|x2 [|x3 pre]]]; simplify_eq/=.
      do 2 (apply elem_of_cons; right). apply elem_of_cons. by left.
    + exact He.
Defined.

End SchedulerExtWitnesses.

(* ===================================================================== *)
(** ** The delayed scheduler *)
(* ===================================================================== *)

Module DelayedFacts.
Import DelayedScheduler.

(** The root of a heap has the earliest deadline. *)
Lemma heap_root_min (l : list QueryContext) (root : QueryContext) :
  is_heap l -> l !! O = Some root ->
  forall i x, l !! i = Some x -> (deadline root <= deadline x)%Z.
Proof.
  intros Hheap Hroot i. induction i as [i IH] using lt_wf_ind. intros x Hx.
  destruct i as [|i]; [rewrite Hroot in Hx; injection Hx as <-; lia|].
  assert ((S i - 1) / 2 < S i)%nat as Hlt.
  { apply Nat.Div0.div_lt_upper_bound. lia. }
  destruct (lookup_lt_is_Some_2 l ((S i - 1) / 2)%nat) as [p Hp].
  { apply lookup_lt_Some in Hx. lia. }
  pose proof (IH _ Hlt p Hp) as Hrp.
  pose proof (Hheap (S i) p x ltac:(lia) Hp Hx) as Hc.
  unfold OrderQueryContextByDeadlineASC in Hc. apply Z.ltb_ge in Hc. lia.
Qed.

Lemma is_heap_nil : is_heap [].
Proof. intros i p c _ Hp. by rewrite lookup_nil in Hp. Qed.

Section with_env.
Context `{!Externals} `{!StdPushHeap}.

Lemma EnqueueQuery_new (q : Dispatcher.QueryProto) (d : t) mctx :
  queries_ d !! Dispatcher.global_id q = None ->
  models_ d !! Dispatcher.query_model_session_id q = Some mctx ->
  let qctx :=
    new_QueryContext q
      (wrap64 (Dispatcher.frontend_recv_ns (Dispatcher.clock q)
               + Z.of_N (latency_sla
                           (ParseModelSession
                              (Dispatcher.query_model_session_id q))) * 1000)) in
  EnqueueQuery q d =
  Ok (mk (<[Dispatcher.query_model_session_id q :=
              set_sorted_queries (push_heap (sorted_queries mctx ++ [qctx])) mctx]>
            (models_ d))
         (<[Dispatcher.global_id q := qctx]> (queries_ d))).
Proof.
  intros Hq Hm qctx. unfold EnqueueQuery. simpl. by rewrite Hq, Hm.
Qed.

Lemma EnqueueQuery_inv (q : Dispatcher.QueryProto) (d d' : t) :
  EnqueueQuery q d = Ok d' ->
  (is_Some (queries_ d !! Dispatcher.global_id q) /\ d' = d) \/
  (queries_ d !! Dispatcher.global_id q = None /\
   is_Some (models_ d !! Dispatcher.query_model_session_id q)).
Proof.
  unfold EnqueueQuery. simpl.
  destruct (queries_ d !! Dispatcher.global_id q) as [x|] eqn:Eq.
  - intros [= <-]. left. by eauto.
  - destruct (models_ d !! Dispatcher.query_model_session_id q) eqn:Em; [|done].
    intros _. right. by eauto.
Qed.

End with_env.
End DelayedFacts.

Module DelayedProps.
Import DelayedScheduler DelayedFacts.

Section with_env.
Context `{!Externals} `{!StdPushHeap}.

(** X26. A query with a new global id for a known session is queued by its
    deadline. [EnqueueQuery] records the context under the global id of the
    query, with the deadline [frontend_recv_ns + latency_sla * 1000] that
    [DispatchRequest] writes into a plan for the same query; the queue of
    the session holds the old contexts and the new one and, if it was a
    heap and [std::push_heap] keeps its contract, is a heap whose first
    element has the earliest deadline of the queue. No other queue is
    touched. *)
Theorem EnqueueQuery_result (q : Dispatcher.QueryProto) (d : t)
    (mctx : ModelSessionContext)
    (Hpush : pushes_heap push_heap)
    (Hnew : queries_ d !! Dispatcher.global_id q = None)
    (Hmodel : models_ d !! Dispatcher.query_model_session_id q = Some mctx)
    (Hheap : is_heap (sorted_queries mctx)) :
  exists d' mctx' qctx,
    EnqueueQuery q d = Ok d' /\
    proto qctx = q /\ qc_global_id qctx = Dispatcher.global_id q /\
    (forall plan_id now dispatch_now inst,
       deadline qctx =
       Dispatcher.deadline_ns
         (Dispatcher.build_plan plan_id now dispatch_now inst q)) /\
    queries_ d' = <[Dispatcher.global_id q := qctx]> (queries_ d) /\
    models_ d' !! Dispatcher.query_model_session_id q = Some mctx' /\
    (forall id, id ≠ Dispatcher.query_model_session_id q ->
       models_ d' !! id = models_ d !! id) /\
    sorted_queries mctx' ≡ₚ sorted_queries mctx ++ [qctx] /\
    is_heap (sorted_queries mctx') /\
    exists front, head (sorted_queries mctx') = Some front /\
      forall x, x ∈ sorted_queries mctx' -> (deadline front <= deadline x)%Z.
Proof.
  pose proof (EnqueueQuery_new q d mctx Hnew Hmodel) as Hrun. simpl in Hrun.
  set (qctx :=
         new_QueryContext q
           (wrap64 (Dispatcher.frontend_recv_ns (Dispatcher.clock q)
                    + Z.of_N (latency_sla
                                (ParseModelSession
                                   (Dispatcher.query_model_session_id q)))
                      * 1000))) in *.
  destruct (Hpush (sorted_queries mctx) qctx Hheap) as [Hperm Hheap'].
  eexists _, (set_sorted_queries (push_heap (sorted_queries mctx ++ [qctx])) mctx),
    qctx.
  split; [exact Hrun|]. simpl. split_and!; try done.
  - by rewrite lookup_insert_eq.
  - intros id Hid. by rewrite lookup_insert_ne.
  - destruct (push_heap _) as [|front rest] eqn:El.
    + apply Permutation_nil_l in Hperm. by destruct (sorted_queries mctx).
    + exists front. split; [done|]. intros x Hx.
      apply list_elem_of_lookup_1 in Hx as [i Hi].
      by apply (heap_root_min (front :: rest) front Hheap' eq_refl i x).
Qed.

(** X27. [EnqueueQuery] is idempotent: a query whose global id is pending
    is dropped, so that handing the same query in a second time changes
    nothing. *)
Theorem EnqueueQuery_idempotent (q : Dispatcher.QueryProto) (d d' : t)
    (Hrun : EnqueueQuery q d = Ok d') :
  EnqueueQuery q d' = Ok d'.
Proof.
  destruct (EnqueueQuery_inv q d d' Hrun) as [[[x Hx] ->] | [Hq [mctx Hm]]].
  - unfold EnqueueQuery. simpl. by rewrite Hx.
  - rewrite (EnqueueQuery_new q d mctx Hq Hm) in Hrun. injection Hrun as <-.
    unfold EnqueueQuery. simpl. by rewrite lookup_insert_eq.
Qed.

(** X28. The tables of the delayed scheduler stay consistent: if every
    queue is a heap and every queued context is pending under its own
    global id, the same holds after [EnqueueQuery], given the contract of
    [std::push_heap]. *)
Theorem EnqueueQuery_invariant (q : Dispatcher.QueryProto) (d d' : t)
    (Hpush : pushes_heap push_heap)
    (Hheaps : queues_are_heaps d)
    (Hindexed : queues_indexed d)
    (Hrun : EnqueueQuery q d = Ok d') :
  queues_are_heaps d' /\ queues_indexed d'.
Proof.
  destruct (EnqueueQuery_inv q d d' Hrun) as [[_ ->] | [Hq [mctx Hm]]]; [done|].
  rewrite (EnqueueQuery_new q d mctx Hq Hm) in Hrun. injection Hrun as <-.
  destruct (Hpush (sorted_queries mctx)
              (new_QueryContext q
                 (wrap64 (Dispatcher.frontend_recv_ns (Dispatcher.clock q)
                          + Z.of_N (latency_sla
                                      (ParseModelSession
                                         (Dispatcher.query_model_session_id q)))
                            * 1000))) (Hheaps _ _ Hm)) as [Hperm Hheap'].
  split.
  - intros id m. simpl. rewrite lookup_insert. case_decide.
    + by intros [= <-].
    + apply Hheaps.
  - intros id m x. simpl. rewrite lookup_insert. case_decide as Hid.
    + intros [= <-]. simpl. rewrite Hperm. intros Hx.
      apply elem_of_app in Hx as [Hx|Hx].
      * pose proof (Hindexed _ _ _ Hm Hx) as Hpending.
        rewrite lookup_insert_ne; [done|]. intros E. rewrite E in Hq.
        by rewrite Hq in Hpending.
      * apply list_elem_of_singleton in Hx as ->. simpl.
        by rewrite lookup_insert_eq.
    + intros Hm' Hx. pose proof (Hindexed _ _ _ Hm' Hx) as Hpending.
      rewrite lookup_insert_ne; [done|]. intros E. rewrite E in Hq.
      by rewrite Hq in Hpending.
Qed.

End with_env.
End DelayedProps.

Module DelayedWitnesses.
Import DelayedScheduler DelayedFacts DelayedProps Samples DelayedSamples.

Lemma insert_by_deadline_perm (x : QueryContext) (l : list QueryContext) :
  insert_by_deadline x l ≡ₚ x :: l.
Proof.
  induction l as [|y l IH]; simpl; [done|].
  destruct (deadline x <=? deadline y)%Z; [done|].
  rewrite IH. apply Permutation_swap.
Qed.

Lemma sort_by_deadline_perm (l : list QueryContext) : sort_by_deadline l ≡ₚ l.
Proof.
  induction l as [|x l IH]; simpl; [done|].
  by rewrite insert_by_deadline_perm, IH.
Qed.

Lemma insert_by_deadline_sorted (x : QueryContext) (l : list QueryContext) :
  StronglySorted earlier l -> StronglySorted earlier (insert_by_deadline x l).
Proof.
  induction 1 as [|y l Hs IH Hall]; simpl.
  - constructor; [constructor | constructor].
  - destruct (deadline x <=? deadline y)%Z eqn:E.
    + apply Z.leb_le in E. constructor; [by constructor|].
      constructor; [done|].
      eapply Forall_impl; [exact Hall|]. unfold earlier. intros z Hz. lia.
    + apply Z.leb_gt in E. constructor; [done|].
      rewrite insert_by_deadline_perm. constructor; [|done].
      unfold earlier. lia.
Qed.

Lemma sort_by_deadline_sorted (l : list QueryContext) :
  StronglySorted earlier (sort_by_deadline l).
Proof.
  induction l as [|x l IH]; simpl; [constructor|].
  by apply insert_by_deadline_sorted.
Qed.

Lemma StronglySorted_earlier_lookup (l : list QueryContext) :
  StronglySorted earlier l ->
  forall i j x y, (i < j)%nat -> l !! i = Some x -> l !! j = Some y ->
    earlier x y.
Proof.
  induction 1 as [|a l Hs IH Hall]; intros i j x y Hij Hi Hj.
  - by rewrite lookup_nil in Hi.
  - destruct j as [|j]; [lia|]. simpl in Hj. destruct i as [|i]; simpl in Hi.
    + injection Hi as <-. by eapply (proj1 (Forall_lookup _ _) Hall).
    + apply (IH i j); [lia|done|done].
Qed.

Lemma sorted_is_heap (l : list QueryContext) :
  StronglySorted earlier l -> is_heap l.
Proof.
  intros Hs i p c Hi Hp Hc. unfold OrderQueryContextByDeadlineASC.
  apply Z.ltb_ge.
  apply (StronglySorted_earlier_lookup l Hs ((i - 1) / 2) i); [|done|done].
  apply Nat.Div0.div_lt_upper_bound. lia.
Qed.

Lemma sorting_pushes_heap : pushes_heap push_heap.
Proof.
  intros l x _. split; [apply sort_by_deadline_perm|].
  apply sorted_is_heap, sort_by_deadline_sorted.
Qed.

Lemma queued_from_EnqueueQuery : EnqueueQuery query idle = Ok queued.
Proof. by vm_compute. Qed.

Lemma idle_heaps : queues_are_heaps idle.
Proof.
  intros id mctx. unfold idle. simpl. rewrite lookup_insert.
  case_decide; [|by rewrite lookup_empty]. intros [= <-]. apply is_heap_nil.
Qed.

Lemma idle_indexed : queues_indexed idle.
Proof.
  intros id mctx x. unfold idle. simpl. rewrite lookup_insert.
  case_decide; [|by rewrite lookup_empty]. intros [= <-]. simpl.
  intros Hx. by apply elem_of_nil in Hx.
Qed.

Lemma EnqueueQuery_result_witness :
  exists d' mctx' qctx,
    EnqueueQuery query idle = Ok d' /\
    proto qctx = query /\ qc_global_id qctx = Dispatcher.global_id query /\
    (forall plan_id now dispatch_now inst,
       deadline qctx =
       Dispatcher.deadline_ns
         (Dispatcher.build_plan plan_id now dispatch_now inst query)) /\
    queries_ d' = <[Dispatcher.global_id query := qctx]> (queries_ idle) /\
    models_ d' !! Dispatcher.query_model_session_id query = Some mctx' /\
    (forall id, id ≠ Dispatcher.query_model_session_id query ->
       models_ d' !! id = models_ idle !! id) /\
    sorted_queries mctx' ≡ₚ [] ++ [qctx] /\
    is_heap (sorted_queries mctx') /\
    exists front, head (sorted_queries mctx') = Some front /\
      forall x, x ∈ sorted_queries mctx' -> (deadline front <= deadline x)%Z.
Proof.
  exact (EnqueueQuery_result query idle
           (mkModelSessionContext session "tf:resnet:1:100" ∅ [])
           sorting_pushes_heap eq_refl eq_refl is_heap_nil).
Defined.

Lemma EnqueueQuery_idempotent_witness : EnqueueQuery query queued = Ok queued.
Proof.
  exact (EnqueueQuery_idempotent query idle queued queued_from_EnqueueQuery).
Defined.

Lemma EnqueueQuery_invariant_witness :
  queues_are_heaps queued /\ queues_indexed queued.
Proof.
  exact (EnqueueQuery_invariant query idle queued sorting_pushes_heap
           idle_heaps idle_indexed queued_from_EnqueueQuery).
Defined.

End DelayedWitnesses.
